(** * Request orchestration core of the proxy server

    A shallow embedding of [RequestHandler] (account rotation, retrying
    dispatch, streaming disciplines, SSE re-framing, OpenAI-to-native
    translation) together with the parts of [BrowserManager] and
    [ConfigLoader] it depends on, and the properties established on it. *)

From Stdlib Require Import ZArith NArith QArith List Bool Lia String Ascii.
From Stdlib Require Import DecimalString.
From Stdlib Require Import Permutation.
Import ListNotations.
Open Scope Z_scope.

(* ===================================================================== *)
(** ** JavaScript strings *)
(* ===================================================================== *)

(** A JavaScript string is a sequence of UTF-16 code units. *)
Module JS.

Definition jsstring := list N.

(** ASCII literals of the source, as code units. *)
Definition lit (s : string) : jsstring :=
  map N_of_ascii (list_ascii_of_string s).

Definition LF : N := 10%N.
Definition CR : N := 13%N.

Fixpoint eqb (s t : jsstring) : bool :=
  match s, t with
  | [], [] => true
  | c :: s', d :: t' => N.eqb c d && eqb s' t'
  | _, _ => false
  end.

(** [s.startsWith(p)] *)
Fixpoint startsWith (s p : jsstring) {struct p} : bool :=
  match p with
  | [] => true
  | c :: p' =>
      match s with
      | [] => false
      | d :: s' => N.eqb d c && startsWith s' p'
      end
  end.

(** [s.indexOf(p)]; [None] stands for [-1]. *)
Fixpoint indexOf (s p : jsstring) : option nat :=
  if startsWith s p then Some 0%nat
  else match s with
       | [] => None
       | _ :: s' => option_map S (indexOf s' p)
       end.

(** [s.includes(p)] *)
Definition includes (s p : jsstring) : bool :=
  match indexOf s p with Some _ => true | None => false end.

(** [s.slice(i)] and [s.slice(0, i)] for [0 <= i]. *)
Definition sliceFrom (i : nat) (s : jsstring) : jsstring := skipn i s.
Definition sliceTo (i : nat) (s : jsstring) : jsstring := firstn i s.

(** [parts.join(sep)] on an array of strings. *)
Fixpoint join (sep : jsstring) (parts : list jsstring) : jsstring :=
  match parts with
  | [] => []
  | [p] => p
  | p :: rest => p ++ sep ++ join sep rest
  end.

(** [s.split("\n")]: the pieces between line feeds (never an empty array). *)
Fixpoint splitLF (s : jsstring) : list jsstring :=
  match s with
  | [] => [[]]
  | c :: s' =>
      if N.eqb c LF then [] :: splitLF s'
      else match splitLF s' with
           | [] => [[c]]
           | l :: ls => (c :: l) :: ls
           end
  end.

(** WhiteSpace and LineTerminator code points of ECMAScript, the set
    removed by [trim], [trimStart] and [trimEnd]. *)
Definition isWhiteSpace (c : N) : bool :=
  (N.eqb c 9 || N.eqb c 10 || N.eqb c 11 || N.eqb c 12 || N.eqb c 13
   || N.eqb c 32 || N.eqb c 160 || N.eqb c 5760
   || (N.leb 8192 c && N.leb c 8202)
   || N.eqb c 8232 || N.eqb c 8233 || N.eqb c 8239 || N.eqb c 8287
   || N.eqb c 12288 || N.eqb c 65279)%N.

Fixpoint trimStart (s : jsstring) : jsstring :=
  match s with
  | [] => []
  | c :: s' => if isWhiteSpace c then trimStart s' else s
  end.

Definition trimEnd (s : jsstring) : jsstring := rev (trimStart (rev s)).

Definition trim (s : jsstring) : jsstring := trimEnd (trimStart s).

(** Truthiness of a string: non-empty. *)
Definition nonEmpty (s : jsstring) : bool :=
  match s with [] => false | _ => true end.

End JS.

Import JS.

(* ===================================================================== *)
(** ** JSON values and the JavaScript operations used on them *)
(* ===================================================================== *)

(** A value produced by [JSON.parse]; [undefined] is [None] of
    [option json].  On a duplicate key the last field wins. *)
#[local] Set Warnings "-register-all".
Inductive json :=
| JNull
| JBool (b : bool)
| JNum (q : Q)
| JStr (s : jsstring)
| JArr (items : list json)
| JObj (fields : list (jsstring * json)).

(** Built-ins of the engine that the model takes as given. *)
Record Builtins := {
  JSON_parse : jsstring -> option json;      (* [None]: SyntaxError *)
  numberToString : Q -> jsstring;
  typeErrorMessage : jsstring                (* message of a TypeError *)
}.

Fixpoint lookupField (k : jsstring) (fields : list (jsstring * json))
  : option json :=
  match fields with
  | [] => None
  | (k', v) :: rest =>
      match lookupField k rest with
      | Some v' => Some v'
      | None => if JS.eqb k k' then Some v else None
      end
  end.

(** [v.k] for a value that is neither [null] nor [undefined], and a key
    that is no built-in property of strings and arrays. *)
Definition prop (k : string) (v : json) : option json :=
  match v with
  | JObj fields => lookupField (lit k) fields
  | _ => None
  end.

(** [v.k] in general: [None] when the read throws a TypeError. *)
Definition getProp (k : string) (v : option json) : option (option json) :=
  match v with
  | None | Some JNull => None
  | Some x => Some (prop k x)
  end.

(** [v?.k] *)
Definition getPropOpt (k : string) (v : option json) : option json :=
  match v with
  | None | Some JNull => None
  | Some x => prop k x
  end.

(** [v?.[0]] *)
Definition index0Opt (v : option json) : option json :=
  match v with
  | Some (JArr items) => nth_error items 0
  | Some (JStr (c :: _)) => Some (JStr [c])
  | Some (JObj fields) => lookupField (lit "0") fields
  | _ => None
  end.

Definition truthy (v : option json) : bool :=
  match v with
  | None | Some JNull => false
  | Some (JBool b) => b
  | Some (JNum q) => negb (Qeq_bool q 0)
  | Some (JStr s) => nonEmpty s
  | Some (JArr _) | Some (JObj _) => true
  end.

Definition isArray (v : option json) : option (list json) :=
  match v with Some (JArr items) => Some items | _ => None end.

Section ToString.

Variable js : Builtins.

(** [String(v)]; [None] when the conversion throws (an object whose own
    [toString] is not callable).  Array elements that are [null] print as
    the empty string. *)
Fixpoint toString (v : json) : option jsstring :=
  match v with
  | JNull => Some (lit "null")
  | JBool true => Some (lit "true")
  | JBool false => Some (lit "false")
  | JNum q => Some (numberToString js q)
  | JStr s => Some s
  | JArr items =>
      option_map (join (lit ","))
        ((fix elements (l : list json) : option (list jsstring) :=
            match l with
            | [] => Some []
            | x :: l' =>
                match match x with JNull => Some [] | _ => toString x end,
                      elements l' with
                | Some s, Some ss => Some (s :: ss)
                | _, _ => None
                end
            end) items)
  | JObj fields =>
      match lookupField (lit "toString") fields with
      | Some _ => None
      | None => Some (lit "[object Object]")
      end
  end.

(** A template-literal hole [${v}]. *)
Definition interpolate (v : option json) : option jsstring :=
  match v with
  | None => Some (lit "undefined")
  | Some x => toString x
  end.

(** An element of [Array.prototype.join]. *)
Definition joinElement (v : option json) : option jsstring :=
  match v with
  | None | Some JNull => Some []
  | Some x => toString x
  end.

Fixpoint sequence {A} (l : list (option A)) : option (list A) :=
  match l with
  | [] => Some []
  | Some a :: l' => option_map (cons a) (sequence l')
  | None :: _ => None
  end.

(** [values.join(sep)] *)
Definition joinValues (sep : jsstring) (values : list (option json))
  : option jsstring :=
  option_map (join sep) (sequence (map joinElement values)).

End ToString.

(* ===================================================================== *)
(** ** Configuration, messages and the client response *)
(* ===================================================================== *)

Inductive StreamingMode := ModeReal | ModeFake | ModeMix.

(** The fields of the configuration object that the request handler reads;
    [ConfigLoader.load] leaves [streamingMode] in [real|fake|mix]. *)
Record Config := {
  streamingMode : StreamingMode;
  failureThreshold : Z;
  switchOnUses : Z;
  maxRetries : Z;
  retryDelay : Z;
  immediateSwitchStatusCodes : list Z
}.

(** Messages that the connection registry puts on a request's queue. *)
Inductive Message :=
| MsgError (status : option Z) (message : option jsstring)
| MsgHeaders (status : option Z)
| MsgChunk (data : option jsstring)
| MsgStreamEnd.

Definition isErrorEvent (m : Message) : bool :=
  match m with MsgError _ _ => true | _ => false end.

Definition isStreamEnd (m : Message) : bool :=
  match m with MsgStreamEnd => true | _ => false end.

Definition msgStatus (m : Message) : option Z :=
  match m with
  | MsgError st _ => st
  | MsgHeaders st => st
  | _ => None
  end.

Definition msgMessage (m : Message) : option jsstring :=
  match m with MsgError _ msg => msg | _ => None end.

Definition msgData (m : Message) : option jsstring :=
  match m with MsgChunk d => d | _ => None end.

(** [m.message && m.message.includes("The user aborted a request")] *)
Definition isUserAbort (m : Message) : bool :=
  match msgMessage m with
  | Some s => nonEmpty s && includes s (lit "The user aborted a request")
  | None => false
  end.

(** What the handler writes to the client.  Each constructor stands for
    one place of the source that builds a body fragment; the identifier
    and the timestamp of OpenAI chunks are left out. *)
Inductive NoticeText :=
| TxtProcessingFailed (error : jsstring)
    (* `处理失败: ${error.message}` *)
| TxtRequestFinallyFailed (message : option jsstring)
    (* `请求最终失败: ${lastMessage.message}` *)
| TxtSwitchedBack (index : Z)
    (* `🔄 目标账户无效，已自动回退至账号 #${index}。` *)
| TxtOnlyOneAccount
    (* "❌ 切换失败：只有一个可用账号。" *)
| TxtSwitchAndFallbackFailed
    (* "❌ 致命错误：自动切换和紧急回退均失败，..." *)
| TxtFellBack (index : Z)
    (* `⚠️ 自动切换失败：已自动回退到账号 #${index}，...` *)
| TxtUnknownSwitchError (error : jsstring).
    (* `❌ 致命错误：发生未知切换错误: ${error.message}` *)

Inductive BodyText :=
| BodyUpstream (message : option jsstring)
| BodyProxyError (error : jsstring).
    (* `代理错误: ${error.message}` *)

Inductive ClientEvent :=
| EvHeartbeat
| EvProxyError (text : NoticeText)
    (* _sendErrorChunkToClient: {"error":{"message":"[代理系统提示] ..."}} *)
| EvRequestFailed (message : option jsstring)
    (* OpenAI chunk "请求最终失败", finish_reason "stop" *)
| EvStreamFailed (message : option jsstring)
    (* OpenAI chunk "上游流式传输失败", finish_reason "error" *)
| EvOpenAIChunk (content : option jsstring) (finish_reason : option json)
    (* chat.completion.chunk: delta.content (absent for an empty delta)
       and finish_reason ([None] is null) *)
| EvData (data : jsstring)
    (* `data: ${data}\n\n` *)
| EvRaw (data : jsstring)
    (* the string as it came *)
| EvErrorBody (status : Z) (text : BodyText)
    (* _sendErrorResponse JSON body *)
| EvDone.
    (* "data: [DONE]\n\n" *)

(** The Express response object, as far as the handler observes it. *)
Record Response := {
  headersSent : bool;
  writableEnded : bool;
  statusCode : Z;
  proxyPseudoStream : bool;       (* res.locals.__proxyPseudoStream *)
  written : list ClientEvent
}.

Definition freshResponse : Response :=
  {| headersSent := false; writableEnded := false; statusCode := 200;
     proxyPseudoStream := false; written := [] |}.

(** [res.write(chunk)]: the first write also sends the headers. *)
Definition res_write (ev : ClientEvent) (r : Response) : Response :=
  {| headersSent := true; writableEnded := writableEnded r;
     statusCode := statusCode r; proxyPseudoStream := proxyPseudoStream r;
     written := written r ++ [ev] |}.

(** [res.end()] *)
Definition res_end (r : Response) : Response :=
  {| headersSent := true; writableEnded := true;
     statusCode := statusCode r; proxyPseudoStream := proxyPseudoStream r;
     written := written r |}.

(** [res.status(code)] *)
Definition res_status (code : Z) (r : Response) : Response :=
  {| headersSent := headersSent r; writableEnded := writableEnded r;
     statusCode := code; proxyPseudoStream := proxyPseudoStream r;
     written := written r |}.

(** [res.flushHeaders()] *)
Definition res_flushHeaders (r : Response) : Response :=
  {| headersSent := true; writableEnded := writableEnded r;
     statusCode := statusCode r; proxyPseudoStream := proxyPseudoStream r;
     written := written r |}.

(** [res.locals.__proxyPseudoStream = true] *)
Definition res_markPseudo (r : Response) : Response :=
  {| headersSent := headersSent r; writableEnded := writableEnded r;
     statusCode := statusCode r; proxyPseudoStream := true;
     written := written r |}.

(** [res.status(code).type("application/json").send(body)] *)
Definition res_send (code : Z) (body : ClientEvent) (r : Response) : Response :=
  res_end (res_write body (res_status code r)).

(* ===================================================================== *)
(** ** The world of one request handler *)
(* ===================================================================== *)

(** The proxy request that is serialised onto the browser connection. *)
Record ProxyRequest := {
  path : jsstring;
  method : jsstring;
  headers : list (jsstring * jsstring);
  query_params : list (jsstring * jsstring);
  body : jsstring;
  request_id : jsstring;
  is_generative : bool;
  streaming_mode : StreamingMode
}.

(** What the next [dequeue] on the request's message queue meets: a
    message, or nothing before the waiting time is over. *)
Inductive Arrival :=
| Arrives (m : Message)
| Elapses.

(** Mutable fields of [RequestHandler]. *)
Record Handler := {
  failureCount : Z;
  usageCount : Z;
  isAuthSwitching : bool;
  isSystemBusy : bool;
  needsSwitchingAfterRequest : bool
}.

(** The handler, its collaborators and the log of what it did.
    - [currentAuthIndex] is [browserManager.currentAuthIndex];
    - [availableIndices] is [authSource.availableIndices];
    - [launchOracle n i] tells whether the [n]-th call of
      [launchOrSwitchContext], asked for account [i], throws (and with
      which message): launching drives a real browser, so its outcome
      belongs to the environment;
    - [connected] is [connectionRegistry.getFirstConnection()] being
      there; [inbox] lists what the coming [dequeue] calls meet;
    - [launchCalls], [switchCalls], [forwarded], [awaited] and [slept]
      record the calls made, in order. *)
Record World := {
  rh : Handler;
  currentAuthIndex : Z;
  availableIndices : list Z;
  launchOracle : nat -> Z -> option jsstring;
  launchCalls : list Z;
  switchCalls : nat;
  connected : bool;
  inbox : list Arrival;
  forwarded : list ProxyRequest;
  awaited : list (option Z);
  slept : list Z;
  res : Response
}.

Definition set_rh (h : Handler) (w : World) : World :=
  {| rh := h; currentAuthIndex := currentAuthIndex w;
     availableIndices := availableIndices w; launchOracle := launchOracle w;
     launchCalls := launchCalls w; switchCalls := switchCalls w;
     connected := connected w; inbox := inbox w; forwarded := forwarded w;
     awaited := awaited w; slept := slept w; res := res w |}.

Definition set_res (r : Response) (w : World) : World :=
  {| rh := rh w; currentAuthIndex := currentAuthIndex w;
     availableIndices := availableIndices w; launchOracle := launchOracle w;
     launchCalls := launchCalls w; switchCalls := switchCalls w;
     connected := connected w; inbox := inbox w; forwarded := forwarded w;
     awaited := awaited w; slept := slept w; res := r |}.

Definition set_failureCount (n : Z) (h : Handler) : Handler :=
  {| failureCount := n; usageCount := usageCount h;
     isAuthSwitching := isAuthSwitching h; isSystemBusy := isSystemBusy h;
     needsSwitchingAfterRequest := needsSwitchingAfterRequest h |}.

Definition set_usageCount (n : Z) (h : Handler) : Handler :=
  {| failureCount := failureCount h; usageCount := n;
     isAuthSwitching := isAuthSwitching h; isSystemBusy := isSystemBusy h;
     needsSwitchingAfterRequest := needsSwitchingAfterRequest h |}.

Definition set_locks (switching busy : bool) (h : Handler) : Handler :=
  {| failureCount := failureCount h; usageCount := usageCount h;
     isAuthSwitching := switching; isSystemBusy := busy;
     needsSwitchingAfterRequest := needsSwitchingAfterRequest h |}.

Definition set_needsSwitching (b : bool) (h : Handler) : Handler :=
  {| failureCount := failureCount h; usageCount := usageCount h;
     isAuthSwitching := isAuthSwitching h; isSystemBusy := isSystemBusy h;
     needsSwitchingAfterRequest := b |}.

(** *** Computations: state with JavaScript exceptions

    A thrown [Error] is represented by its message; the state reached
    when it was thrown is kept, as in JavaScript. *)
Inductive Completion (A : Type) :=
| Normal (a : A)
| Throw (message : jsstring)
| Unfinished.    (* a loop of the model was cut short *)
Arguments Normal {A} a.
Arguments Throw {A} message.
Arguments Unfinished {A}.

Definition M (A : Type) : Type := World -> Completion A * World.

Definition ret {A} (a : A) : M A := fun w => (Normal a, w).

Definition bind {A B} (m : M A) (k : A -> M B) : M B :=
  fun w =>
    match m w with
    | (Normal a, w') => k a w'
    | (Throw e, w') => (Throw e, w')
    | (Unfinished, w') => (Unfinished, w')
    end.

Definition throw {A} (e : jsstring) : M A := fun w => (Throw e, w).

Definition tryCatch {A} (m : M A) (handler : jsstring -> M A) : M A :=
  fun w =>
    match m w with
    | (Throw e, w') => handler e w'
    | other => other
    end.

Definition tryFinally {A} (m : M A) (final : M unit) : M A :=
  fun w =>
    match m w with
    | (Unfinished, w') => (Unfinished, w')
    | (r, w') =>
        match final w' with
        | (Normal _, w'') => (r, w'')
        | (Throw e, w'') => (Throw e, w'')
        | (Unfinished, w'') => (Unfinished, w'')
        end
    end.

Definition gets {A} (f : World -> A) : M A := fun w => (Normal (f w), w).
Definition modify (f : World -> World) : M unit := fun w => (Normal tt, f w).
Definition modifyHandler (f : Handler -> Handler) : M unit :=
  modify (fun w => set_rh (f (rh w)) w).
Definition modifyRes (f : Response -> Response) : M unit :=
  modify (fun w => set_res (f (res w)) w).
Definition when (b : bool) (m : M unit) : M unit := if b then m else ret tt.

Declare Scope js_scope.
Delimit Scope js_scope with js.
Notation "x <- m ;; k" := (bind m (fun x => k))
  (at level 61, m at next level, right associativity) : js_scope.
Notation "m ;; k" := (bind m (fun _ => k))
  (at level 61, right associativity) : js_scope.
Open Scope js_scope.

(* ===================================================================== *)
(** ** BrowserManager *)
(* ===================================================================== *)

(** [launchOrSwitchContext(authIndex)]: when every step of creating the
    context succeeds, [currentAuthIndex] becomes [authIndex]; when a step
    throws, the error is thrown again and [currentAuthIndex] keeps its
    value.  The oracle tells how a launch settles; a launch that never
    settles is not represented, so nothing here says that a launch or a
    rotation comes to an end. *)
Definition launchOrSwitchContext (authIndex : Z) : M unit :=
  fun w =>
    let n := List.length (launchCalls w) in
    let w1 :=
      {| rh := rh w; currentAuthIndex := currentAuthIndex w;
         availableIndices := availableIndices w;
         launchOracle := launchOracle w;
         launchCalls := launchCalls w ++ [authIndex];
         switchCalls := switchCalls w;
         connected := connected w; inbox := inbox w;
         forwarded := forwarded w; awaited := awaited w; slept := slept w;
         res := res w |} in
    match launchOracle w n authIndex with
    | Some e => (Throw e, w1)
    | None =>
        (Normal tt,
         {| rh := rh w1; currentAuthIndex := authIndex;
            availableIndices := availableIndices w1;
            launchOracle := launchOracle w1;
            launchCalls := launchCalls w1; switchCalls := switchCalls w1;
            connected := connected w1; inbox := inbox w1;
            forwarded := forwarded w1; awaited := awaited w1;
            slept := slept w1; res := res w1 |})
    end.

(** [switchAccount(newAuthIndex)] *)
Definition switchAccount (newAuthIndex : Z) : M unit :=
  launchOrSwitchContext newAuthIndex.

(* ===================================================================== *)
(** ** Writing to the client *)
(* ===================================================================== *)

(** [_writeSseChunk(res, chunk)] *)
Definition _writeSseChunk (chunk : ClientEvent) : M unit :=
  ended <- gets (fun w => writableEnded (res w)) ;;
  if ended then ret tt else modifyRes (res_write chunk).

(** [_sendErrorChunkToClient(res, errorMessage)] *)
Definition _sendErrorChunkToClient (errorMessage : NoticeText) : M unit :=
  ended <- gets (fun w => writableEnded (res w)) ;;
  if negb ended then _writeSseChunk (EvProxyError errorMessage) else ret tt.

(** The status codes that Node's [writeHead] accepts. *)
Definition validStatusCode (code : Z) : bool :=
  (100 <=? code) && (code <=? 999).

(** The message of the RangeError that [writeHead] throws for another
    code: "Invalid status code: " and the number. *)
Definition invalidStatusCode (code : Z) : jsstring :=
  lit "Invalid status code: " ++ lit (NilZero.string_of_int (Z.to_int code)).

(** [_sendErrorResponse(res, status, message)]; a missing [status] is sent
    as 500.  [res.status(code)] stores the code; the headers are written
    by [send], which throws when the code is not a valid status code:
    nothing is sent then. *)
Definition _sendErrorResponse (status : option Z) (message : BodyText)
  : M unit :=
  sent <- gets (fun w => headersSent (res w)) ;;
  if negb sent then
    let code := match status with
                | Some s => if Z.eqb s 0 then 500 else s
                | None => 500
                end in
    if validStatusCode code then
      modifyRes (res_send code (EvErrorBody code message))
    else
      modifyRes (res_status code) ;;
      throw (invalidStatusCode code)
  else ret tt.

(** The code units of "超时". *)
Definition timeoutWord : jsstring := [36229%N; 26102%N].

(** [_handleRequestError(error, res)] *)
Definition _handleRequestError (cfg : Config) (error : jsstring) : M unit :=
  sent <- gets (fun w => headersSent (res w)) ;;
  if sent then
    pseudo <- gets (fun w => proxyPseudoStream (res w)) ;;
    let expectsPseudoChunks :=
      pseudo || match streamingMode cfg with ModeFake => true | _ => false end in
    when expectsPseudoChunks
      (_sendErrorChunkToClient (TxtProcessingFailed error)) ;;
    ended <- gets (fun w => writableEnded (res w)) ;;
    when (negb ended) (modifyRes res_end)
  else
    let status := if includes error timeoutWord then 504 else 500 in
    _sendErrorResponse (Some status) (BodyProxyError error).

(* ===================================================================== *)
(** ** Account rotation *)
(* ===================================================================== *)

(** [available.indexOf(x)] on the array of account indices. *)
Fixpoint indexOfZ (x : Z) (l : list Z) : option nat :=
  match l with
  | [] => None
  | y :: l' => if Z.eqb y x then Some 0%nat else option_map S (indexOfZ x l')
  end.

(** [_getNextAuthIndex()]; [None] is the [null] of the source. *)
Definition _getNextAuthIndex (w : World) : option Z :=
  let available := availableIndices w in
  if Nat.eqb (List.length available) 0 then None
  else
    match indexOfZ (currentAuthIndex w) available with
    | None => nth_error available 0
    | Some currentIndexInArray =>
        nth_error available
          ((currentIndexInArray + 1) mod List.length available)%nat
    end.

(** The three shapes of the object returned by the switch operations. *)
Inductive SwitchResult :=
| SwitchSuccess (newIndex : Z)          (* { success: true, newIndex } *)
| SwitchFallback (newIndex : Z)         (* { success: false, fallback: true, newIndex } *)
| SwitchRefused (reason : jsstring).    (* { success: false, reason } *)

Definition onlyOneAccountError : jsstring :=
  lit "Only one account is available, cannot switch.".

Definition switchInProgress : jsstring := lit "Switch already in progress.".

Definition resetCounters : M unit :=
  modifyHandler (fun h => set_usageCount 0 (set_failureCount 0 h)).

Definition countSwitchCall (w : World) : World :=
  {| rh := rh w; currentAuthIndex := currentAuthIndex w;
     availableIndices := availableIndices w; launchOracle := launchOracle w;
     launchCalls := launchCalls w; switchCalls := S (switchCalls w);
     connected := connected w; inbox := inbox w; forwarded := forwarded w;
     awaited := awaited w; slept := slept w; res := res w |}.

(** [_switchToNextAuth()].  With two accounts or more [_getNextAuthIndex]
    is a number; were it [null], [launchOrSwitchContext] would find no
    credentials for it and throw. *)
Definition _switchToNextAuth : M SwitchResult :=
  modify countSwitchCall ;;
  available <- gets availableIndices ;;
  if (List.length available <=? 1)%nat then throw onlyOneAccountError
  else
    switching <- gets (fun w => isAuthSwitching (rh w)) ;;
    if switching then ret (SwitchRefused switchInProgress)
    else
      modifyHandler (set_locks true true) ;;
      tryFinally
        (previousAuthIndex <- gets currentAuthIndex ;;
         nextAuthIndex <- gets _getNextAuthIndex ;;
         tryCatch
           (match nextAuthIndex with
            | Some next => switchAccount next
            | None =>
                throw (lit "Failed to get or parse auth source for index null.")
            end ;;
            resetCounters ;;
            newIndex <- gets currentAuthIndex ;;
            ret (SwitchSuccess newIndex))
           (fun _ =>
              tryCatch
                (launchOrSwitchContext previousAuthIndex ;;
                 resetCounters ;;
                 newIndex <- gets currentAuthIndex ;;
                 ret (SwitchFallback newIndex))
                (fun fallbackError => throw fallbackError)))
        (modifyHandler (set_locks false false)).

(** The code units of "回退失败原因" and of "切换到账号". *)
Definition fallbackReasonWord : jsstring :=
  [22238; 36864; 22833; 36133; 21407; 22240]%N.
Definition switchToAccountWord : jsstring :=
  [20999; 25442; 21040; 36134; 21495]%N.

(** [config.immediateSwitchStatusCodes.includes(errorDetails.status)] *)
Definition isImmediateSwitch (cfg : Config) (errorDetails : Message) : bool :=
  match msgStatus errorDetails with
  | Some s => existsb (Z.eqb s) (immediateSwitchStatusCodes cfg)
  | None => false
  end.

(** [failureThreshold > 0 && failureCount >= failureThreshold] *)
Definition isThresholdReached (cfg : Config) (count : Z) : bool :=
  (0 <? failureThreshold cfg) && (failureThreshold cfg <=? count).

(** [_handleRequestFailureAndSwitch(errorDetails, res)]; [withRes] tells
    whether [res] was passed (the callers pass the response or [null]). *)
Definition _handleRequestFailureAndSwitch
    (cfg : Config) (errorDetails : Message) (withRes : bool) : M unit :=
  when (0 <? failureThreshold cfg)
    (modifyHandler (fun h => set_failureCount (failureCount h + 1) h)) ;;
  count <- gets (fun w => failureCount (rh w)) ;;
  if isImmediateSwitch cfg errorDetails || isThresholdReached cfg count then
    tryCatch
      (_switchToNextAuth ;;
       index <- gets currentAuthIndex ;;
       when withRes (_sendErrorChunkToClient (TxtSwitchedBack index)))
      (fun error =>
         userMessage <-
           (if includes error (lit "Only one account is available") then
              modifyHandler (set_failureCount 0) ;;
              ret TxtOnlyOneAccount
            else if includes error fallbackReasonWord then
              ret TxtSwitchAndFallbackFailed
            else if includes error switchToAccountWord then
              index <- gets currentAuthIndex ;;
              ret (TxtFellBack index)
            else ret (TxtUnknownSwitchError error)) ;;
         when withRes (_sendErrorChunkToClient userMessage))
  else ret tt.

(** The handler as its constructor leaves it. *)
Definition newHandler : Handler :=
  {| failureCount := 0; usageCount := 0; isAuthSwitching := false;
     isSystemBusy := false; needsSwitchingAfterRequest := false |}.

(** A world with a fresh handler and a fresh response, on account
    [current], with a live browser connection. *)
Definition initialWorld (current : Z) (available : list Z)
    (oracle : nat -> Z -> option jsstring) (arrivals : list Arrival) : World :=
  {| rh := newHandler; currentAuthIndex := current;
     availableIndices := available; launchOracle := oracle;
     launchCalls := []; switchCalls := 0%nat; connected := true;
     inbox := arrivals; forwarded := []; awaited := []; slept := [];
     res := freshResponse |}.

(** The value of [failureCount] that [_handleRequestFailureAndSwitch]
    compares with the threshold: it has counted the failure at hand when
    [failureThreshold > 0]. *)
Definition countedFailures (cfg : Config) (w : World) : Z :=
  failureCount (rh w) + (if 0 <? failureThreshold cfg then 1 else 0).

(** The entry condition of rotation in the words of the specification:
    the status is in the immediate-switch set, or the failure counter has
    reached the threshold. *)
Definition specEntryCondition (cfg : Config) (w : World) (e : Message) : Prop :=
  (exists s, msgStatus e = Some s /\ In s (immediateSwitchStatusCodes cfg))
  \/ failureThreshold cfg <= countedFailures cfg w.

(* ===================================================================== *)
(** ** Re-framing of server-sent events *)
(* ===================================================================== *)

(** The contribution of one line of a raw event to [dataLines]. *)
Definition dataLineValue (line : jsstring) : option jsstring :=
  if negb (nonEmpty line) then None
  else if startsWith line (lit ":") then None
  else if startsWith line (lit "data:") then Some (trimStart (sliceFrom 5 line))
  else None.

Fixpoint collectDataLines (lines : list jsstring) : list jsstring :=
  match lines with
  | [] => []
  | line :: rest =>
      match dataLineValue line with
      | Some value => value :: collectDataLines rest
      | None => collectDataLines rest
      end
  end.

(** [processSseEvent(rawEvent)] up to the call of the translator: the
    payload handed on, or [None] when the event is dropped. *)
Definition ssePayload (rawEvent : jsstring) : option jsstring :=
  match collectDataLines (splitLF rawEvent) with
  | [] => None
  | dataLines =>
      let payload := trim (join [LF] dataLines) in
      if negb (nonEmpty payload) || JS.eqb payload (lit "[DONE]") then None
      else Some payload
  end.

(** The body of the loop of [processSseBuffer] for one raw event:
    [if (rawEvent.trim()) processSseEvent(rawEvent)], as the payloads
    handed on (none or one). *)
Definition eventPayloads (rawEvent : jsstring) : list jsstring :=
  if nonEmpty (trim rawEvent) then
    match ssePayload rawEvent with
    | Some payload => [payload]
    | None => []
    end
  else [].

(** [processSseBuffer()]: cut at the first blank line as long as there is
    one.  Returns the payloads handed to the translator, in order, and the
    buffer that is left.  Every round removes at least two code units, so
    [fuel] as large as the buffer is never used up. *)
Fixpoint processSseBufferFrom (fuel : nat) (sseBuffer : jsstring)
  : list jsstring * jsstring :=
  match fuel with
  | O => ([], sseBuffer)
  | S fuel' =>
      match indexOf sseBuffer [LF; LF] with
      | None => ([], sseBuffer)
      | Some delimiterIndex =>
          let rawEvent := sliceTo delimiterIndex sseBuffer in
          let rest := sliceFrom (delimiterIndex + 2) sseBuffer in
          let (payloads, left) := processSseBufferFrom fuel' rest in
          (eventPayloads rawEvent ++ payloads, left)
      end
  end.

Definition processSseBuffer (sseBuffer : jsstring) : list jsstring * jsstring :=
  processSseBufferFrom (List.length sseBuffer) sseBuffer.

(** [s.replace(/\r\n/g, "\n")] *)
Fixpoint replaceCRLF (s : jsstring) : jsstring :=
  match s with
  | [] => []
  | c :: s' =>
      match s' with
      | d :: s'' =>
          if N.eqb c CR && N.eqb d LF then LF :: replaceCRLF s''
          else c :: replaceCRLF s'
      | [] => [c]
      end
  end.

(** [s.replace(/\r/g, "\n")] *)
Definition replaceCR (s : jsstring) : jsstring :=
  map (fun c => if N.eqb c CR then LF else c) s.

(** [data.replace(/\r\n/g, "\n").replace(/\r/g, "\n")] *)
Definition normalizeNewlines (s : jsstring) : jsstring :=
  replaceCR (replaceCRLF s).

(** One chunk message with string data: what the loop of
    [_handleOpenAIRealStreamResponse] does to [sseBuffer], and the
    payloads it hands on. *)
Definition feedChunk (sseBuffer data : jsstring) : list jsstring * jsstring :=
  if nonEmpty data then processSseBuffer (sseBuffer ++ normalizeNewlines data)
  else ([], sseBuffer).

(** The end of the stream: a buffer that is not blank is closed with a
    blank line and processed. *)
Definition flushAtEnd (sseBuffer : jsstring) : list jsstring :=
  if nonEmpty (trim sseBuffer) then fst (processSseBuffer (sseBuffer ++ [LF; LF]))
  else [].

(** The payloads handed on for a sequence of chunk messages followed by
    the end of the stream. *)
Fixpoint reframeFrom (sseBuffer : jsstring) (chunks : list jsstring)
  : list jsstring :=
  match chunks with
  | [] => flushAtEnd sseBuffer
  | data :: rest =>
      let (payloads, left) := feedChunk sseBuffer data in
      payloads ++ reframeFrom left rest
  end.

Definition reframe (chunks : list jsstring) : list jsstring :=
  reframeFrom [] chunks.

(* ===================================================================== *)
(** ** Native-to-OpenAI translation of responses *)
(* ===================================================================== *)

Section ResponseTranslation.

Variable js : Builtins.

(** [parts.find((p) => p.inlineData)]; the outer [None] is the TypeError
    of reading a property of [null]. *)
Fixpoint findInlineData (parts : list json) : option (option json) :=
  match parts with
  | [] => Some None
  | p :: rest =>
      match p with
      | JNull => None
      | _ => if truthy (prop "inlineData" p) then Some (Some p)
             else findInlineData rest
      end
  end.

(** The markdown image built from [imagePart.inlineData]. *)
Definition markdownImage (imagePart : json) : option jsstring :=
  let image := prop "inlineData" imagePart in
  match interpolate js (getPropOpt "mimeType" image),
        interpolate js (getPropOpt "data" image) with
  | Some mimeType, Some data =>
      Some (lit "![Generated Image](data:" ++ mimeType ++ lit ";base64,"
            ++ data ++ lit ")")
  | _, _ => None
  end.

(** The content taken from a candidate: the first inline image as
    markdown, else all [text] fields joined; [None] when it throws. *)
Definition candidateContent (candidate : option json) : option jsstring :=
  if truthy candidate && truthy (getPropOpt "content" candidate) then
    match isArray (getPropOpt "parts" (getPropOpt "content" candidate)) with
    | Some parts =>
        match findInlineData parts with
        | None => None
        | Some (Some imagePart) => markdownImage imagePart
        | Some None => joinValues js [] (map (prop "text") parts)
        end
    | None => Some []
    end
  else Some [].

(** [_translateGoogleToOpenAIStream(googleChunk, modelName)]: the outer
    [None] is a thrown TypeError, the inner one the [null] result. *)
Definition _translateGoogleToOpenAIStream (googleChunk : jsstring)
  : option (option ClientEvent) :=
  if negb (nonEmpty googleChunk) || negb (nonEmpty (trim googleChunk)) then
    Some None
  else
    match JSON_parse js googleChunk with
    | None => Some None
    | Some googleResponse =>
        match getProp "candidates" (Some googleResponse) with
        | None => None
        | Some candidates =>
            let candidate := index0Opt candidates in
            if negb (truthy candidate) then
              let promptFeedback := prop "promptFeedback" googleResponse in
              if truthy promptFeedback then
                match interpolate js (getPropOpt "blockReason" promptFeedback) with
                | Some blockReason =>
                    Some (Some (EvOpenAIChunk
                      (Some (lit "[ProxySystem Error] Request blocked due to safety settings. Finish Reason: "
                             ++ blockReason))
                      (Some (JStr (lit "stop")))))
                | None => None
                end
              else Some None
            else
              match candidateContent candidate with
              | None => None
              | Some content =>
                  let finishReason := getPropOpt "finishReason" candidate in
                  Some (Some (EvOpenAIChunk (Some content)
                                (if truthy finishReason then finishReason
                                 else None)))
              end
        end
    end.

(** What the OpenAI pseudo-stream takes from the complete native
    response: the content and the finish reason; [None] when parsing or
    reading throws. *)
Definition pseudoStreamParts (data : jsstring)
  : option (jsstring * option json) :=
  match JSON_parse js data with
  | None => None
  | Some googleResponse =>
      match getProp "candidates" (Some googleResponse) with
      | None => None
      | Some candidates =>
          let candidate := index0Opt candidates in
          match candidateContent candidate with
          | None => None
          | Some content =>
              let reason := getPropOpt "finishReason" candidate in
              Some (content,
                    if truthy reason then reason else Some (JStr (lit "stop")))
          end
      end
  end.

End ResponseTranslation.

(* ===================================================================== *)
(** ** Dispatch to the browser and the message queue *)
(* ===================================================================== *)

Definition set_queue (arrivals : list Arrival) (waits : list (option Z))
    (w : World) : World :=
  {| rh := rh w; currentAuthIndex := currentAuthIndex w;
     availableIndices := availableIndices w; launchOracle := launchOracle w;
     launchCalls := launchCalls w; switchCalls := switchCalls w;
     connected := connected w; inbox := arrivals; forwarded := forwarded w;
     awaited := waits; slept := slept w; res := res w |}.

Definition set_forwarded (sent : list ProxyRequest) (w : World) : World :=
  {| rh := rh w; currentAuthIndex := currentAuthIndex w;
     availableIndices := availableIndices w; launchOracle := launchOracle w;
     launchCalls := launchCalls w; switchCalls := switchCalls w;
     connected := connected w; inbox := inbox w; forwarded := sent;
     awaited := awaited w; slept := slept w; res := res w |}.

Definition set_slept (delays : list Z) (w : World) : World :=
  {| rh := rh w; currentAuthIndex := currentAuthIndex w;
     availableIndices := availableIndices w; launchOracle := launchOracle w;
     launchCalls := launchCalls w; switchCalls := switchCalls w;
     connected := connected w; inbox := inbox w; forwarded := forwarded w;
     awaited := awaited w; slept := delays; res := res w |}.

(** The code units of "无法转发请求：没有可用的WebSocket连接。". *)
Definition noConnectionError : jsstring :=
  [26080; 27861; 36716; 21457; 35831; 27714; 65306; 27809; 26377; 21487;
   29992; 30340; 87; 101; 98; 83; 111; 99; 107; 101; 116; 36830; 25509;
   12290]%N.

(** [_forwardRequest(proxyRequest)] *)
Definition _forwardRequest (proxyRequest : ProxyRequest) : M unit :=
  live <- gets connected ;;
  if live then modify (fun w => set_forwarded (forwarded w ++ [proxyRequest]) w)
  else throw noConnectionError.

Definition queueTimeout : jsstring := lit "Queue timeout".

(** Modelled from the spec: the message queue class is not among the
    sources.  [dequeue(timeoutMs?)] suspends until a message is available
    or the waiting time is over, and then fails with the queue-timeout
    error; messages come in the order they were put.  A queue on which
    nothing more arrives lets the waiting time pass. *)
Definition dequeue (timeoutMs : option Z) : M Message :=
  fun w =>
    match inbox w with
    | Arrives m :: rest =>
        (Normal m, set_queue rest (awaited w ++ [timeoutMs]) w)
    | Elapses :: rest =>
        (Throw queueTimeout, set_queue rest (awaited w ++ [timeoutMs]) w)
    | [] => (Throw queueTimeout, set_queue [] (awaited w ++ [timeoutMs]) w)
    end.

Definition browserTimeout : jsstring :=
  lit "Response from browser timed out after 300 seconds".

(** [await Promise.race([messageQueue.dequeue(), timeoutPromise])] with
    its [catch]: a wait of 300000 ms for the first message; when it
    passes, the message is replaced by an error of status 504. *)
Definition awaitFirstMessage : M Message :=
  tryCatch
    (fun w =>
       match inbox w with
       | Arrives m :: rest =>
           (Normal m, set_queue rest (awaited w ++ [Some 300000]) w)
       | Elapses :: rest =>
           (Throw browserTimeout, set_queue rest (awaited w ++ [Some 300000]) w)
       | [] => (Throw browserTimeout, set_queue [] (awaited w ++ [Some 300000]) w)
       end)
    (fun timeoutError => ret (MsgError (Some 504) (Some timeoutError))).

(** [await new Promise((resolve) => setTimeout(resolve, ms))] *)
Definition sleep (ms : Z) : M unit :=
  modify (fun w => set_slept (slept w ++ [ms]) w).

(** A pure computation that may throw a TypeError. *)
Definition orTypeError {A} (js : Builtins) (r : option A) : M A :=
  match r with
  | Some a => ret a
  | None => throw (typeErrorMessage js)
  end.

(* ===================================================================== *)
(** ** Response handlers *)
(* ===================================================================== *)

(** How the retry loop of the pseudo-stream handlers ends:
    [requestFailed] with the last error, or not failed, with the last
    message received ([None] when the loop body never ran). *)
Inductive LoopExit :=
| RequestFailed (lastMessage : Message)
| FirstMessage (lastMessage : option Message).

Section Handlers.

Variable js : Builtins.
Variable cfg : Config.

(** The retry loop [for (attempt = 1; attempt <= maxRetries; attempt++)]
    of [_handleOpenAIPseudoStreamResponse] and of
    [_handlePseudoStreamResponse] (the same text in both).  [rounds] is
    the number of rounds left; the loop is entered with
    [Z.to_nat maxRetries] of them. *)
Fixpoint retryLoop (proxyRequest : ProxyRequest) (rounds : nat) (attempt : Z)
    (lastMessage : option Message) : M LoopExit :=
  match rounds with
  | O => ret (FirstMessage lastMessage)
  | S rounds' =>
      if attempt <=? maxRetries cfg then
        _forwardRequest proxyRequest ;;
        lastMessage <- awaitFirstMessage ;;
        if isErrorEvent lastMessage then
          if attempt <? maxRetries cfg then
            sleep (retryDelay cfg) ;;
            retryLoop proxyRequest rounds' (attempt + 1) (Some lastMessage)
          else ret (RequestFailed lastMessage)
        else ret (FirstMessage (Some lastMessage))
      else ret (FirstMessage lastMessage)
  end.

Definition dispatchWithRetry (proxyRequest : ProxyRequest) : M LoopExit :=
  retryLoop proxyRequest (Z.to_nat (maxRetries cfg)) 1 None.

(** Accounting of a successful first message: [failureCount] back to 0,
    and with usage rotation on, [usageCount] one up and the deferred
    rotation flagged at the threshold.  [counts] is the guard
    [proxyRequest.is_generative] of the native handlers ([true] in the
    OpenAI ones, which have no guard). *)
Definition accountSuccess (counts : bool) : M unit :=
  count <- gets (fun w => failureCount (rh w)) ;;
  when (counts && (0 <? count)) (modifyHandler (set_failureCount 0)) ;;
  when ((0 <? switchOnUses cfg) && counts)
    (modifyHandler (fun h => set_usageCount (usageCount h + 1) h) ;;
     uses <- gets (fun w => usageCount (rh w)) ;;
     when (switchOnUses cfg <=? uses) (modifyHandler (set_needsSwitching true))).

Definition endIfOpen : M unit :=
  ended <- gets (fun w => writableEnded (res w)) ;;
  when (negb ended) (modifyRes res_end).

Definition dataIsTruthy (m : Message) : option jsstring :=
  match msgData m with
  | Some d => if nonEmpty d then Some d else None
  | None => None
  end.

(** [_handleOpenAIPseudoStreamResponse(proxyRequest, messageQueue, model, res)].
    The heartbeat timer is left out: [written] is what the handler itself
    writes. *)
Definition _handleOpenAIPseudoStreamResponse (proxyRequest : ProxyRequest)
  : M unit :=
  modifyRes res_markPseudo ;;
  modifyRes (res_status 200) ;;
  modifyRes res_flushHeaders ;;
  modifyRes res_flushHeaders ;;
  modifyRes res_flushHeaders ;;
  tryFinally
    (tryCatch
       (exit <- dispatchWithRetry proxyRequest ;;
        match exit with
        | RequestFailed lastMessage =>
            (if isUserAbort lastMessage then ret tt
             else
               _handleRequestFailureAndSwitch cfg lastMessage true ;;
               _writeSseChunk (EvRequestFailed (msgMessage lastMessage))) ;;
            _writeSseChunk EvDone
        | FirstMessage _ =>
            accountSuccess true ;;
            dataMessage <- dequeue None ;;
            endMessage <- dequeue None ;;
            match dataIsTruthy dataMessage with
            | Some data =>
                match pseudoStreamParts js data with
                | Some (content, finishReason) =>
                    _writeSseChunk (EvOpenAIChunk (Some content) None) ;;
                    _writeSseChunk (EvOpenAIChunk None finishReason)
                | None => ret tt
                end
            | None => ret tt
            end ;;
            _writeSseChunk EvDone
        end)
       (fun error => _handleRequestError cfg error))
    endIfOpen.

(** Write what the translator makes of each payload, in order. *)
Fixpoint emitPayloads (payloads : list jsstring) : M unit :=
  match payloads with
  | [] => ret tt
  | payload :: rest =>
      translatedChunk <- orTypeError js (_translateGoogleToOpenAIStream js payload) ;;
      match translatedChunk with
      | Some chunk => _writeSseChunk chunk
      | None => ret tt
      end ;;
      emitPayloads rest
  end.

(** The loop [while (true)] of [_handleOpenAIRealStreamResponse]; every
    round takes one entry of the inbox or ends the loop. *)
Fixpoint openAIStreamLoop (rounds : nat) (sseBuffer : jsstring) : M unit :=
  match rounds with
  | O => fun w => (Unfinished, w)
  | S rounds' =>
      message <- dequeue (Some 300000) ;;
      if isStreamEnd message then
        emitPayloads (flushAtEnd sseBuffer) ;;
        _writeSseChunk EvDone
      else if isErrorEvent message then
        _handleRequestFailureAndSwitch cfg message true ;;
        _writeSseChunk (EvStreamFailed (msgMessage message)) ;;
        _writeSseChunk EvDone
      else
        match msgData message with
        | Some data =>
            let (payloads, left) := feedChunk sseBuffer data in
            emitPayloads payloads ;;
            openAIStreamLoop rounds' left
        | None => openAIStreamLoop rounds' sseBuffer
        end
  end.

(** [_handleOpenAIRealStreamResponse(proxyRequest, messageQueue, model, res)].
    What follows the loop in the source only writes to the log. *)
Definition _handleOpenAIRealStreamResponse (proxyRequest : ProxyRequest)
  : M unit :=
  _forwardRequest proxyRequest ;;
  initialMessage <- dequeue None ;;
  if isErrorEvent initialMessage then
    _handleRequestFailureAndSwitch cfg initialMessage true ;;
    ended <- gets (fun w => writableEnded (res w)) ;;
    when (negb ended) (_writeSseChunk EvDone ;; modifyRes res_end)
  else
    accountSuccess true ;;
    modifyRes (res_status 200) ;;
    pending <- gets inbox ;;
    openAIStreamLoop (S (List.length pending)) [].

(** [_handlePseudoStreamResponse(proxyRequest, messageQueue, req, res)] *)
Definition _handlePseudoStreamResponse (proxyRequest : ProxyRequest)
  : M unit :=
  modifyRes res_markPseudo ;;
  modifyRes (res_status 200) ;;
  modifyRes res_flushHeaders ;;
  tryFinally
    (tryCatch
       (exit <- dispatchWithRetry proxyRequest ;;
        match exit with
        | RequestFailed lastMessage =>
            if isUserAbort lastMessage then ret tt
            else
              _handleRequestFailureAndSwitch cfg lastMessage true ;;
              _sendErrorChunkToClient
                (TxtRequestFinallyFailed (msgMessage lastMessage))
        | FirstMessage _ =>
            accountSuccess (is_generative proxyRequest) ;;
            dataMessage <- dequeue None ;;
            endMessage <- dequeue None ;;
            match dataIsTruthy dataMessage with
            | Some data => _writeSseChunk (EvData data)
            | None => ret tt
            end ;;
            _writeSseChunk EvDone
        end)
       (fun error => _handleRequestError cfg error))
    endIfOpen.

(** The loop [while (true)] of [_handleRealStreamResponse]. *)
Fixpoint realStreamLoop (rounds : nat) : M unit :=
  match rounds with
  | O => fun w => (Unfinished, w)
  | S rounds' =>
      dataMessage <- dequeue (Some 30000) ;;
      if isStreamEnd dataMessage then ret tt
      else
        match dataIsTruthy dataMessage with
        | Some data => _writeSseChunk (EvRaw data)
        | None => ret tt
        end ;;
        realStreamLoop rounds'
  end.

(** [_setResponseHeaders(res, headerMessage)]: [res.status(code)] stores
    the code, and [flushHeaders] writes the headers when they were not
    written before, which throws when the code is not a valid status
    code. *)
Definition _setResponseHeaders (headerMessage : Message) : M unit :=
  let code := match msgStatus headerMessage with
              | Some s => if Z.eqb s 0 then 200 else s
              | None => 200
              end in
  modifyRes (res_status code) ;;
  sent <- gets (fun w => headersSent (res w)) ;;
  if sent || validStatusCode code then modifyRes res_flushHeaders
  else throw (invalidStatusCode code).

(** [_handleRealStreamResponse(proxyRequest, messageQueue, res)] *)
Definition _handleRealStreamResponse (proxyRequest : ProxyRequest) : M unit :=
  _forwardRequest proxyRequest ;;
  headerMessage <- dequeue None ;;
  if isErrorEvent headerMessage then
    if isUserAbort headerMessage then endIfOpen
    else
      _handleRequestFailureAndSwitch cfg headerMessage false ;;
      _sendErrorResponse (msgStatus headerMessage)
        (BodyUpstream (msgMessage headerMessage))
  else
    accountSuccess (is_generative proxyRequest) ;;
    _setResponseHeaders headerMessage ;;
    tryFinally
      (tryCatch
         (pending <- gets inbox ;;
          realStreamLoop (S (List.length pending)))
         (fun error =>
            if JS.eqb error queueTimeout then ret tt else throw error))
      endIfOpen.

End Handlers.

(* ===================================================================== *)
(** ** Mix mode: the streaming discipline chosen by the model identifier *)
(* ===================================================================== *)

(** [this.fakeStreamPrefix = "假流式/"], as code units. *)
Definition fakeStreamPrefix : jsstring := [20551; 27969; 24335; 47]%N.

(** [_isMixStreamingEnabled()] *)
Definition _isMixStreamingEnabled (cfg : Config) : bool :=
  match streamingMode cfg with ModeMix => true | _ => false end.

(** [_isFakeStreamModelId(modelId)] on a string. *)
Definition _isFakeStreamModelId (modelId : jsstring) : bool :=
  startsWith modelId fakeStreamPrefix.

(** [_stripFakeStreamPrefix(modelId)] *)
Definition _stripFakeStreamPrefix (modelId : jsstring) : jsstring :=
  if negb (_isFakeStreamModelId modelId) then modelId
  else sliceFrom (List.length fakeStreamPrefix) modelId.

Record ModelContext := {
  requestedModel : jsstring;
  normalizedModel : jsstring;
  isFake : bool
}.

(** [_normalizeMixModeModelId(modelId)]; an identifier that is no string
    counts as the empty string. *)
Definition _normalizeMixModeModelId (cfg : Config) (modelId : json)
  : ModelContext :=
  let normalizedModelId := match modelId with JStr s => s | _ => [] end in
  let isFake := _isMixStreamingEnabled cfg
                && _isFakeStreamModelId normalizedModelId in
  let stripped := if isFake then _stripFakeStreamPrefix normalizedModelId
                  else normalizedModelId in
  {| requestedModel := normalizedModelId;
     normalizedModel := if nonEmpty stripped then stripped else normalizedModelId;
     isFake := isFake |}.

(** [_resolveStreamingModeForRequest(modelContext)]; [None] is a context
    of [null]. *)
Definition _resolveStreamingModeForRequest (cfg : Config)
    (modelContext : option ModelContext) : StreamingMode :=
  match streamingMode cfg with
  | ModeMix =>
      match modelContext with
      | Some context => if isFake context then ModeFake else ModeReal
      | None => ModeReal
      end
  | mode => mode
  end.

(** The head of [processOpenAIRequest]: the model of the request
    ([req.body.model || "gemini-1.5-pro-latest"]), the model named in the
    upstream path ([normalizedModel || model]) and the path itself;
    [None] when printing the model throws. *)
Definition openAIModel (body : json) : json :=
  if truthy (prop "model" body) then
    match prop "model" body with Some m => m | None => JNull end
  else JStr (lit "gemini-1.5-pro-latest").

Definition openAIUpstreamPath (js : Builtins) (cfg : Config) (body : json)
    (isOpenAIStream : bool) : option jsstring :=
  let model := openAIModel body in
  let openAIModelContext := _normalizeMixModeModelId cfg model in
  let googleModel :=
    if nonEmpty (normalizedModel openAIModelContext)
    then JStr (normalizedModel openAIModelContext) else model in
  let googleEndpoint :=
    if isOpenAIStream then lit "streamGenerateContent"
    else lit "generateContent" in
  option_map
    (fun name => lit "/v1beta/models/" ++ name ++ lit ":" ++ googleEndpoint)
    (toString js googleModel).

(** The streaming mode put on the proxy request by
    [processOpenAIRequest]. *)
Definition openAIStreamingMode (cfg : Config) (body : json)
    (isOpenAIStream : bool) : StreamingMode :=
  if isOpenAIStream then
    _resolveStreamingModeForRequest cfg
      (Some (_normalizeMixModeModelId cfg (openAIModel body)))
  else ModeFake.

(* ===================================================================== *)
(** ** OpenAI-to-native translation of requests *)
(* ===================================================================== *)

(** A part of a native content: [{text}] or [{inlineData: {mimeType, data}}]. *)
Inductive GooglePart :=
| GText (text : option json)
| GInlineData (mimeType data : jsstring).

Record GoogleContent := {
  role : jsstring;
  parts : list GooglePart
}.

Record GenerationConfig := {
  temperature : option json;
  topP : option json;
  topK : option json;
  maxOutputTokens : option json;
  stopSequences : option json
}.

Record GoogleRequest := {
  contents : list GoogleContent;
  systemInstruction : option (list GooglePart);   (* its [parts], when present *)
  generationConfig : GenerationConfig;
  safetySettings : list (jsstring * jsstring)     (* category, threshold *)
}.

(** [v === "s"] *)
Definition isString (v : option json) (s : string) : bool :=
  match v with
  | Some (JStr t) => JS.eqb t (lit s)
  | _ => false
  end.

(** Line terminators, which [.] of a regular expression does not match. *)
Definition isLineTerminator (c : N) : bool :=
  (N.eqb c 10 || N.eqb c 13 || N.eqb c 8232 || N.eqb c 8233)%N.

(** [dataUrl.match(re)] for the pattern of the source: the literal
    [data:], a lazy first group [image/...], the literal [;base64,] and
    a greedy second group up to the end.  It gives the two groups.  After
    [data:image/] no line terminator may follow; the lazy first group
    ends at the first [;base64,]. *)
Definition matchImageDataUrl (dataUrl : jsstring) : option (jsstring * jsstring) :=
  if startsWith dataUrl (lit "data:image/") then
    let rest := sliceFrom 11 dataUrl in
    if existsb isLineTerminator rest then None
    else
      match indexOf rest (lit ";base64,") with
      | Some i => Some (lit "image/" ++ sliceTo i rest, sliceFrom (i + 8) rest)
      | None => None
      end
  else None.

(** The native parts of one element of an array content; [None] when
    reading it throws. *)
Definition translatePart (part : json) : option (list GooglePart) :=
  match part with
  | JNull => None
  | _ =>
      if isString (prop "type" part) "text" then
        Some [GText (prop "text" part)]
      else if isString (prop "type" part) "image_url"
              && truthy (prop "image_url" part) then
        match getPropOpt "url" (prop "image_url" part) with
        | Some (JStr dataUrl) =>
            match matchImageDataUrl dataUrl with
            | Some (mimeType, data) => Some [GInlineData mimeType data]
            | None => Some []
            end
        | _ => None
        end
      else Some []
  end.

Fixpoint translateParts (content : list json) : option (list GooglePart) :=
  match content with
  | [] => Some []
  | part :: rest =>
      match translatePart part, translateParts rest with
      | Some ps, Some qs => Some (ps ++ qs)
      | _, _ => None
      end
  end.

(** The native content of one message that is no system message. *)
Definition translateMessage (message : json) : option GoogleContent :=
  match (match prop "content" message with
         | Some (JStr s) => Some [GText (Some (JStr s))]
         | Some (JArr content) => translateParts content
         | _ => Some []
         end) with
  | Some googleParts =>
      Some {| role := if isString (prop "role" message) "assistant"
                      then lit "model" else lit "user";
              parts := googleParts |}
  | None => None
  end.

(** [messages.filter((msg) => keep(msg.role === "system"))]; [None] when
    a message is [null]. *)
Fixpoint filterByRole (keepSystem : bool) (messages : list json)
  : option (list json) :=
  match messages with
  | [] => Some []
  | msg :: rest =>
      match msg with
      | JNull => None
      | _ =>
          match filterByRole keepSystem rest with
          | Some kept =>
              Some (if Bool.eqb (isString (prop "role" msg) "system") keepSystem
                    then msg :: kept else kept)
          | None => None
          end
      end
  end.

Definition blockNone : list (jsstring * jsstring) :=
  [(lit "HARM_CATEGORY_HARASSMENT", lit "BLOCK_NONE");
   (lit "HARM_CATEGORY_HATE_SPEECH", lit "BLOCK_NONE");
   (lit "HARM_CATEGORY_SEXUALLY_EXPLICIT", lit "BLOCK_NONE");
   (lit "HARM_CATEGORY_DANGEROUS_CONTENT", lit "BLOCK_NONE")].

(** [_translateOpenAIToGoogle(openaiBody, modelName)]; [None] when it
    throws. *)
Definition _translateOpenAIToGoogle (js : Builtins) (openaiBody : json)
  : option GoogleRequest :=
  match getProp "messages" (Some openaiBody) with
  | Some (Some (JArr messages)) =>
      match filterByRole true messages with
      | None => None
      | Some systemMessages =>
          match (match systemMessages with
                 | [] => Some None
                 | _ =>
                     option_map
                       (fun systemContent =>
                          Some [GText (Some (JStr systemContent))])
                       (joinValues js [LF] (map (prop "content") systemMessages))
                 end) with
          | None => None
          | Some instruction =>
              match filterByRole false messages with
              | None => None
              | Some conversationMessages =>
                  match sequence (map translateMessage conversationMessages) with
                  | None => None
                  | Some googleContents =>
                      Some {| contents := googleContents;
                              systemInstruction := instruction;
                              generationConfig :=
                                {| temperature := prop "temperature" openaiBody;
                                   topP := prop "top_p" openaiBody;
                                   topK := prop "top_k" openaiBody;
                                   maxOutputTokens := prop "max_tokens" openaiBody;
                                   stopSequences := prop "stop" openaiBody |};
                              safetySettings := blockNone |}
                  end
              end
          end
      end
  | _ => None
  end.

(** *** Well-typed OpenAI requests *)

Inductive OAPart :=
| OAText (text : jsstring)
| OAImage (url : jsstring).

Inductive OAContent :=
| OAString (text : jsstring)
| OAParts (items : list OAPart).

Record OAMessage := {
  oaRole : jsstring;
  oaContent : OAContent
}.

Definition partJson (part : OAPart) : json :=
  match part with
  | OAText text => JObj [(lit "type", JStr (lit "text")); (lit "text", JStr text)]
  | OAImage url =>
      JObj [(lit "type", JStr (lit "image_url"));
            (lit "image_url", JObj [(lit "url", JStr url)])]
  end.

Definition contentJson (content : OAContent) : json :=
  match content with
  | OAString text => JStr text
  | OAParts items => JArr (map partJson items)
  end.

Definition messageJson (message : OAMessage) : json :=
  JObj [(lit "role", JStr (oaRole message));
        (lit "content", contentJson (oaContent message))].

(** An array of messages as [express.json()] hands it over. *)
Definition messagesJson (messages : list OAMessage) : json :=
  JArr (map messageJson messages).

(** A message whose content is a string. *)
Definition hasStringContent (message : OAMessage) : bool :=
  match oaContent message with
  | OAString _ => true
  | OAParts _ => false
  end.

(** *** The translation in the words of the specification *)

Definition isSystem (message : OAMessage) : bool :=
  JS.eqb (oaRole message) (lit "system").

(** The text of a system message: a string content is its text; of an
    array content, the texts of its text parts. *)
Definition systemText (content : OAContent) : jsstring :=
  match content with
  | OAString text => text
  | OAParts items =>
      List.concat (flat_map (fun part => match part with
                                    | OAText text => [text]
                                    | OAImage _ => []
                                    end) items)
  end.

Definition specPart (part : OAPart) : list GooglePart :=
  match part with
  | OAText text => [GText (Some (JStr text))]
  | OAImage url =>
      match matchImageDataUrl url with
      | Some (mimeType, data) => [GInlineData mimeType data]
      | None => []
      end
  end.

Definition specParts (content : OAContent) : list GooglePart :=
  match content with
  | OAString text => [GText (Some (JStr text))]
  | OAParts items => flat_map specPart items
  end.

Definition specContent (message : OAMessage) : GoogleContent :=
  {| role := if JS.eqb (oaRole message) (lit "assistant")
             then lit "model" else lit "user";
     parts := specParts (oaContent message) |}.

(** The translation of a body that holds [messages]: the generation
    parameters are the values the body has under their OpenAI names. *)
Definition specTranslation (body : json) (messages : list OAMessage)
  : GoogleRequest :=
  {| contents :=
       map specContent (filter (fun m => negb (isSystem m)) messages);
     systemInstruction :=
       match filter isSystem messages with
       | [] => None
       | systems =>
           Some [GText (Some (JStr
             (join [LF] (map (fun m => systemText (oaContent m)) systems))))]
       end;
     generationConfig :=
       {| temperature := prop "temperature" body;
          topP := prop "top_p" body;
          topK := prop "top_k" body;
          maxOutputTokens := prop "max_tokens" body;
          stopSequences := prop "stop" body |};
     safetySettings := blockNone |}.

(* ===================================================================== *)
(** ** Predicates used in the statements *)
(* ===================================================================== *)

(** An arrival that makes an attempt of the retry loop fail, and the
    message the loop then holds. *)
Definition failsAttempt (a : Arrival) : bool :=
  match a with
  | Arrives m => isErrorEvent m
  | Elapses => true
  end.

Definition attemptMessage (a : Arrival) : Message :=
  match a with
  | Arrives m => m
  | Elapses => MsgError (Some 504) (Some browserTimeout)
  end.

(** The world after [k] attempts of the retry loop for [p], with
    [sleeps] pauses of [delay] between them, and [rest] left in the
    queue. *)
Definition afterAttempts (p : ProxyRequest) (delay : Z) (k sleeps : nat)
    (rest : list Arrival) (w : World) : World :=
  {| rh := rh w; currentAuthIndex := currentAuthIndex w;
     availableIndices := availableIndices w; launchOracle := launchOracle w;
     launchCalls := launchCalls w; switchCalls := switchCalls w;
     connected := connected w; inbox := rest;
     forwarded := forwarded w ++ repeat p k;
     awaited := awaited w ++ repeat (Some 300000) k;
     slept := slept w ++ repeat delay sleeps; res := res w |}.



(** The browser connection, the queue and the request log. *)
Definition sameTraffic (w w' : World) : Prop :=
  forwarded w' = forwarded w /\ inbox w' = inbox w /\ awaited w' = awaited w
  /\ slept w' = slept w /\ connected w' = connected w.

Definition isNotice (ev : ClientEvent) : Prop :=
  exists t, ev = EvProxyError t.

(** The response got some notices appended and nothing else. *)
Definition onlyNoticesAdded (r r' : Response) : Prop :=
  writableEnded r' = writableEnded r
  /\ proxyPseudoStream r' = proxyPseudoStream r
  /\ (headersSent r = true -> headersSent r' = true)
  /\ exists notices, written r' = written r ++ notices
                     /\ Forall isNotice notices.

(** An engine for the worked examples: [JSON.parse] on the one document
    they use, decimal printing of whole numbers. *)
Definition quoted (s : string) : jsstring := (34 :: lit s ++ [34])%N.

(** {"candidates":[{"content":{"parts":[{"text":"Hi"}]},"finishReason":"STOP"}]} *)
Definition sampleDocument : jsstring :=
  lit "{" ++ quoted "candidates" ++ lit ":[{" ++ quoted "content" ++ lit ":{"
  ++ quoted "parts" ++ lit ":[{" ++ quoted "text" ++ lit ":" ++ quoted "Hi"
  ++ lit "}]}," ++ quoted "finishReason" ++ lit ":" ++ quoted "STOP"
  ++ lit "}]}".

Definition sampleValue : json :=
  JObj [(lit "candidates",
         JArr [JObj [(lit "content",
                      JObj [(lit "parts", JArr [JObj [(lit "text", JStr (lit "Hi"))]])]);
                     (lit "finishReason", JStr (lit "STOP"))]])].

Definition sampleEngine : Builtins :=
  {| JSON_parse := fun s => if JS.eqb s sampleDocument then Some sampleValue else None;
     numberToString := fun q => lit (NilZero.string_of_int (Z.to_int (Qnum q)));
     typeErrorMessage := lit "Cannot read properties of null" |}.

Definition sampleConfig (retries : Z) : Config :=
  {| streamingMode := ModeMix; failureThreshold := 3; switchOnUses := 40;
     maxRetries := retries; retryDelay := 0;
     immediateSwitchStatusCodes := [429; 503] |}.

Definition sampleRequest : ProxyRequest :=
  {| path := lit "/v1beta/models/gemini-pro:streamGenerateContent";
     method := lit "POST";
     headers := [(lit "Content-Type", lit "application/json")];
     query_params := [(lit "alt", lit "sse")];
     body := lit "{}"; request_id := lit "1730000000000_abc123xyz";
     is_generative := true; streaming_mode := ModeFake |}.

Definition sampleRealRequest : ProxyRequest :=
  {| path := lit "/v1beta/models/gemini-pro:streamGenerateContent";
     method := lit "POST";
     headers := [(lit "Content-Type", lit "application/json")];
     query_params := [(lit "alt", lit "sse")];
     body := lit "{}"; request_id := lit "1730000000000_abc123xyz";
     is_generative := true; streaming_mode := ModeReal |}.


(** [expectsPseudoChunks] of [_handleRequestError]. *)
Definition expectsPseudoChunks (cfg : Config) (r : Response) : bool :=
  proxyPseudoStream r
  || match streamingMode cfg with ModeFake => true | _ => false end.

(** A chunk whose last code unit is a carriage return. *)
Fixpoint endsWithCR (s : jsstring) : bool :=
  match s with
  | [] => false
  | [c] => N.eqb c CR
  | _ :: s' => endsWithCR s'
  end.

(** The payloads of a stream [s] that arrives in one piece behind the
    buffer [sseBuffer]. *)
Definition wholeStream (sseBuffer s : jsstring) : list jsstring :=
  let (payloads, left) := processSseBuffer (sseBuffer ++ s) in
  payloads ++ flushAtEnd left.

(** [k] failed requests handled one after the other by
    [_handleRequestFailureAndSwitch]. *)
Fixpoint failuresInARow (cfg : Config) (errorDetails : Message)
    (withRes : bool) (k : nat) : M unit :=
  match k with
  | O => ret tt
  | S k' =>
      _handleRequestFailureAndSwitch cfg errorDetails withRes ;;
      failuresInARow cfg errorDetails withRes k'
  end.

(** The last step of the [finally] of [processRequest] and of
    [processOpenAIRequest]: the rotation that the request has flagged is
    started and the flag is cleared; a rotation that throws is only
    logged.  The source does not wait for the rotation; it is run to its
    end here, which gives the state reached once it has settled, no other
    request coming in between. *)
Definition rotateAfterRequest : M unit :=
  needs <- gets (fun w => needsSwitchingAfterRequest (rh w)) ;;
  when needs
    (tryCatch (_switchToNextAuth ;; ret tt) (fun _ => ret tt) ;;
     modifyHandler (set_needsSwitching false)).



(** The response after [res.write] of each of [events], in order. *)
Definition writeAll (events : list ClientEvent) (r : Response) : Response :=
  fold_left (fun r' ev => res_write ev r') events r.

(** What the loop of [_handleOpenAIRealStreamResponse] writes for the
    payloads it hands to the translator, in order; [None] when the
    translator throws on one of them. *)
Fixpoint translatedEvents (js : Builtins) (payloads : list jsstring)
  : option (list ClientEvent) :=
  match payloads with
  | [] => Some []
  | payload :: rest =>
      match _translateGoogleToOpenAIStream js payload,
            translatedEvents js rest with
      | Some (Some chunk), Some events => Some (chunk :: events)
      | Some None, Some events => Some events
      | _, _ => None
      end
  end.

(** The queue entries of chunk messages that carry the given strings. *)
Definition chunkArrivals (chunks : list jsstring) : list Arrival :=
  map (fun data => Arrives (MsgChunk (Some data))) chunks.

(* ===================================================================== *)
(** ** Switching by hand *)
(* ===================================================================== *)

(** The code units of "切换失败：账号 #" and of " 无效或不存在。". *)
Definition invalidAccountPrefix : jsstring :=
  [20999; 25442; 22833; 36133; 65306; 36134; 21495; 32; 35]%N.
Definition invalidAccountSuffix : jsstring :=
  [32; 26080; 25928; 25110; 19981; 23384; 22312; 12290]%N.

(** [_switchToSpecificAuth(targetIndex)] for a number [targetIndex].  A
    launch that throws is thrown on: there is no way back to the account
    before. *)
Definition _switchToSpecificAuth (js : Builtins) (targetIndex : Z)
  : M SwitchResult :=
  switching <- gets (fun w => isAuthSwitching (rh w)) ;;
  if switching then ret (SwitchRefused switchInProgress)
  else
    available <- gets availableIndices ;;
    if negb (existsb (Z.eqb targetIndex) available) then
      ret (SwitchRefused
             (invalidAccountPrefix
                ++ numberToString js (inject_Z targetIndex)
                ++ invalidAccountSuffix))
    else
      modifyHandler (set_locks true true) ;;
      tryFinally
        (tryCatch
           (switchAccount targetIndex ;;
            resetCounters ;;
            newIndex <- gets currentAuthIndex ;;
            ret (SwitchSuccess newIndex))
           (fun error => throw error))
        (modifyHandler (set_locks false false)).

(** What the route [POST /api/switch-account] sends; each constructor
    stands for one [res.status(..).send(..)] of the route. *)
Inductive SwitchReply :=
| ReplyActivated (newIndex : Z)
    (* 200 `切换成功！已激活账号 #${result.newIndex}。` *)
| ReplyReason (reason : option jsstring)
    (* 400 result.reason, [None] when the result has none *)
| ReplyOnlyOneAccount
    (* 400 "切换操作已取消：只有一个可用账号，无法切换。" *)
| ReplySwitched (newIndex : Z)
    (* 200 `切换成功！已切换到账号 #${result.newIndex}。` *)
| ReplyFellBack (newIndex : Z)
    (* 200 `切换失败，但已成功回退到账号 #${result.newIndex}。` *)
| ReplyNotDone (reason : jsstring)
    (* 409 `操作未执行: ${result.reason}` *)
| ReplyFatal (error : jsstring)
    (* 500 `致命错误：操作失败！请检查日志。错误: ${error.message}` *)
| ReplyRedirect (location : jsstring).
    (* 302 res.redirect(location), of [isAuthenticated] *)

(** The handler that [POST /api/switch-account] runs once the session
    is authenticated, for a request body that is an object;
    [targetIndex] is the number of [req.body.targetIndex], [None] when
    it is [undefined] or [null].  The result is the status and the body
    sent. *)
Definition switchAccountHandler (js : Builtins) (targetIndex : option Z)
  : M (Z * SwitchReply) :=
  tryCatch
    (match targetIndex with
     | Some target =>
         result <- _switchToSpecificAuth js target ;;
         match result with
         | SwitchSuccess newIndex => ret (200, ReplyActivated newIndex)
         | SwitchFallback _ => ret (400, ReplyReason None)
         | SwitchRefused reason => ret (400, ReplyReason (Some reason))
         end
     | None =>
         available <- gets availableIndices ;;
         if (List.length available <=? 1)%nat then
           ret (400, ReplyOnlyOneAccount)
         else
           result <- _switchToNextAuth ;;
           match result with
           | SwitchSuccess newIndex => ret (200, ReplySwitched newIndex)
           | SwitchFallback newIndex => ret (200, ReplyFellBack newIndex)
           | SwitchRefused reason => ret (409, ReplyNotDone reason)
           end
     end)
    (fun error => ret (500, ReplyFatal error)).

(** The route [POST /api/switch-account]: the middleware
    [isAuthenticated] and then the handler.  [sessionAuthenticated] is
    [req.session.isAuthenticated]; a request without it is redirected to
    the login page. *)
Definition switchAccountRoute (js : Builtins) (sessionAuthenticated : bool)
    (targetIndex : option Z) : M (Z * SwitchReply) :=
  if sessionAuthenticated then switchAccountHandler js targetIndex
  else ret (302, ReplyRedirect (lit "/login")).

(* ===================================================================== *)
(** ** Start of the server system *)
(* ===================================================================== *)

(** The code units of "没有任何可用的认证源，无法启动。" and of
    "所有认证源均尝试失败，服务器无法启动。". *)
Definition noAuthSourceError : jsstring :=
  [27809; 26377; 20219; 20309; 21487; 29992; 30340; 35748; 35777; 28304;
   65292; 26080; 27861; 21551; 21160; 12290]%N.
Definition allSourcesFailedError : jsstring :=
  [25152; 26377; 35748; 35777; 28304; 22343; 23581; 35797; 22833; 36133;
   65292; 26381; 21153; 22120; 26080; 27861; 21551; 21160; 12290]%N.

(** The order in which [start(initialAuthIndex)] tries the accounts.
    [initialAuthIndex] is a number or [null] ([None]); the number 0 is
    falsy and counts as not given. *)
Definition startupOrder (allAvailableIndices : list Z)
    (initialAuthIndex : option Z) : list Z :=
  match initialAuthIndex with
  | Some initial =>
      if negb (Z.eqb initial 0)
         && existsb (Z.eqb initial) allAvailableIndices
      then initial
           :: filter (fun i => negb (Z.eqb i initial)) allAvailableIndices
      else allAvailableIndices
  | None => allAvailableIndices
  end.

(** The loop [for (const index of startupOrder)] of [start]: the result
    is [isStarted]. *)
Fixpoint tryAccounts (order : list Z) : M bool :=
  match order with
  | [] => ret false
  | index :: rest =>
      isStarted <- tryCatch (launchOrSwitchContext index ;; ret true)
                     (fun _ => ret false) ;;
      if isStarted then ret true else tryAccounts rest
  end.

(** [ProxyServerSystem.start(initialAuthIndex)], the HTTP and WebSocket
    servers apart. *)
Definition start (initialAuthIndex : option Z) : M unit :=
  allAvailableIndices <- gets availableIndices ;;
  if Nat.eqb (List.length allAvailableIndices) 0 then throw noAuthSourceError
  else
    isStarted <- tryAccounts (startupOrder allAvailableIndices initialAuthIndex) ;;
    if isStarted then ret tt else throw allSourcesFailedError.

(** Every launch of the accounts of [order], the first one being launch
    number [n], throws. *)
Fixpoint allLaunchesFail (oracle : nat -> Z -> option jsstring) (n : nat)
    (order : list Z) : bool :=
  match order with
  | [] => true
  | index :: rest =>
      match oracle n index with
      | Some _ => allLaunchesFail oracle (S n) rest
      | None => false
      end
  end.

(** The world after launches of [calls], [current] being the account of
    the browser context. *)
Definition set_launched (calls : list Z) (current : Z) (w : World) : World :=
  {| rh := rh w; currentAuthIndex := current;
     availableIndices := availableIndices w; launchOracle := launchOracle w;
     launchCalls := calls; switchCalls := switchCalls w;
     connected := connected w; inbox := inbox w; forwarded := forwarded w;
     awaited := awaited w; slept := slept w; res := res w |}.

(* ===================================================================== *)
(** ** The model identifier in the path of a native request *)
(* ===================================================================== *)

(** [decodeURIComponent] and [encodeURIComponent] of the engine; [None]
    stands for the URIError they throw. *)
Record UriCodec := {
  decodeURIComponent : jsstring -> option jsstring;
  encodeURIComponent : jsstring -> option jsstring
}.

Record ModelPathInfo := {
  basePath : jsstring;
  encodedModelSegment : jsstring;
  suffix : jsstring;
  decodedModelId : jsstring
}.

Definition modelPathPrefixes : list jsstring :=
  [lit "/v1beta/models/"; lit "/v1/models/"].

(** [_extractModelPathInfo(path)] on a string; [None] is [null]. *)
Definition _extractModelPathInfo (uri : UriCodec) (cfg : Config)
    (path : jsstring) : option ModelPathInfo :=
  match find (fun prefix => startsWith path prefix) modelPathPrefixes with
  | None => None
  | Some basePath =>
      let remainder := sliceFrom (List.length basePath) path in
      if negb (nonEmpty remainder) then None
      else
        let splitIndex :=
          match indexOf remainder (lit ":") with
          | Some colonIndex => colonIndex
          | None =>
              let startsWithFakePrefix :=
                _isMixStreamingEnabled cfg
                && startsWith remainder fakeStreamPrefix in
              if negb startsWithFakePrefix then
                match indexOf remainder (lit "/") with
                | Some slashIndex => slashIndex
                | None => List.length remainder
                end
              else List.length remainder
          end in
        let encodedSegment := sliceTo splitIndex remainder in
        let suffix := sliceFrom splitIndex remainder in
        if negb (nonEmpty encodedSegment) then None
        else
          let decodedSegment :=
            match decodeURIComponent uri encodedSegment with
            | Some decoded => decoded
            | None => encodedSegment
            end in
          Some {| basePath := basePath;
                  encodedModelSegment := encodedSegment;
                  suffix := suffix;
                  decodedModelId := decodedSegment |}
  end.

(** [_normalizeModelIdentifierInPath(proxyRequest)]: the context
    returned ([None] is [null]) and the path that the proxy request has
    afterwards; the outer [None] is the URIError of
    [encodeURIComponent].  The fields [requestedModel],
    [normalizedModel] and [isFakeStreamModel] that the source adds to the
    proxy request are those of the context. *)
Definition _normalizeModelIdentifierInPath (uri : UriCodec) (cfg : Config)
    (path : jsstring) : option (option ModelContext * jsstring) :=
  if negb (_isMixStreamingEnabled cfg) then Some (None, path)
  else
    match _extractModelPathInfo uri cfg path with
    | None => Some (None, path)
    | Some info =>
        let isFake := _isFakeStreamModelId (decodedModelId info) in
        if isFake then
          let stripped := _stripFakeStreamPrefix (decodedModelId info) in
          if nonEmpty stripped then
            match encodeURIComponent uri stripped with
            | Some encodedNormalized =>
                Some (Some {| requestedModel := decodedModelId info;
                              normalizedModel := stripped;
                              isFake := true |},
                      basePath info ++ encodedNormalized ++ suffix info)
            | None => None
            end
          else
            Some (Some {| requestedModel := decodedModelId info;
                          normalizedModel := decodedModelId info;
                          isFake := true |}, path)
        else
          Some (Some {| requestedModel := decodedModelId info;
                        normalizedModel := decodedModelId info;
                        isFake := false |}, path)
    end.

(** [path.endsWith("/") ? path.slice(0, -1) : path] *)
Definition withoutTrailingSlash (path : jsstring) : jsstring :=
  match rev path with
  | c :: _ => if N.eqb c 47 then removelast path else path
  | [] => path
  end.

(** [_isModelListingPath(path)] on a string. *)
Definition _isModelListingPath (path : jsstring) : bool :=
  let trimmed := withoutTrailingSlash path in
  JS.eqb trimmed (lit "/v1/models") || JS.eqb trimmed (lit "/v1beta/models").

(* ===================================================================== *)
(** ** The API-key middleware of the routes *)
(* ===================================================================== *)

(** What the middleware reads of a request: the three headers and the
    query parameter [key], each a string when present. *)
Record KeyedRequest := {
  xGoogApiKey : option jsstring;      (* req.headers["x-goog-api-key"] *)
  authorization : option jsstring;    (* req.headers.authorization *)
  xApiKey : option jsstring;          (* req.headers["x-api-key"] *)
  queryKey : option jsstring          (* req.query.key *)
}.

Definition present (value : option jsstring) : bool :=
  match value with
  | Some s => nonEmpty s
  | None => false
  end.

(** The [clientKey] that the middleware settles on; [None] is [null]. *)
Definition clientKey (req : KeyedRequest) : option jsstring :=
  if present (xGoogApiKey req) then xGoogApiKey req
  else if present (authorization req)
          && match authorization req with
             | Some value => startsWith value (lit "Bearer ")
             | None => false
             end
  then option_map (sliceFrom 7) (authorization req)
  else if present (xApiKey req) then xApiKey req
  else if present (queryKey req) then queryKey req
  else None.

Inductive Admission :=
| PassedOn (req : KeyedRequest)     (* next() *)
| Denied (status : Z).              (* res.status(401).json(...) *)

(** The middleware made by [_createAuthMiddleware()], for the list
    [config.apiKeys]. *)
Definition authMiddleware (serverApiKeys : list jsstring) (req : KeyedRequest)
  : Admission :=
  if Nat.eqb (List.length serverApiKeys) 0 then PassedOn req
  else if present (clientKey req)
          && match clientKey req with
             | Some key => existsb (JS.eqb key) serverApiKeys
             | None => false
             end
  then PassedOn {| xGoogApiKey := xGoogApiKey req;
                   authorization := authorization req;
                   xApiKey := xApiKey req;
                   queryKey := if present (queryKey req) then None
                               else queryKey req |}
  else Denied 401.

(** A codec for the worked examples: on strings without a percent sign
    decoding changes nothing, and on unreserved ASCII characters
    encoding changes nothing. *)
Definition sampleCodec : UriCodec :=
  {| decodeURIComponent := fun s => Some s;
     encodeURIComponent := fun s => Some s |}.

(** An engine that parses the one document of an example to [value]. *)
Definition engineFor (document : jsstring) (value : json) : Builtins :=
  {| JSON_parse := fun s => if JS.eqb s document then Some value else None;
     numberToString := numberToString sampleEngine;
     typeErrorMessage := typeErrorMessage sampleEngine |}.

(** [status || fallback] for a status that is a number or absent. *)
Definition statusOr (fallback : Z) (status : option Z) : Z :=
  match status with
  | Some s => if Z.eqb s 0 then fallback else s
  | None => fallback
  end.

(** A part of a candidate that carries the text [text] and no inline
    image, whatever else it holds. *)
Definition isTextPart (part : json) (text : jsstring) : Prop :=
  prop "text" part = Some (JStr text)
  /\ truthy (prop "inlineData" part) = false.

(** A part, of any shape but [null], that carries no inline image. *)
Definition hasNoImage (part : json) : Prop :=
  part <> JNull /\ truthy (prop "inlineData" part) = false.

(** A part whose [inlineData] holds the given media type and data. *)
Definition isImagePart (part : json) (mimeType data : jsstring) : Prop :=
  exists image,
    prop "inlineData" part = Some image
    /\ truthy (Some image) = true
    /\ getPropOpt "mimeType" (Some image) = Some (JStr mimeType)
    /\ getPropOpt "data" (Some image) = Some (JStr data).

(** A parsed response whose first candidate is [candidate], the parts of
    its content being [parts]; the response, the candidate and the
    content may hold any further fields. *)
Definition firstCandidateParts (googleResponse candidate : json)
    (parts : list json) : Prop :=
  exists others content,
    prop "candidates" googleResponse = Some (JArr (candidate :: others))
    /\ prop "content" candidate = Some content
    /\ prop "parts" content = Some (JArr parts).

(** A chunk as the upstream sends it, with fields the translator does
    not read, and its parsed form. *)
Definition richDocument : jsstring :=
  lit "{" ++ quoted "candidates" ++ lit ":[{" ++ quoted "content" ++ lit ":{"
  ++ quoted "parts" ++ lit ":[{" ++ quoted "text" ++ lit ":" ++ quoted "Hel"
  ++ lit "},{" ++ quoted "text" ++ lit ":" ++ quoted "lo" ++ lit "}],"
  ++ quoted "role" ++ lit ":" ++ quoted "model" ++ lit "},"
  ++ quoted "finishReason" ++ lit ":" ++ quoted "STOP" ++ lit ","
  ++ quoted "index" ++ lit ":0}],"
  ++ quoted "usageMetadata" ++ lit ":{" ++ quoted "totalTokenCount"
  ++ lit ":7}," ++ quoted "modelVersion" ++ lit ":" ++ quoted "gemini-pro"
  ++ lit "}".

Definition richCandidate : json :=
  JObj [(lit "content",
         JObj [(lit "parts", JArr [JObj [(lit "text", JStr (lit "Hel"))];
                                   JObj [(lit "text", JStr (lit "lo"))]]);
               (lit "role", JStr (lit "model"))]);
        (lit "finishReason", JStr (lit "STOP"));
        (lit "index", JNum 0)].

Definition richValue : json :=
  JObj [(lit "candidates", JArr [richCandidate]);
        (lit "usageMetadata", JObj [(lit "totalTokenCount", JNum 7)]);
        (lit "modelVersion", JStr (lit "gemini-pro"))].

(** A chunk with a text part and an inline image, and its parsed form. *)
Definition imageDocument : jsstring :=
  lit "{" ++ quoted "candidates" ++ lit ":[{" ++ quoted "content" ++ lit ":{"
  ++ quoted "parts" ++ lit ":[{" ++ quoted "text" ++ lit ":"
  ++ quoted "Here it is" ++ lit "},{" ++ quoted "inlineData" ++ lit ":{"
  ++ quoted "mimeType" ++ lit ":" ++ quoted "image/png" ++ lit ","
  ++ quoted "data" ++ lit ":" ++ quoted "iVBORw0KGgo=" ++ lit "}}],"
  ++ quoted "role" ++ lit ":" ++ quoted "model" ++ lit "},"
  ++ quoted "index" ++ lit ":0}]}".

Definition imageCandidate : json :=
  JObj [(lit "content",
         JObj [(lit "parts",
                JArr [JObj [(lit "text", JStr (lit "Here it is"))];
                      JObj [(lit "inlineData",
                             JObj [(lit "mimeType", JStr (lit "image/png"));
                                   (lit "data", JStr (lit "iVBORw0KGgo="))])]]);
               (lit "role", JStr (lit "model"))]);
        (lit "index", JNum 0)].

Definition imageValue : json := JObj [(lit "candidates", JArr [imageCandidate])].



(* ===================================================================== *)
(** * Properties *)
(* ===================================================================== *)

Ltac unfold_js :=
  unfold bind, ret, throw, tryCatch, tryFinally, gets, modify, modifyHandler,
    modifyRes, when in *.

Ltac unfold_world :=
  unfold set_rh, set_res, set_failureCount, set_usageCount, set_locks,
    set_needsSwitching, countSwitchCall, set_queue, set_forwarded,
    set_slept in *.

(** Running a handler by value on a world that is an explicit record: a
    setter is unfolded only after its argument has been computed. *)
Ltac run_js :=
  cbv beta iota zeta delta
    [bind ret throw tryCatch tryFinally gets modify modifyHandler modifyRes
     when dequeue endIfOpen sleep _writeSseChunk _sendErrorChunkToClient
     _forwardRequest awaitFirstMessage
     set_rh set_res set_failureCount set_usageCount set_locks
     set_needsSwitching countSwitchCall set_queue set_forwarded set_slept
     afterAttempts res_write res_end res_status res_flushHeaders
     res_markPseudo res_send
     rh currentAuthIndex availableIndices launchOracle launchCalls
     switchCalls connected inbox forwarded awaited slept res
     failureCount usageCount isAuthSwitching isSystemBusy
     needsSwitchingAfterRequest
     headersSent writableEnded statusCode proxyPseudoStream written
     negb].

(** Only the setters and projections, by value. *)
Ltac norm_world :=
  cbv beta iota zeta delta
    [set_rh set_res set_failureCount set_usageCount set_locks
     set_needsSwitching countSwitchCall set_queue set_forwarded set_slept
     afterAttempts res_write res_end res_status res_flushHeaders
     res_markPseudo res_send
     rh currentAuthIndex availableIndices launchOracle launchCalls
     switchCalls connected inbox forwarded awaited slept res
     failureCount usageCount isAuthSwitching isSystemBusy
     needsSwitchingAfterRequest
     headersSent writableEnded statusCode proxyPseudoStream written].

Section RotationFacts.

Lemma indexOfZ_None (x : Z) (l : list Z) :
  indexOfZ x l = None <-> ~ In x l.
Proof.
  induction l as [|y l IH]; simpl.
  - tauto.
  - destruct (Z.eqb_spec y x) as [->|Hne].
    + split; [discriminate | intros H; exfalso; apply H; now left].
    + destruct (indexOfZ x l); simpl.
      * split; [discriminate|]. intros H. exfalso.
        assert (Hin : ~ In x l) by tauto.
        apply IH in Hin. discriminate.
      * split; [|reflexivity]. intros _ [H|H]; [congruence|].
        now apply IH.
Qed.

Lemma indexOfZ_Some_lt (x : Z) (l : list Z) (i : nat) :
  indexOfZ x l = Some i -> (i < List.length l)%nat.
Proof.
  revert i. induction l as [|y l IH]; simpl; intros i H.
  - discriminate.
  - destruct (Z.eqb y x).
    + inversion H. lia.
    + destruct (indexOfZ x l); simpl in H; [|discriminate].
      inversion H. specialize (IH _ eq_refl). lia.
Qed.

(** [_getNextAuthIndex] is [null] only on an empty list. *)
Lemma getNextAuthIndex_None (w : World) :
  _getNextAuthIndex w = None <-> availableIndices w = [].
Proof.
  unfold _getNextAuthIndex.
  destruct (availableIndices w) as [|a l] eqn:E.
  - simpl. tauto.
  - split; [|discriminate].
    change (Nat.eqb (List.length (a :: l)) 0) with false. cbv iota.
    destruct (indexOfZ (currentAuthIndex w) (a :: l)) as [i|] eqn:Ei.
    + intros H. apply nth_error_None in H.
      pose proof (Nat.mod_upper_bound (i + 1) (List.length (a :: l))) as Hb.
      cbn [List.length] in *. lia.
    + cbn. discriminate.
Qed.

Lemma switchToNextAuth_counts (w : World) :
  switchCalls (snd (_switchToNextAuth w)) = S (switchCalls w).
Proof.
  unfold _switchToNextAuth, resetCounters, switchAccount, launchOrSwitchContext.
  unfold_js. simpl.
  destruct (List.length (availableIndices w) <=? 1)%nat; simpl; [reflexivity|].
  destruct (isAuthSwitching (rh w)); simpl; [reflexivity|].
  destruct (_getNextAuthIndex _) as [next|]; simpl.
  - destruct (launchOracle w _ next); simpl; [|reflexivity].
    destruct (launchOracle w _ _); reflexivity.
  - destruct (launchOracle w _ _); reflexivity.
Qed.

Lemma sendErrorChunk_keeps (t : NoticeText) (w : World) :
  exists r, _sendErrorChunkToClient t w = (Normal tt, set_res r w).
Proof.
  unfold _sendErrorChunkToClient, _writeSseChunk. unfold_js. simpl.
  destruct (writableEnded (res w)) eqn:E; simpl.
  - exists (res w). destruct w; reflexivity.
  - rewrite E. eexists. reflexivity.
Qed.

End RotationFacts.

Section FailureEntry.

Variable cfg : Config.

Lemma isImmediateSwitch_In (e : Message) :
  isImmediateSwitch cfg e = true <->
  exists s, msgStatus e = Some s /\ In s (immediateSwitchStatusCodes cfg).
Proof.
  unfold isImmediateSwitch. destruct (msgStatus e) as [s|].
  - rewrite existsb_exists. split.
    + intros [x [Hin Heq]]. apply Z.eqb_eq in Heq. subst x. now exists s.
    + intros [s' [Hs Hin]]. inversion Hs; subst s'.
      exists s. split; [assumption | apply Z.eqb_refl].
  - split; [discriminate | intros [s [Hs _]]; discriminate].
Qed.

Lemma isThresholdReached_spec (count : Z) :
  isThresholdReached cfg count = true <->
  0 < failureThreshold cfg /\ failureThreshold cfg <= count.
Proof.
  unfold isThresholdReached.
  rewrite andb_true_iff, Z.ltb_lt, Z.leb_le. tauto.
Qed.

Lemma sendWhen_keeps (b : bool) (t : NoticeText) (w : World) :
  exists r, when b (_sendErrorChunkToClient t) w = (Normal tt, set_res r w).
Proof.
  destruct b; simpl.
  - apply sendErrorChunk_keeps.
  - exists (res w). destruct w; reflexivity.
Qed.

(** Number of calls of [_switchToNextAuth] made by the failure handler. *)
Lemma handleFailure_switchCalls (e : Message) (withRes : bool) (w : World) :
  switchCalls (snd (_handleRequestFailureAndSwitch cfg e withRes w)) =
  if isImmediateSwitch cfg e || isThresholdReached cfg (countedFailures cfg w)
  then S (switchCalls w) else switchCalls w.
Proof.
  unfold _handleRequestFailureAndSwitch, countedFailures.
  set (w1 := snd (when (0 <? failureThreshold cfg)
                   (modifyHandler (fun h => set_failureCount (failureCount h + 1) h)) w)).
  assert (Hw1 : when (0 <? failureThreshold cfg)
                   (modifyHandler (fun h => set_failureCount (failureCount h + 1) h)) w
                = (Normal tt, w1)).
  { subst w1. destruct (0 <? failureThreshold cfg); reflexivity. }
  assert (Hc : failureCount (rh w1) =
               failureCount (rh w) + (if 0 <? failureThreshold cfg then 1 else 0)).
  { subst w1. destruct (0 <? failureThreshold cfg); simpl; lia. }
  assert (Hs : switchCalls w1 = switchCalls w).
  { subst w1. destruct (0 <? failureThreshold cfg); reflexivity. }
  unfold bind at 1. rewrite Hw1.
  unfold bind at 1. unfold gets at 1. rewrite Hc.
  destruct (isImmediateSwitch cfg e || isThresholdReached cfg _).
  - unfold tryCatch. unfold bind at 1.
    pose proof (switchToNextAuth_counts w1) as Hn.
    destruct (_switchToNextAuth w1) as [[r|err|] w2]; simpl in Hn;
      [| |simpl; congruence].
    + unfold bind at 1. unfold gets at 1.
      destruct (sendWhen_keeps withRes (TxtSwitchedBack (currentAuthIndex w2)) w2)
        as [r' ->].
      simpl. congruence.
    + rewrite <- Hs, <- Hn.
      destruct (includes err (lit "Only one account is available")).
      * unfold bind at 1. unfold bind at 1. unfold modifyHandler, modify, ret.
        destruct (sendWhen_keeps withRes TxtOnlyOneAccount
                    (set_rh (set_failureCount 0 (rh w2)) w2)) as [r' ->].
        reflexivity.
      * destruct (includes err fallbackReasonWord).
        { unfold bind at 1. unfold ret.
          destruct (sendWhen_keeps withRes TxtSwitchAndFallbackFailed w2)
            as [r' ->]. reflexivity. }
        destruct (includes err switchToAccountWord).
        { unfold bind at 1. unfold bind at 1. unfold gets, ret.
          destruct (sendWhen_keeps withRes (TxtFellBack (currentAuthIndex w2)) w2)
            as [r' ->]. reflexivity. }
        unfold bind at 1. unfold ret.
        destruct (sendWhen_keeps withRes (TxtUnknownSwitchError err) w2)
          as [r' ->]. reflexivity.
  - simpl. exact Hs.
Qed.

(** C2 (amended): a failure starts a rotation attempt exactly when its
    status is in the immediate-switch set, or [failureThreshold] is
    positive and the failure counter, which has counted this failure, has
    reached it; a status of the immediate-switch set starts one whatever
    the counter and the threshold are. *)
Theorem failure_starts_rotation_iff (e : Message) (withRes : bool) (w : World) :
  let w' := snd (_handleRequestFailureAndSwitch cfg e withRes w) in
  (switchCalls w' = S (switchCalls w) <->
     (exists s, msgStatus e = Some s /\ In s (immediateSwitchStatusCodes cfg))
     \/ (0 < failureThreshold cfg
         /\ failureThreshold cfg <= countedFailures cfg w))
  /\ (switchCalls w' <> S (switchCalls w) -> switchCalls w' = switchCalls w)
  /\ ((exists s, msgStatus e = Some s /\ In s (immediateSwitchStatusCodes cfg))
      -> switchCalls w' = S (switchCalls w)).
Proof.
  cbv zeta. rewrite handleFailure_switchCalls.
  rewrite <- isImmediateSwitch_In, <- isThresholdReached_spec.
  destruct (isImmediateSwitch cfg e); simpl.
  - repeat split; auto. intros H; congruence.
  - destruct (isThresholdReached cfg (countedFailures cfg w)).
    + repeat split; auto; try discriminate. intros H; congruence.
    + repeat split; auto; try discriminate.
      * intros H. lia.
      * intros [H|H]; discriminate.
Qed.

End FailureEntry.

(** C2, as stated, fails when counting is disabled: with
    [failureThreshold = 0] the counter (0) has reached the threshold (0),
    and a failure whose status is outside the immediate-switch set starts
    no rotation. *)
Lemma failure_starts_rotation_counterexample :
  let cfg := {| streamingMode := ModeReal; failureThreshold := 0;
                switchOnUses := 40; maxRetries := 1; retryDelay := 2000;
                immediateSwitchStatusCodes := [429; 503] |} in
  let w := initialWorld 1 [1; 2] (fun _ _ => None) [] in
  let e := MsgError (Some 500) (Some (lit "Internal error")) in
  specEntryCondition cfg w e
  /\ switchCalls (snd (_handleRequestFailureAndSwitch cfg e true w))
     = switchCalls w.
Proof.
  cbv zeta. split.
  - right. vm_compute. discriminate.
  - vm_compute. reflexivity.
Qed.

Lemma failure_starts_rotation_iff_witness :
  let cfg := {| streamingMode := ModeReal; failureThreshold := 3;
                switchOnUses := 40; maxRetries := 1; retryDelay := 2000;
                immediateSwitchStatusCodes := [429; 503] |} in
  let w := initialWorld 1 [1; 2] (fun _ _ => None) [] in
  let e := MsgError (Some 429) (Some (lit "Too Many Requests")) in
  switchCalls (snd (_handleRequestFailureAndSwitch cfg e true w))
  = S (switchCalls w).
Proof.
  cbv zeta.
  apply (failure_starts_rotation_iff
           {| streamingMode := ModeReal; failureThreshold := 3;
              switchOnUses := 40; maxRetries := 1; retryDelay := 2000;
              immediateSwitchStatusCodes := [429; 503] |}
           (MsgError (Some 429) (Some (lit "Too Many Requests"))) true
           (initialWorld 1 [1; 2] (fun _ _ => None) [])).
  exists 429. split; [reflexivity | simpl; auto].
Defined.

(** C10: when the current account index is not in the list of usable
    indices, the next rotation target is the first usable index; the
    result is [null] only when the list is empty. *)
Theorem getNextAuthIndex_current_missing (w : World) :
  ~ In (currentAuthIndex w) (availableIndices w) ->
  _getNextAuthIndex w = hd_error (availableIndices w)
  /\ (_getNextAuthIndex w = None <-> availableIndices w = [])
  /\ (availableIndices w <> [] ->
      exists first, _getNextAuthIndex w = Some first
                    /\ hd_error (availableIndices w) = Some first).
Proof.
  intros Hnot.
  assert (H1 : _getNextAuthIndex w = hd_error (availableIndices w)).
  { unfold _getNextAuthIndex. apply indexOfZ_None in Hnot. rewrite Hnot.
    destruct (availableIndices w); reflexivity. }
  split; [exact H1|]. split; [apply getNextAuthIndex_None|].
  intros Hne. rewrite H1.
  destruct (availableIndices w) as [|a l]; [congruence|].
  exists a. split; reflexivity.
Qed.

Lemma getNextAuthIndex_current_missing_witness :
  let w := initialWorld 7 [2; 4; 9] (fun _ _ => None) [] in
  ~ In (currentAuthIndex w) (availableIndices w)
  /\ _getNextAuthIndex w = Some 2.
Proof.
  cbv zeta.
  assert (H : ~ In (currentAuthIndex (initialWorld 7 [2; 4; 9] (fun _ _ => None) []))
                (availableIndices (initialWorld 7 [2; 4; 9] (fun _ _ => None) []))).
  { simpl. intros [H|[H|[H|[]]]]; discriminate. }
  split; [exact H|].
  exact (proj1 (getNextAuthIndex_current_missing
                  (initialWorld 7 [2; 4; 9] (fun _ _ => None) []) H)).
Defined.

Section SwitchFacts.

(** C3: when the move to the next account fails and the move back to the
    previous account succeeds, [_switchToNextAuth] returns
    [{success: false, fallback: true}], the current account index is the
    one from before the rotation, both counters are 0 and both locks are
    released. *)
Theorem switch_failed_fallback_succeeded
    (w : World) (next : Z) (err : jsstring) :
  (2 <= List.length (availableIndices w))%nat ->
  isAuthSwitching (rh w) = false ->
  _getNextAuthIndex w = Some next ->
  launchOracle w (List.length (launchCalls w)) next = Some err ->
  launchOracle w (S (List.length (launchCalls w))) (currentAuthIndex w) = None ->
  exists w',
    _switchToNextAuth w = (Normal (SwitchFallback (currentAuthIndex w)), w')
    /\ currentAuthIndex w' = currentAuthIndex w
    /\ failureCount (rh w') = 0
    /\ usageCount (rh w') = 0
    /\ isAuthSwitching (rh w') = false
    /\ isSystemBusy (rh w') = false
    /\ launchCalls w' = launchCalls w ++ [next; currentAuthIndex w].
Proof.
  intros Hlen Hsw Hnext Hfail Hback.
  destruct w as [h cur av orc lc sc con inb fw aw sl rs].
  destruct h as [fc uc sw busy needs].
  cbn [rh currentAuthIndex availableIndices launchOracle launchCalls
       isAuthSwitching] in *.
  subst sw.
  unfold _switchToNextAuth, resetCounters, switchAccount, launchOrSwitchContext.
  unfold_js. unfold_world. cbn.
  destruct (List.length av <=? 1)%nat eqn:E.
  { apply Nat.leb_le in E. lia. }
  unfold _getNextAuthIndex in *. cbn in *. rewrite Hnext. cbn.
  rewrite Hfail. cbn.
  rewrite length_app. cbn. rewrite Nat.add_1_r. rewrite Hback. cbn.
  eexists. split; [reflexivity|]. cbn.
  repeat split; auto. rewrite <- app_assoc. reflexivity.
Qed.

End SwitchFacts.

Lemma switch_failed_fallback_succeeded_witness :
  let oracle := fun (n : nat) (_ : Z) =>
                  match n with O => Some (lit "page crashed") | _ => None end in
  let w := initialWorld 1 [1; 2] oracle [] in
  exists w',
    _switchToNextAuth w = (Normal (SwitchFallback 1), w')
    /\ currentAuthIndex w' = 1.
Proof.
  cbv zeta.
  destruct (switch_failed_fallback_succeeded
              (initialWorld 1 [1; 2]
                 (fun (n : nat) (_ : Z) =>
                    match n with O => Some (lit "page crashed") | _ => None end) [])
              2 (lit "page crashed"))
    as [w' [H1 [H2 _]]].
  - simpl. lia.
  - reflexivity.
  - reflexivity.
  - reflexivity.
  - reflexivity.
  - exists w'. split; [exact H1 | exact H2].
Defined.

Section OneAccount.

Variable cfg : Config.

Lemma switch_with_one_account (w : World) :
  (List.length (availableIndices w) <= 1)%nat ->
  _switchToNextAuth w = (Throw onlyOneAccountError, countSwitchCall w).
Proof.
  intros H. unfold _switchToNextAuth. unfold_js. cbn.
  apply Nat.leb_le in H. rewrite H. reflexivity.
Qed.

(** C6 (amended): with fewer than two usable accounts
    [_switchToNextAuth] throws the only-one-account error without
    touching the handler or the browser.  The failure handler that
    attempted the rotation ends normally with the current account index
    unchanged and [failureCount] at 0; the client, when a response was
    passed and is still open, gets the only-one-account notice.  The
    rotation attempted at the end of a request, for the usage count,
    ends normally too (the error is only logged), with the current
    account index unchanged and [failureCount] as it was. *)
Theorem rotation_with_one_account (e : Message) (withRes : bool) (w : World) :
  (List.length (availableIndices w) <= 1)%nat ->
  (exists w1, _switchToNextAuth w = (Throw onlyOneAccountError, w1)
              /\ rh w1 = rh w
              /\ currentAuthIndex w1 = currentAuthIndex w
              /\ launchCalls w1 = launchCalls w)
  /\ (isImmediateSwitch cfg e
        || isThresholdReached cfg (countedFailures cfg w) = true ->
      exists w',
        _handleRequestFailureAndSwitch cfg e withRes w = (Normal tt, w')
        /\ currentAuthIndex w' = currentAuthIndex w
        /\ failureCount (rh w') = 0
        /\ usageCount (rh w') = usageCount (rh w)
        /\ isAuthSwitching (rh w') = isAuthSwitching (rh w)
        /\ launchCalls w' = launchCalls w
        /\ written (res w') =
           written (res w) ++
           (if withRes && negb (writableEnded (res w))
            then [EvProxyError TxtOnlyOneAccount] else []))
  /\ (needsSwitchingAfterRequest (rh w) = true ->
      exists w',
        rotateAfterRequest w = (Normal tt, w')
        /\ switchCalls w' = S (switchCalls w)
        /\ currentAuthIndex w' = currentAuthIndex w
        /\ failureCount (rh w') = failureCount (rh w)
        /\ usageCount (rh w') = usageCount (rh w)
        /\ needsSwitchingAfterRequest (rh w') = false
        /\ launchCalls w' = launchCalls w
        /\ res w' = res w).
Proof.
  intros Hone. split; [|split].
  - exists (countSwitchCall w). split; [now apply switch_with_one_account|].
    repeat split; reflexivity.
  - intros Hentry. unfold _handleRequestFailureAndSwitch.
    set (w1 := snd (when (0 <? failureThreshold cfg)
                     (modifyHandler (fun h => set_failureCount (failureCount h + 1) h)) w)).
    assert (Hw1 : when (0 <? failureThreshold cfg)
                     (modifyHandler (fun h => set_failureCount (failureCount h + 1) h)) w
                  = (Normal tt, w1)).
    { subst w1. destruct (0 <? failureThreshold cfg); reflexivity. }
    assert (Hc : failureCount (rh w1) = countedFailures cfg w).
    { subst w1. unfold countedFailures.
      destruct (0 <? failureThreshold cfg); simpl; lia. }
    assert (Hsame : currentAuthIndex w1 = currentAuthIndex w
                    /\ availableIndices w1 = availableIndices w
                    /\ launchCalls w1 = launchCalls w
                    /\ res w1 = res w
                    /\ usageCount (rh w1) = usageCount (rh w)
                    /\ isAuthSwitching (rh w1) = isAuthSwitching (rh w)).
    { subst w1. destruct (0 <? failureThreshold cfg); repeat split. }
    destruct Hsame as (Hcur & Hav & Hlc & Hres & Huc & Hsw).
    unfold bind at 1. rewrite Hw1.
    unfold bind at 1. unfold gets at 1. rewrite Hc, Hentry.
    unfold tryCatch. unfold bind at 1.
    rewrite switch_with_one_account by (rewrite Hav; exact Hone).
    replace (includes onlyOneAccountError (lit "Only one account is available"))
      with true by (vm_compute; reflexivity).
    unfold bind at 1. unfold bind at 1. unfold modifyHandler, modify, ret.
    destruct withRes; cbn [when andb].
    + unfold _sendErrorChunkToClient, _writeSseChunk. unfold_js. cbn.
      rewrite Hres.
      destruct (writableEnded (res w)) eqn:Eend; cbn.
      * eexists. split; [reflexivity|]. cbn.
        rewrite Hres, Hcur, Hlc, Huc, Hsw, app_nil_r. repeat split.
      * rewrite Hres, Eend. eexists. split; [reflexivity|]. cbn.
        rewrite Hres, Hcur, Hlc, Huc, Hsw. repeat split.
    + eexists. split; [reflexivity|]. cbn.
      rewrite Hres, Hcur, Hlc, Huc, Hsw, app_nil_r. repeat split.
  - intros Hneeds. unfold rotateAfterRequest.
    unfold bind at 1. unfold gets at 1. rewrite Hneeds. cbn [when].
    unfold bind at 1. unfold tryCatch. unfold bind at 1.
    rewrite switch_with_one_account by exact Hone.
    unfold ret, modifyHandler, modify.
    eexists. split; [reflexivity|].
    destruct w as [h cur av orc lc sc con inb fw aw sl rs].
    destruct h as [fc uc sw busy needs]. cbn. repeat split; reflexivity.
Qed.

End OneAccount.

Lemma rotation_with_one_account_witness :
  let cfg := {| streamingMode := ModeReal; failureThreshold := 3;
                switchOnUses := 40; maxRetries := 1; retryDelay := 2000;
                immediateSwitchStatusCodes := [429; 503] |} in
  let w := set_rh (set_needsSwitching true (set_failureCount 2 newHandler))
             (initialWorld 4 [4] (fun _ _ => None) []) in
  let e := MsgError (Some 500) (Some (lit "Internal error")) in
  (exists w',
      _handleRequestFailureAndSwitch cfg e true w = (Normal tt, w')
      /\ currentAuthIndex w' = 4
      /\ failureCount (rh w') = 0)
  /\ (exists w',
         rotateAfterRequest w = (Normal tt, w')
         /\ currentAuthIndex w' = 4
         /\ failureCount (rh w') = 2).
Proof.
  cbv zeta.
  destruct (rotation_with_one_account
              {| streamingMode := ModeReal; failureThreshold := 3;
                 switchOnUses := 40; maxRetries := 1; retryDelay := 2000;
                 immediateSwitchStatusCodes := [429; 503] |}
              (MsgError (Some 500) (Some (lit "Internal error"))) true
              (set_rh (set_needsSwitching true (set_failureCount 2 newHandler))
                 (initialWorld 4 [4] (fun _ _ => None) [])))
    as (_ & Hfail & Huse).
  - simpl. lia.
  - split.
    + destruct (Hfail eq_refl) as (w' & H1 & H2 & H3 & _).
      exists w'. repeat split; assumption.
    + destruct (Huse eq_refl) as (w' & H1 & _ & H3 & H4 & _).
      exists w'. repeat split; assumption.
Defined.

(** C6, as stated, fails for the rotation that a request starts at its
    end for the usage count: with one usable account and
    [switchOnUses = 1], an OpenAI real stream whose first message is a
    success (the use that asks for the rotation) and whose next message
    is an error below the failure threshold leaves [failureCount] at 1;
    the rotation attempted at the end of the request throws the
    only-one-account error, and [failureCount] is still 1 afterwards. *)
Lemma rotation_with_one_account_counterexample :
  let cfg := {| streamingMode := ModeReal; failureThreshold := 3;
                switchOnUses := 1; maxRetries := 1; retryDelay := 2000;
                immediateSwitchStatusCodes := [429; 503] |} in
  let w := initialWorld 4 [4] (fun _ _ => None)
             [Arrives (MsgHeaders (Some 200));
              Arrives (MsgError (Some 500) (Some (lit "Internal error")))] in
  let w1 := snd (_handleOpenAIRealStreamResponse sampleEngine cfg
                   sampleRealRequest w) in
  let w2 := snd (rotateAfterRequest w1) in
  (List.length (availableIndices w1) < 2)%nat
  /\ needsSwitchingAfterRequest (rh w1) = true
  /\ failureCount (rh w1) = 1
  /\ fst (_switchToNextAuth w1) = Throw onlyOneAccountError
  /\ fst (rotateAfterRequest w1) = Normal tt
  /\ switchCalls w2 = S (switchCalls w1)
  /\ currentAuthIndex w2 = 4
  /\ failureCount (rh w2) = 1
  /\ failureCount (rh w2) <> 0.
Proof.
  cbv zeta. vm_compute.
  split; [lia|]. repeat (split; [reflexivity|]). discriminate.
Qed.


(** ** What rotation leaves alone *)

Lemma switchToNextAuth_frame (w : World) :
  exists r w',
    _switchToNextAuth w = (r, w')
    /\ r <> Unfinished
    /\ sameTraffic w w' /\ res w' = res w
    /\ availableIndices w' = availableIndices w.
Proof.
  destruct w as [h cur av orc lc sc con inb fw aw sl rs].
  destruct h as [fc uc sw busy needs].
  unfold _switchToNextAuth, resetCounters, switchAccount, launchOrSwitchContext.
  unfold_js. unfold_world. cbn.
  assert (Hdone : forall (r : Completion SwitchResult) (w' : World),
             r <> Unfinished ->
             sameTraffic
               {| rh := {| failureCount := fc; usageCount := uc;
                           isAuthSwitching := sw; isSystemBusy := busy;
                           needsSwitchingAfterRequest := needs |};
                  currentAuthIndex := cur; availableIndices := av;
                  launchOracle := orc; launchCalls := lc; switchCalls := sc;
                  connected := con; inbox := inb; forwarded := fw;
                  awaited := aw; slept := sl; res := rs |} w' ->
             res w' = rs -> availableIndices w' = av ->
             exists r0 w0,
               (r, w') = (r0, w0) /\ r0 <> Unfinished
               /\ sameTraffic
                    {| rh := {| failureCount := fc; usageCount := uc;
                                isAuthSwitching := sw; isSystemBusy := busy;
                                needsSwitchingAfterRequest := needs |};
                       currentAuthIndex := cur; availableIndices := av;
                       launchOracle := orc; launchCalls := lc;
                       switchCalls := sc; connected := con; inbox := inb;
                       forwarded := fw; awaited := aw; slept := sl;
                       res := rs |} w0
               /\ res w0 = rs /\ availableIndices w0 = av).
  { intros r w' H1 H2 H3 H4. exists r, w'. auto. }
  destruct (List.length av <=? 1)%nat.
  { apply Hdone; [discriminate | unfold sameTraffic; cbn; auto | | ]; reflexivity. }
  destruct sw; cbn.
  { apply Hdone; [discriminate | unfold sameTraffic; cbn; auto | | ]; reflexivity. }
  destruct (_getNextAuthIndex _) as [next|]; cbn.
  - destruct (orc (List.length lc) next); cbn.
    + destruct (orc _ cur); cbn;
        (apply Hdone; [discriminate | unfold sameTraffic; cbn; auto | | ]; reflexivity).
    + apply Hdone; [discriminate | unfold sameTraffic; cbn; auto | | ]; reflexivity.
  - destruct (orc _ cur); cbn;
      (apply Hdone; [discriminate | unfold sameTraffic; cbn; auto | | ]; reflexivity).
Qed.

Lemma onlyNoticesAdded_refl (r : Response) : onlyNoticesAdded r r.
Proof.
  unfold onlyNoticesAdded. repeat split; auto.
  exists []. rewrite app_nil_r. split; [reflexivity | constructor].
Qed.

Lemma sendWhen_frame (b : bool) (t : NoticeText) (w : World) :
  exists r, when b (_sendErrorChunkToClient t) w = (Normal tt, set_res r w)
            /\ onlyNoticesAdded (res w) r.
Proof.
  destruct b; cbn.
  - unfold _sendErrorChunkToClient, _writeSseChunk. unfold_js. cbn.
    destruct (writableEnded (res w)) eqn:E; cbn.
    + exists (res w). split; [destruct w; reflexivity|].
      apply onlyNoticesAdded_refl.
    + rewrite E. eexists. split; [reflexivity|].
      unfold onlyNoticesAdded. cbn. repeat split; auto.
      eexists. split; [reflexivity|].
      constructor; [eexists; reflexivity | constructor].
  - exists (res w). split; [destruct w; reflexivity|].
    apply onlyNoticesAdded_refl.
Qed.

Section FailureFrame.

Variable cfg : Config.

(** The failure handler always returns; it only touches the handler
    fields, the browser and, through notices, the response. *)
Lemma handleFailure_frame (e : Message) (withRes : bool) (w : World) :
  exists w',
    _handleRequestFailureAndSwitch cfg e withRes w = (Normal tt, w')
    /\ sameTraffic w w'
    /\ onlyNoticesAdded (res w) (res w')
    /\ availableIndices w' = availableIndices w.
Proof.
  unfold _handleRequestFailureAndSwitch.
  set (w1 := snd (when (0 <? failureThreshold cfg)
                   (modifyHandler (fun h => set_failureCount (failureCount h + 1) h)) w)).
  assert (Hw1 : when (0 <? failureThreshold cfg)
                   (modifyHandler (fun h => set_failureCount (failureCount h + 1) h)) w
                = (Normal tt, w1)).
  { subst w1. destruct (0 <? failureThreshold cfg); reflexivity. }
  assert (Hsame : sameTraffic w w1 /\ res w1 = res w
                  /\ availableIndices w1 = availableIndices w).
  { subst w1. unfold sameTraffic.
    destruct (0 <? failureThreshold cfg); cbn; auto 10. }
  destruct Hsame as ((Hf & Hi & Ha & Hsl & Hc) & Hres & Hav).
  unfold bind at 1. rewrite Hw1.
  unfold bind at 1. unfold gets at 1. cbv iota beta.
  destruct (isImmediateSwitch cfg e || isThresholdReached cfg _).
  2:{ exists w1. split; [reflexivity|]. unfold sameTraffic.
      rewrite Hres. repeat split; auto. apply onlyNoticesAdded_refl. }
  unfold tryCatch. unfold bind at 1.
  destruct (switchToNextAuth_frame w1)
    as (r & w2 & Hrun & Hfin & (Hf2 & Hi2 & Ha2 & Hsl2 & Hc2) & Hres2 & Hav2).
  rewrite Hrun.
  assert (Hdone : forall (t : NoticeText) (w3 : World),
             sameTraffic w2 w3 -> res w3 = res w2 ->
             availableIndices w3 = availableIndices w2 ->
             exists w',
               when withRes (_sendErrorChunkToClient t) w3 = (Normal tt, w')
               /\ sameTraffic w w'
               /\ onlyNoticesAdded (res w) (res w')
               /\ availableIndices w' = availableIndices w).
  { intros t w3 (Hf3 & Hi3 & Ha3 & Hsl3 & Hc3) Hres3 Hav3.
    destruct (sendWhen_frame withRes t w3) as (r' & Hsend & Hadd).
    exists (set_res r' w3). split; [exact Hsend|].
    unfold sameTraffic. cbn.
    rewrite Hf3, Hi3, Ha3, Hsl3, Hc3, Hf2, Hi2, Ha2, Hsl2, Hc2, Hav3, Hav2.
    rewrite Hres3, Hres2, Hres in Hadd. auto 10. }
  assert (Hrefl : sameTraffic w2 w2) by (unfold sameTraffic; auto).
  destruct r as [r|err|]; [| |congruence].
  - unfold bind at 1. unfold gets at 1. cbv iota beta.
    destruct (Hdone (TxtSwitchedBack (currentAuthIndex w2)) w2 Hrefl eq_refl eq_refl)
      as (w' & Hsend & Hrest).
    rewrite Hsend. exists w'. split; [reflexivity | exact Hrest].
  - destruct (includes err (lit "Only one account is available")).
    + unfold bind at 1. unfold bind at 1. unfold modifyHandler, modify, ret.
      cbv iota beta. apply Hdone; unfold sameTraffic; cbn; auto.
    + destruct (includes err fallbackReasonWord).
      { unfold bind at 1. unfold ret. cbv iota beta. apply Hdone; auto. }
      destruct (includes err switchToAccountWord).
      { unfold bind at 1. unfold bind at 1. unfold gets, ret. cbv iota beta.
        apply Hdone; auto. }
      unfold bind at 1. unfold ret. cbv iota beta. apply Hdone; auto.
Qed.

(** Called without a response, the failure handler writes nothing. *)
Lemma handleFailure_null_res (e : Message) (w : World) :
  exists w',
    _handleRequestFailureAndSwitch cfg e false w = (Normal tt, w')
    /\ sameTraffic w w'
    /\ res w' = res w.
Proof.
  unfold _handleRequestFailureAndSwitch.
  set (w1 := snd (when (0 <? failureThreshold cfg)
                   (modifyHandler (fun h => set_failureCount (failureCount h + 1) h)) w)).
  assert (Hw1 : when (0 <? failureThreshold cfg)
                   (modifyHandler (fun h => set_failureCount (failureCount h + 1) h)) w
                = (Normal tt, w1)).
  { subst w1. destruct (0 <? failureThreshold cfg); reflexivity. }
  assert (Hsame : sameTraffic w w1 /\ res w1 = res w).
  { subst w1. unfold sameTraffic.
    destruct (0 <? failureThreshold cfg); cbn; auto 10. }
  destruct Hsame as ((Hf & Hi & Ha & Hsl & Hc) & Hres).
  unfold bind at 1. rewrite Hw1.
  unfold bind at 1. unfold gets at 1. cbv iota beta.
  destruct (isImmediateSwitch cfg e || isThresholdReached cfg _).
  2:{ exists w1. split; [reflexivity|]. unfold sameTraffic. auto 10. }
  unfold tryCatch. unfold bind at 1.
  destruct (switchToNextAuth_frame w1)
    as (r & w2 & Hrun & Hfin & (Hf2 & Hi2 & Ha2 & Hsl2 & Hc2) & Hres2 & Hav2).
  rewrite Hrun.
  assert (Hdone : forall w3 : World,
             sameTraffic w2 w3 -> res w3 = res w2 ->
             sameTraffic w w3 /\ res w3 = res w).
  { intros w3 (Hf3 & Hi3 & Ha3 & Hsl3 & Hc3) Hres3. unfold sameTraffic.
    rewrite Hf3, Hi3, Ha3, Hsl3, Hc3, Hf2, Hi2, Ha2, Hsl2, Hc2.
    rewrite Hres3, Hres2, Hres. auto 10. }
  assert (Hrefl : sameTraffic w2 w2) by (unfold sameTraffic; auto).
  destruct r as [r|err|]; [| |congruence].
  - unfold bind at 1. unfold gets at 1. cbv iota beta. unfold when, ret.
    exists w2. split; [reflexivity|]. now apply Hdone.
  - destruct (includes err (lit "Only one account is available")).
    + unfold bind at 1. unfold bind at 1. unfold modifyHandler, modify, ret, when.
      cbv iota beta. eexists. split; [reflexivity|].
      apply Hdone; unfold sameTraffic; cbn; auto.
    + destruct (includes err fallbackReasonWord).
      { unfold bind at 1. unfold ret, when. cbv iota beta.
        exists w2. split; [reflexivity|]. now apply Hdone. }
      destruct (includes err switchToAccountWord).
      { unfold bind at 1. unfold bind at 1. unfold gets, ret, when. cbv iota beta.
        exists w2. split; [reflexivity|]. now apply Hdone. }
      unfold bind at 1. unfold ret, when. cbv iota beta.
      exists w2. split; [reflexivity|]. now apply Hdone.
Qed.

End FailureFrame.

(* ===================================================================== *)
(** ** The retry loop *)
(* ===================================================================== *)

Section RetryLoop.

Variable cfg : Config.
Variable p : ProxyRequest.


(** Every attempt of the rounds left fails: the loop ends with
    [requestFailed] and the error of the last attempt. *)
Lemma retryLoop_fails (fails : list Arrival) :
  forall (a : Arrival) (rest : list Arrival) (rounds : nat) (attempt : Z)
         (last : option Message) (w : World),
    connected w = true ->
    inbox w = fails ++ a :: rest ->
    forallb failsAttempt fails = true ->
    failsAttempt a = true ->
    rounds = S (List.length fails) ->
    attempt + Z.of_nat rounds = maxRetries cfg + 1 ->
    retryLoop cfg p rounds attempt last w =
    (Normal (RequestFailed (attemptMessage a)),
     afterAttempts p (retryDelay cfg) (S (List.length fails))
       (List.length fails) rest w).
Proof.
  induction fails as [|b fails IH]; intros a rest rounds attempt last w
    Hcon Hin Hall Ha Hlen Hsum; subst rounds.
  - cbn [retryLoop List.length].
    assert (Hle : (attempt <=? maxRetries cfg) = true)
      by (apply Z.leb_le; cbn in Hsum; lia).
    assert (Hlt : (attempt <? maxRetries cfg) = false).
    { apply Z.ltb_ge. cbn in Hsum. lia. }
    rewrite Hle.
    destruct w as [h cur av orc lc sc con inb fw aw sl rs].
    cbn in Hcon, Hin. subst con inb.
    unfold _forwardRequest, awaitFirstMessage. unfold_js. unfold_world.
    destruct a as [e|]; cbn in Ha |- *.
    + rewrite Ha, Hlt. unfold afterAttempts. cbn. rewrite app_nil_r. reflexivity.
    + rewrite Hlt. unfold afterAttempts. cbn. rewrite app_nil_r. reflexivity.
  - cbn [retryLoop].
    assert (Hle : (attempt <=? maxRetries cfg) = true).
    { apply Z.leb_le. cbn [List.length] in Hsum. lia. }
    assert (Hlt : (attempt <? maxRetries cfg) = true).
    { apply Z.ltb_lt. cbn [List.length] in Hsum. lia. }
    rewrite Hle.
    cbn [forallb] in Hall. apply andb_true_iff in Hall. destruct Hall as [Hb Hall].
    destruct w as [h cur av orc lc sc con inb fw aw sl rs].
    cbn in Hcon, Hin. subst con inb.
    unfold _forwardRequest, awaitFirstMessage, sleep. unfold_js. unfold_world.
    destruct b as [e|]; cbn in Hb |- *.
    + rewrite Hb, Hlt.
      rewrite (IH a rest (S (List.length fails)) (attempt + 1) (Some e));
        cbn; auto.
      * f_equal. unfold afterAttempts. cbn.
        rewrite <- !app_assoc. reflexivity.
      * cbn [List.length] in Hsum. lia.
    + rewrite Hlt.
      rewrite (IH a rest (S (List.length fails)) (attempt + 1)
                 (Some (MsgError (Some 504) (Some browserTimeout)))); cbn; auto.
      * f_equal. unfold afterAttempts. cbn.
        rewrite <- !app_assoc. reflexivity.
      * cbn [List.length] in Hsum. lia.
Qed.

End RetryLoop.

(* ===================================================================== *)
(** ** Retrying dispatch of the pseudo-stream handlers *)
(* ===================================================================== *)

Section PseudoStreamDispatch.

Variable js : Builtins.
Variable cfg : Config.
Variable p : ProxyRequest.





Lemma dispatch_rounds_all (k : nat) :
  S k = Z.to_nat (maxRetries cfg) ->
  1 + Z.of_nat (S k) = maxRetries cfg + 1.
Proof. intros H. rewrite H. rewrite Z2Nat.id; lia. Qed.

Lemma openAIPseudo_aborted (w : World) (fails rest : list Arrival)
    (a : Arrival) :
  connected w = true ->
  writableEnded (res w) = false ->
  inbox w = fails ++ a :: rest ->
  forallb failsAttempt fails = true ->
  failsAttempt a = true ->
  S (List.length fails) = Z.to_nat (maxRetries cfg) ->
  isUserAbort (attemptMessage a) = true ->
  exists w',
    _handleOpenAIPseudoStreamResponse js cfg p w = (Normal tt, w')
    /\ forwarded w' = forwarded w ++ repeat p (S (List.length fails))
    /\ slept w' = slept w ++ repeat (retryDelay cfg) (List.length fails)
    /\ rh w' = rh w
    /\ switchCalls w' = switchCalls w
    /\ written (res w') = written (res w) ++ [EvDone]
    /\ writableEnded (res w') = true.
Proof.
  intros Hcon Hopen Hin Hall Ha Hlen Habort.
  destruct w as [h cur av orc lc sc con inb fw aw sl rs].
  destruct rs as [hs we st ps wr].
  cbn in Hcon, Hopen, Hin. subst con we inb.
  unfold _handleOpenAIPseudoStreamResponse, dispatchWithRetry.
  unfold tryFinally, tryCatch.
  do 5 (unfold bind at 1; unfold modifyRes at 1, modify at 1).
  unfold bind at 1. rewrite <- Hlen.
  rewrite (retryLoop_fails cfg p fails a rest);
    [ | reflexivity | reflexivity | assumption | assumption | reflexivity
      | now apply dispatch_rounds_all ].
  rewrite Habort.
  run_js.
  eexists. split; [reflexivity|]. run_js. repeat split; reflexivity.
Qed.



Lemma nativePseudo_aborted (w : World) (fails rest : list Arrival)
    (a : Arrival) :
  connected w = true ->
  writableEnded (res w) = false ->
  inbox w = fails ++ a :: rest ->
  forallb failsAttempt fails = true ->
  failsAttempt a = true ->
  S (List.length fails) = Z.to_nat (maxRetries cfg) ->
  isUserAbort (attemptMessage a) = true ->
  exists w',
    _handlePseudoStreamResponse cfg p w = (Normal tt, w')
    /\ forwarded w' = forwarded w ++ repeat p (S (List.length fails))
    /\ slept w' = slept w ++ repeat (retryDelay cfg) (List.length fails)
    /\ rh w' = rh w
    /\ switchCalls w' = switchCalls w
    /\ written (res w') = written (res w)
    /\ writableEnded (res w') = true.
Proof.
  intros Hcon Hopen Hin Hall Ha Hlen Habort.
  destruct w as [h cur av orc lc sc con inb fw aw sl rs].
  destruct rs as [hs we st ps wr].
  cbn in Hcon, Hopen, Hin. subst con we inb.
  unfold _handlePseudoStreamResponse, dispatchWithRetry.
  unfold tryFinally, tryCatch.
  do 3 (unfold bind at 1; unfold modifyRes at 1, modify at 1).
  unfold bind at 1. rewrite <- Hlen.
  rewrite (retryLoop_fails cfg p fails a rest);
    [ | reflexivity | reflexivity | assumption | assumption | reflexivity
      | now apply dispatch_rounds_all ].
  rewrite Habort.
  run_js.
  eexists. split; [reflexivity|]. run_js. repeat split; reflexivity.
Qed.


End PseudoStreamDispatch.

Section RetryClaims.

Variable js : Builtins.
Variable cfg : Config.
Variable p : ProxyRequest.








(** C5 (amended): when the error of the last attempt marks a user abort,
    both pseudo-stream handlers leave the failure counter (and every
    other field of the handler) as it was, start no rotation and write no
    error report; the request was still forwarded at every one of the
    [maxRetries] attempts, an abort being retried like any other error. *)
Theorem aborted_request_not_counted
    (w : World) (fails rest : list Arrival) (a : Arrival) :
  connected w = true ->
  writableEnded (res w) = false ->
  inbox w = fails ++ a :: rest ->
  forallb failsAttempt fails = true ->
  failsAttempt a = true ->
  S (List.length fails) = Z.to_nat (maxRetries cfg) ->
  isUserAbort (attemptMessage a) = true ->
  (exists w',
      _handleOpenAIPseudoStreamResponse js cfg p w = (Normal tt, w')
      /\ failureCount (rh w') = failureCount (rh w)
      /\ rh w' = rh w
      /\ switchCalls w' = switchCalls w
      /\ forwarded w' = forwarded w ++ repeat p (Z.to_nat (maxRetries cfg))
      /\ written (res w') = written (res w) ++ [EvDone])
  /\ (exists w',
         _handlePseudoStreamResponse cfg p w = (Normal tt, w')
         /\ failureCount (rh w') = failureCount (rh w)
         /\ rh w' = rh w
         /\ switchCalls w' = switchCalls w
         /\ forwarded w' = forwarded w ++ repeat p (Z.to_nat (maxRetries cfg))
         /\ written (res w') = written (res w)).
Proof.
  intros Hcon Hopen Hin Hall Ha Hlen Habort. split.
  - destruct (openAIPseudo_aborted js cfg p w fails rest a Hcon Hopen Hin Hall
                Ha Hlen Habort)
      as (w' & Hrun & Hf & Hs & Hrh & Hsw & Hw & He).
    exists w'. rewrite <- Hlen, Hrh. repeat split; auto.
  - destruct (nativePseudo_aborted cfg p w fails rest a Hcon Hopen Hin Hall
                Ha Hlen Habort)
      as (w' & Hrun & Hf & Hs & Hrh & Hsw & Hw & He).
    exists w'. rewrite <- Hlen, Hrh. repeat split; auto.
Qed.

End RetryClaims.



Lemma aborted_request_not_counted_witness :
  let abort := Arrives (MsgError (Some 500)
                          (Some (lit "AbortError: The user aborted a request."))) in
  let w := initialWorld 1 [1; 2] (fun _ _ => None) [abort] in
  exists w',
    _handleOpenAIPseudoStreamResponse sampleEngine (sampleConfig 1)
      sampleRequest w = (Normal tt, w')
    /\ failureCount (rh w') = 0
    /\ forwarded w' = [sampleRequest]
    /\ written (res w') = [EvDone].
Proof.
  cbv zeta.
  destruct (aborted_request_not_counted sampleEngine (sampleConfig 1)
              sampleRequest
              (initialWorld 1 [1; 2] (fun _ _ => None)
                 [Arrives (MsgError (Some 500)
                    (Some (lit "AbortError: The user aborted a request.")))])
              [] []
              (Arrives (MsgError (Some 500)
                 (Some (lit "AbortError: The user aborted a request."))))
              eq_refl eq_refl eq_refl eq_refl eq_refl eq_refl eq_refl)
    as [(w' & Hrun & Hfc & _ & _ & Hf & Hw) _].
  exists w'. split; [exact Hrun|]. split; [exact Hfc|].
  split; [exact Hf | exact Hw].
Defined.

(** C5, as stated, fails: with [maxRetries = 2] a first reply that marks
    a user abort is followed by a pause and a second, identical request,
    whose reply is then delivered. *)
Lemma abort_is_retried_counterexample :
  let abort := Arrives (MsgError (Some 500)
                          (Some (lit "AbortError: The user aborted a request."))) in
  let w := initialWorld 1 [1; 2] (fun _ _ => None)
             [abort; Arrives (MsgHeaders (Some 200));
              Arrives (MsgChunk (Some sampleDocument)); Arrives MsgStreamEnd] in
  isUserAbort (MsgError (Some 500)
                 (Some (lit "AbortError: The user aborted a request."))) = true
  /\ exists w',
       _handleOpenAIPseudoStreamResponse sampleEngine (sampleConfig 2)
         sampleRequest w = (Normal tt, w')
       /\ forwarded w' = [sampleRequest; sampleRequest]
       /\ slept w' = [0]
       /\ written (res w') =
          [EvOpenAIChunk (Some (lit "Hi")) None;
           EvOpenAIChunk None (Some (JStr (lit "STOP"))); EvDone].
Proof.
  cbv zeta. split; [vm_compute; reflexivity|].
  eexists. split; [vm_compute; reflexivity|].
  repeat split; reflexivity.
Qed.

(* ===================================================================== *)
(** ** Errors after the headers were sent *)
(* ===================================================================== *)

Section LateErrors.

Variable cfg : Config.


End LateErrors.


(* ===================================================================== *)
(** ** Mix mode *)
(* ===================================================================== *)

Section MixMode.

Lemma startsWith_app (s prefix : jsstring) :
  startsWith s prefix = true <-> exists rest, s = prefix ++ rest.
Proof.
  revert s. induction prefix as [|c prefix IH]; intros s.
  - split; [intros _; now exists s | intros _; destruct s; reflexivity].
  - destruct s as [|d s]; cbn.
    + split; [discriminate | intros [rest H]; discriminate].
    + rewrite andb_true_iff, N.eqb_eq, IH. split.
      * intros [-> [rest ->]]. now exists rest.
      * intros [rest H]. inversion H; subst. split; [reflexivity|now exists rest].
Qed.

Lemma skipn_prefix (prefix rest : jsstring) :
  skipn (List.length prefix) (prefix ++ rest) = rest.
Proof. induction prefix; cbn; auto. Qed.

Variable cfg : Config.

(** C7 (amended): under [mix] the mode of a streaming request is [fake]
    exactly when the requested model identifier starts with the reserved
    prefix, and [real] otherwise; in the fake case the identifier named
    upstream is the one without the prefix when something follows the
    prefix, and the identifier as requested when nothing does; the
    requested model is always kept as it came; under [real] and [fake]
    the global mode is the mode of the request and the identifier is not
    changed. *)
Theorem mix_mode_resolution (m : jsstring) :
  let context := _normalizeMixModeModelId cfg (JStr m) in
  requestedModel context = m
  /\ (streamingMode cfg = ModeMix ->
      (_resolveStreamingModeForRequest cfg (Some context) = ModeFake
         <-> startsWith m fakeStreamPrefix = true)
      /\ (_resolveStreamingModeForRequest cfg (Some context) = ModeReal
            <-> startsWith m fakeStreamPrefix = false)
      /\ (forall rest, m = fakeStreamPrefix ++ rest ->
            normalizedModel context = if nonEmpty rest then rest else m)
      /\ (startsWith m fakeStreamPrefix = false -> normalizedModel context = m)
      /\ (forall js body rest,
            prop "model" body = Some (JStr m) ->
            m = fakeStreamPrefix ++ rest -> rest <> [] ->
            openAIStreamingMode cfg body true = ModeFake
            /\ openAIUpstreamPath js cfg body true =
               Some (lit "/v1beta/models/" ++ rest
                     ++ lit ":streamGenerateContent")))
  /\ (streamingMode cfg <> ModeMix ->
      _resolveStreamingModeForRequest cfg (Some context) = streamingMode cfg
      /\ normalizedModel context = m
      /\ isFake context = false).
Proof.
  cbv zeta. split; [reflexivity|]. split.
  - intros Hmix.
    unfold _resolveStreamingModeForRequest, _normalizeMixModeModelId,
      _isMixStreamingEnabled, _stripFakeStreamPrefix, _isFakeStreamModelId.
    rewrite Hmix. cbn [andb isFake normalizedModel].
    split; [|split; [|split; [|split]]].
    + destruct (startsWith m fakeStreamPrefix); split; auto; discriminate.
    + destruct (startsWith m fakeStreamPrefix); split; auto; discriminate.
    + intros rest ->.
      assert (Hs : startsWith (fakeStreamPrefix ++ rest) fakeStreamPrefix = true)
        by (apply startsWith_app; now exists rest).
      rewrite Hs. cbn [negb]. unfold sliceFrom. rewrite skipn_prefix.
      reflexivity.
    + intros Hs. rewrite Hs. destruct (nonEmpty m); reflexivity.
    + intros js body rest Hbody -> Hrest.
      assert (Hs : startsWith (fakeStreamPrefix ++ rest) fakeStreamPrefix = true)
        by (apply startsWith_app; now exists rest).
      assert (Hne : nonEmpty rest = true) by (destruct rest; [congruence|reflexivity]).
      unfold openAIStreamingMode, openAIUpstreamPath, openAIModel,
        _resolveStreamingModeForRequest, _normalizeMixModeModelId,
        _isMixStreamingEnabled, _stripFakeStreamPrefix, _isFakeStreamModelId.
      rewrite Hbody, Hmix. cbn [truthy].
      assert (Hm : nonEmpty (fakeStreamPrefix ++ rest) = true) by reflexivity.
      rewrite Hm. cbn [andb isFake normalizedModel]. rewrite Hs. cbn [negb].
      unfold sliceFrom. rewrite skipn_prefix, !Hne. cbn [toString option_map].
      split; reflexivity.
  - intros Hmode.
    unfold _resolveStreamingModeForRequest, _normalizeMixModeModelId,
      _isMixStreamingEnabled.
    destruct (streamingMode cfg); try congruence; cbn;
      destruct (nonEmpty m); repeat split; reflexivity.
Qed.

End MixMode.

Lemma mix_mode_resolution_witness :
  let m := fakeStreamPrefix ++ lit "gemini-pro" in
  let context := _normalizeMixModeModelId (sampleConfig 1) (JStr m) in
  _resolveStreamingModeForRequest (sampleConfig 1) (Some context) = ModeFake
  /\ normalizedModel context = lit "gemini-pro"
  /\ requestedModel context = m.
Proof.
  cbv zeta.
  destruct (mix_mode_resolution (sampleConfig 1)
              (fakeStreamPrefix ++ lit "gemini-pro"))
    as (Hreq & Hmix & _).
  destruct (Hmix eq_refl) as (Hfake & _ & Hnorm & _).
  split; [apply Hfake; reflexivity|].
  split; [exact (Hnorm (lit "gemini-pro") eq_refl) | exact Hreq].
Defined.

(** C7, as stated, fails on the identifier that is the prefix alone: the
    request is a fake-stream one, and the identifier goes upstream with
    its prefix. *)
Lemma mix_mode_counterexample :
  let context := _normalizeMixModeModelId (sampleConfig 1) (JStr fakeStreamPrefix) in
  let body := JObj [(lit "model", JStr fakeStreamPrefix); (lit "stream", JBool true)] in
  _resolveStreamingModeForRequest (sampleConfig 1) (Some context) = ModeFake
  /\ _stripFakeStreamPrefix fakeStreamPrefix = []
  /\ normalizedModel context = fakeStreamPrefix
  /\ openAIUpstreamPath sampleEngine (sampleConfig 1) body true =
     Some (lit "/v1beta/models/" ++ fakeStreamPrefix
           ++ lit ":streamGenerateContent").
Proof.
  cbv zeta. repeat split; vm_compute; reflexivity.
Qed.

(* ===================================================================== *)
(** ** Re-framing of server-sent events *)
(* ===================================================================== *)

Section SseFacts.

Lemma startsWith_length (s prefix : jsstring) :
  startsWith s prefix = true -> (List.length prefix <= List.length s)%nat.
Proof.
  intros H. apply startsWith_app in H. destruct H as [rest ->].
  rewrite length_app. lia.
Qed.

Lemma startsWith_app_l (s t prefix : jsstring) :
  (List.length prefix <= List.length s)%nat ->
  startsWith (s ++ t) prefix = startsWith s prefix.
Proof.
  revert s. induction prefix as [|c prefix IH]; intros s Hlen.
  - reflexivity.
  - destruct s as [|d s]; cbn in Hlen; [lia|].
    cbn. rewrite IH by lia. reflexivity.
Qed.

Lemma indexOf_bound (s pat : jsstring) (i : nat) :
  indexOf s pat = Some i -> (i + List.length pat <= List.length s)%nat.
Proof.
  revert i. induction s as [|c s IH]; intros i H.
  - cbn in H. destruct (startsWith [] pat) eqn:E; [|discriminate].
    inversion H; subst. apply startsWith_length in E. cbn in *. lia.
  - cbn [indexOf] in H.
    destruct (startsWith (c :: s) pat) eqn:E.
    + inversion H; subst. apply startsWith_length in E. lia.
    + destruct (indexOf s pat) as [j|]; [|discriminate].
      inversion H; subst. specialize (IH j eq_refl). cbn. lia.
Qed.

(** The first occurrence in [s] is the first occurrence in [s ++ t]. *)
Lemma indexOf_app (s t pat : jsstring) (i : nat) :
  indexOf s pat = Some i -> indexOf (s ++ t) pat = Some i.
Proof.
  revert i. induction s as [|c s IH]; intros i H.
  - pose proof (indexOf_bound _ _ _ H) as Hb. cbn in Hb.
    destruct pat; [|cbn in Hb; lia].
    cbn in H. inversion H; subst. destruct t; reflexivity.
  - pose proof (indexOf_bound _ _ _ H) as Hb.
    cbn [indexOf] in H. cbn [app indexOf].
    change (c :: s ++ t) with ((c :: s) ++ t).
    rewrite startsWith_app_l by lia.
    destruct (startsWith (c :: s) pat); [exact H|].
    destruct (indexOf s pat) as [j|]; [|discriminate].
    rewrite (IH j eq_refl). exact H.
Qed.

Lemma processFrom_none (fuel : nat) (s : jsstring) :
  indexOf s [LF; LF] = None -> processSseBufferFrom fuel s = ([], s).
Proof. intros H. destruct fuel; cbn; [|rewrite H]; reflexivity. Qed.

(** Fuel beyond the length of the buffer makes no difference. *)
Lemma processFrom_fuel (n : nat) :
  forall (s : jsstring) (f1 f2 : nat),
    (List.length s <= n)%nat -> (List.length s <= f1)%nat ->
    (List.length s <= f2)%nat ->
    processSseBufferFrom f1 s = processSseBufferFrom f2 s.
Proof.
  induction n as [|n IH]; intros s f1 f2 Hn H1 H2.
  - destruct s; [|cbn in Hn; lia].
    rewrite !processFrom_none by reflexivity. reflexivity.
  - destruct (indexOf s [LF; LF]) as [i|] eqn:E.
    2:{ rewrite !processFrom_none by exact E. reflexivity. }
    pose proof (indexOf_bound _ _ _ E) as Hb. cbn in Hb.
    destruct f1 as [|f1]; [lia|]. destruct f2 as [|f2]; [lia|].
    cbn [processSseBufferFrom]. rewrite E.
    assert (Hr : (List.length (sliceFrom (i + 2) s) <= List.length s - 2)%nat).
    { unfold sliceFrom. rewrite length_skipn. lia. }
    rewrite (IH (sliceFrom (i + 2) s) f1 f2) by lia.
    reflexivity.
Qed.

Lemma processSseBuffer_unfold (s : jsstring) (i : nat) :
  indexOf s [LF; LF] = Some i ->
  processSseBuffer s =
  let (payloads, left) := processSseBuffer (sliceFrom (i + 2) s) in
  (eventPayloads (sliceTo i s) ++ payloads, left).
Proof.
  intros E. unfold processSseBuffer.
  pose proof (indexOf_bound _ _ _ E) as Hb. cbn in Hb.
  destruct (List.length s) as [|k] eqn:Hk; [lia|].
  cbn [processSseBufferFrom]. rewrite E.
  assert (Hr : (List.length (sliceFrom (i + 2) s) <= k)%nat).
  { unfold sliceFrom. rewrite length_skipn. lia. }
  rewrite (processFrom_fuel k (sliceFrom (i + 2) s) k
             (List.length (sliceFrom (i + 2) s))) by lia.
  reflexivity.
Qed.

(** What is left in the buffer holds no blank line. *)
Lemma processSseBuffer_left (n : nat) :
  forall s, (List.length s <= n)%nat ->
    indexOf (snd (processSseBuffer s)) [LF; LF] = None.
Proof.
  induction n as [|n IH]; intros s Hn.
  - destruct s; [reflexivity | cbn in Hn; lia].
  - destruct (indexOf s [LF; LF]) as [i|] eqn:E.
    + rewrite (processSseBuffer_unfold s i E).
      pose proof (indexOf_bound _ _ _ E) as Hb. cbn in Hb.
      assert (Hr : (List.length (sliceFrom (i + 2) s) <= n)%nat).
      { unfold sliceFrom. rewrite length_skipn. lia. }
      specialize (IH _ Hr).
      destruct (processSseBuffer (sliceFrom (i + 2) s)) as [payloads left].
      exact IH.
    + unfold processSseBuffer. rewrite processFrom_none by exact E. exact E.
Qed.

(** Processing a buffer and then what is left with more input behind it
    gives what processing all of it at once gives. *)
Lemma processSseBuffer_app (n : nat) :
  forall s t, (List.length s <= n)%nat ->
    processSseBuffer (s ++ t) =
    let (p1, left1) := processSseBuffer s in
    let (p2, left2) := processSseBuffer (left1 ++ t) in
    (p1 ++ p2, left2).
Proof.
  induction n as [|n IH]; intros s t Hn.
  - destruct s; [|cbn in Hn; lia]. cbn [app].
    change (processSseBuffer []) with (@nil jsstring, @nil N). cbn [app].
    destruct (processSseBuffer t). reflexivity.
  - destruct (indexOf s [LF; LF]) as [i|] eqn:E.
    + pose proof (indexOf_bound _ _ _ E) as Hb. cbn in Hb.
      rewrite (processSseBuffer_unfold (s ++ t) i (indexOf_app s t _ i E)).
      rewrite (processSseBuffer_unfold s i E).
      unfold sliceFrom, sliceTo.
      rewrite skipn_app, firstn_app.
      replace (i + 2 - List.length s)%nat with 0%nat by lia.
      replace (i - List.length s)%nat with 0%nat by lia.
      cbn [skipn firstn]. rewrite app_nil_r.
      assert (Hr : (List.length (skipn (i + 2) s) <= n)%nat).
      { rewrite length_skipn. lia. }
      rewrite (IH (skipn (i + 2) s) t Hr).
      destruct (processSseBuffer (skipn (i + 2) s)) as [p1 left1].
      destruct (processSseBuffer (left1 ++ t)) as [p2 left2].
      rewrite app_assoc. reflexivity.
    + unfold processSseBuffer at 2. rewrite processFrom_none by exact E.
      destruct (processSseBuffer (s ++ t)). reflexivity.
Qed.

End SseFacts.

Section Fragmentation.

Lemma replaceCRLF_cons2 (c d : N) (s : jsstring) :
  replaceCRLF (c :: d :: s) =
  if N.eqb c CR && N.eqb d LF then LF :: replaceCRLF s
  else c :: replaceCRLF (d :: s).
Proof. reflexivity. Qed.

Lemma replaceCRLF_app (n : nat) :
  forall s t, (List.length s <= n)%nat -> endsWithCR s = false ->
    replaceCRLF (s ++ t) = replaceCRLF s ++ replaceCRLF t.
Proof.
  induction n as [|n IH]; intros s t Hn Hcr.
  - destruct s; [reflexivity | cbn in Hn; lia].
  - destruct s as [|c [|d s]].
    + reflexivity.
    + cbn in Hcr. destruct t as [|e t]; [reflexivity|].
      change ([c] ++ e :: t) with (c :: e :: t).
      rewrite replaceCRLF_cons2, Hcr. reflexivity.
    + change ((c :: d :: s) ++ t) with (c :: d :: (s ++ t)).
      rewrite !replaceCRLF_cons2.
      destruct (N.eqb c CR && N.eqb d LF) eqn:E.
      * cbn [app]. f_equal. apply IH; [cbn in Hn; lia|].
        destruct s; [reflexivity | exact Hcr].
      * change (d :: s ++ t) with ((d :: s) ++ t).
        rewrite (IH (d :: s) t); [reflexivity | cbn in Hn |- *; lia | exact Hcr].
Qed.

Lemma normalizeNewlines_app (s t : jsstring) :
  endsWithCR s = false ->
  normalizeNewlines (s ++ t) = normalizeNewlines s ++ normalizeNewlines t.
Proof.
  intros H. unfold normalizeNewlines, replaceCR.
  rewrite (replaceCRLF_app (List.length s)) by auto.
  apply map_app.
Qed.

Lemma normalizeNewlines_concat (chunks : list jsstring) :
  Forall (fun c => endsWithCR c = false) chunks ->
  normalizeNewlines (List.concat chunks) = List.concat (map normalizeNewlines chunks).
Proof.
  induction 1 as [|c chunks Hc _ IH]; [reflexivity|].
  cbn [List.concat map]. rewrite normalizeNewlines_app by exact Hc.
  now rewrite IH.
Qed.

Lemma normalizeNewlines_nonEmpty (s : jsstring) :
  nonEmpty (normalizeNewlines s) = nonEmpty s.
Proof.
  destruct s as [|c [|d s]]; [reflexivity | reflexivity |].
  unfold normalizeNewlines. cbn [replaceCRLF].
  destruct (N.eqb c CR && N.eqb d LF); reflexivity.
Qed.

(** Chunk by chunk, the loop hands on what the normalised stream as a
    whole gives, when the buffer it starts from holds no blank line. *)
Lemma reframeFrom_whole (chunks : list jsstring) :
  forall sseBuffer,
    indexOf sseBuffer [LF; LF] = None ->
    reframeFrom sseBuffer chunks =
    wholeStream sseBuffer (List.concat (map normalizeNewlines chunks)).
Proof.
  induction chunks as [|data rest IH]; intros sseBuffer Hstable.
  - cbn [reframeFrom map List.concat]. unfold wholeStream. rewrite app_nil_r.
    unfold processSseBuffer. rewrite processFrom_none by exact Hstable.
    reflexivity.
  - cbn [reframeFrom map List.concat]. unfold feedChunk.
    destruct (nonEmpty data) eqn:Hdata.
    + unfold wholeStream. rewrite app_assoc.
      rewrite (processSseBuffer_app
                 (List.length (sseBuffer ++ normalizeNewlines data))
                 (sseBuffer ++ normalizeNewlines data)
                 (List.concat (map normalizeNewlines rest)) (le_n _)).
      pose proof (processSseBuffer_left
                    (List.length (sseBuffer ++ normalizeNewlines data))
                    (sseBuffer ++ normalizeNewlines data) (le_n _)) as Hleft.
      destruct (processSseBuffer (sseBuffer ++ normalizeNewlines data))
        as [p1 left1].
      cbn [snd] in Hleft. rewrite (IH left1 Hleft). unfold wholeStream.
      destruct (processSseBuffer
                  (left1 ++ List.concat (map normalizeNewlines rest)))
        as [p2 left2].
      rewrite app_assoc. reflexivity.
    + destruct data; [|discriminate]. cbn [normalizeNewlines replaceCRLF
        replaceCR map app]. apply IH. exact Hstable.
Qed.

(** X17: Streams without a carriage return at the end of a chunk: the events
    handed on do not depend on how the stream was cut into chunks. *)
Lemma reframe_fragmentation_independent (chunks : list jsstring) :
  Forall (fun c => endsWithCR c = false) chunks ->
  reframe chunks = reframe [List.concat chunks].
Proof.
  intros H. unfold reframe.
  rewrite !reframeFrom_whole by reflexivity.
  cbn [map List.concat]. rewrite app_nil_r.
  now rewrite normalizeNewlines_concat.
Qed.

(** The example of the specification: three chunks, two events. *)
Example reframe_three_chunks :
  reframe [lit "data: {" ++ quoted "a" ++ lit ":1}" ++ [LF]; [LF];
           lit "data: {" ++ quoted "b" ++ lit ":2}" ++ [LF; LF]]
  = [lit "{" ++ quoted "a" ++ lit ":1}"; lit "{" ++ quoted "b" ++ lit ":2}"].
Proof. vm_compute. reflexivity. Qed.

(** Comment-only events, blank events and the [DONE] payload hand on
    nothing; the data lines of one event are joined by a line feed. *)
Example reframe_drops_and_joins :
  reframe [lit ": ping" ++ [LF; LF; LF; LF] ++ lit "data: [DONE]" ++ [LF; LF]
           ++ lit "data: x" ++ [LF] ++ lit "data: y"]
  = [lit "x" ++ [LF] ++ lit "y"].
Proof. vm_compute. reflexivity. Qed.

(** C8: the events handed on depend on the fragmentation.  A stream
    whose two [data:] lines are separated by CR LF gives one event with
    both lines when it comes in one chunk, and two events when the chunk
    boundary falls between the CR and the LF, each half being normalised
    on its own. *)
Theorem reframe_depends_on_crlf_split :
  let first := lit "data: {" ++ [CR] in
  let second := [LF] ++ lit "data: }" ++ [CR; LF; CR; LF] in
  reframe [first ++ second] = [lit "{" ++ [LF] ++ lit "}"]
  /\ reframe [first; second] = [lit "{"; lit "}"]
  /\ reframe [first; second] <> reframe [first ++ second].
Proof.
  cbv zeta. split; [vm_compute; reflexivity|].
  split; [vm_compute; reflexivity|].
  vm_compute. discriminate.
Qed.

End Fragmentation.

(* ===================================================================== *)
(** ** OpenAI-to-native translation *)
(* ===================================================================== *)

Section Translation.

Variable js : Builtins.

Lemma prop_role (m : OAMessage) :
  prop "role" (messageJson m) = Some (JStr (oaRole m)).
Proof. reflexivity. Qed.

Lemma prop_content (m : OAMessage) :
  prop "content" (messageJson m) = Some (contentJson (oaContent m)).
Proof. reflexivity. Qed.

Lemma filterByRole_messages (keepSystem : bool) (messages : list OAMessage) :
  filterByRole keepSystem (map messageJson messages) =
  Some (map messageJson
          (filter (fun m => Bool.eqb (isSystem m) keepSystem) messages)).
Proof.
  induction messages as [|m messages IH]; [reflexivity|].
  cbn [map filterByRole filter]. unfold messageJson at 1.
  rewrite IH. fold (messageJson m). rewrite prop_role.
  unfold isString, isSystem.
  destruct (Bool.eqb (JS.eqb (oaRole m) (lit "system")) keepSystem);
    reflexivity.
Qed.

Lemma filter_system (messages : list OAMessage) :
  filter (fun m => Bool.eqb (isSystem m) true) messages
  = filter isSystem messages.
Proof.
  apply filter_ext. intros m. destruct (isSystem m); reflexivity.
Qed.

Lemma filter_conversation (messages : list OAMessage) :
  filter (fun m => Bool.eqb (isSystem m) false) messages
  = filter (fun m => negb (isSystem m)) messages.
Proof.
  apply filter_ext. intros m. destruct (isSystem m); reflexivity.
Qed.

Lemma joinElement_content (content : OAContent) :
  (exists text, content = OAString text) ->
  joinElement js (Some (contentJson content)) = Some (systemText content).
Proof. intros [text ->]. reflexivity. Qed.

Lemma joinValues_system (systems : list OAMessage) :
  forallb hasStringContent systems = true ->
  joinValues js [LF] (map (prop "content") (map messageJson systems)) =
  Some (join [LF] (map (fun m => systemText (oaContent m)) systems)).
Proof.
  intros Hall. unfold joinValues.
  assert (H : sequence (map (joinElement js)
                          (map (prop "content") (map messageJson systems)))
              = Some (map (fun m => systemText (oaContent m)) systems)).
  { induction systems as [|m systems IH]; [reflexivity|].
    cbn [forallb] in Hall. apply andb_true_iff in Hall.
    destruct Hall as [Hm Hall].
    cbn [map sequence]. rewrite prop_content, joinElement_content, IH;
      [reflexivity | exact Hall |].
    unfold hasStringContent in Hm.
    destruct (oaContent m) as [text|items]; [now exists text | discriminate]. }
  rewrite H. reflexivity.
Qed.

Lemma forallb_filter_system (messages : list OAMessage) :
  forallb (fun m => implb (isSystem m) (hasStringContent m)) messages = true ->
  forallb hasStringContent (filter isSystem messages) = true.
Proof.
  induction messages as [|m messages IH]; [reflexivity|].
  cbn [forallb filter]. intros H. apply andb_true_iff in H.
  destruct H as [Hm H]. destruct (isSystem m); cbn [forallb].
  - cbn in Hm. rewrite Hm. exact (IH H).
  - exact (IH H).
Qed.

Lemma translatePart_spec (part : OAPart) :
  translatePart (partJson part) = Some (specPart part).
Proof.
  destruct part as [text|url]; [reflexivity|].
  cbn. destruct (matchImageDataUrl url) as [[mimeType data]|]; reflexivity.
Qed.

Lemma translateParts_spec (items : list OAPart) :
  translateParts (map partJson items) = Some (flat_map specPart items).
Proof.
  induction items as [|part items IH]; [reflexivity|].
  cbn [map translateParts flat_map]. rewrite translatePart_spec, IH.
  reflexivity.
Qed.

Lemma translateMessage_spec (m : OAMessage) :
  translateMessage (messageJson m) = Some (specContent m).
Proof.
  unfold translateMessage. rewrite prop_content, prop_role.
  destruct m as [r [text|items]]; cbn [oaContent oaRole contentJson].
  - reflexivity.
  - rewrite translateParts_spec. reflexivity.
Qed.

Lemma translateMessages_spec (messages : list OAMessage) :
  sequence (map translateMessage (map messageJson messages))
  = Some (map specContent messages).
Proof.
  induction messages as [|m messages IH]; [reflexivity|].
  cbn [map sequence]. rewrite translateMessage_spec, IH. reflexivity.
Qed.

Lemma indexOf_cons (d : N) (s pat : jsstring) :
  indexOf (d :: s) pat =
  if startsWith (d :: s) pat then Some 0%nat else option_map S (indexOf s pat).
Proof. reflexivity. Qed.

Lemma indexOf_after (sub tail pat : jsstring) (c : N) :
  (forall d, In d sub -> d <> c) ->
  indexOf (sub ++ c :: pat ++ tail) (c :: pat) = Some (List.length sub).
Proof.
  intros Hsub. induction sub as [|d sub IH].
  - cbn [app List.length]. rewrite indexOf_cons.
    assert (H : startsWith ((c :: pat) ++ tail) (c :: pat) = true)
      by (apply startsWith_app; now exists tail).
    cbn [app] in H. rewrite H. reflexivity.
  - cbn [app List.length]. rewrite indexOf_cons.
    assert (Hd : N.eqb d c = false).
    { apply N.eqb_neq. apply Hsub. now left. }
    cbn [startsWith]. rewrite Hd. cbn [andb]. rewrite IH; [reflexivity|].
    intros e He. apply Hsub. now right.
Qed.

(** On a body whose messages are well typed and whose system messages
    have string contents the translation returns, and its result is the
    one the specification describes: the system messages joined by line
    feeds into one system instruction (none when there is no system
    message); for every other message the role [model] for [assistant]
    and [user] for the rest, a text part for a string content and for a
    text part, an inline-data part for an image part whose URL is a
    base64 [data:image/...] URL; the five generation parameters under
    their native names; [BLOCK_NONE] for the four harm categories.  The
    body may hold any further fields. *)
Lemma translation_meets_specification
    (body : json) (messages : list OAMessage) :
  prop "messages" body = Some (messagesJson messages) ->
  forallb (fun m => implb (isSystem m) (hasStringContent m)) messages = true ->
  _translateOpenAIToGoogle js body = Some (specTranslation body messages).
Proof.
  intros Hm Hsys.
  unfold _translateOpenAIToGoogle.
  assert (Hget : getProp "messages" (Some body)
                 = Some (Some (JArr (map messageJson messages)))).
  { unfold getProp. destruct body; try discriminate. now rewrite Hm. }
  rewrite Hget, !filterByRole_messages, filter_system, filter_conversation.
  rewrite translateMessages_spec.
  rewrite joinValues_system by (apply forallb_filter_system; exact Hsys).
  unfold specTranslation.
  destruct (filter isSystem messages) as [|m systems]; reflexivity.
Qed.

(** A URL [data:image/<sub>;base64,<data>] with no semicolon in [<sub>]
    and no line terminator is an image URL for the translation, with the
    media type [image/<sub>] and the data [<data>]. *)
Lemma matchImageDataUrl_base64 (sub data : jsstring) :
  (forall d, In d sub -> d <> 59%N) ->
  existsb isLineTerminator (sub ++ data) = false ->
  matchImageDataUrl (lit "data:image/" ++ sub ++ lit ";base64," ++ data)
  = Some (lit "image/" ++ sub, data).
Proof.
  intros Hsub Hlt.
  unfold matchImageDataUrl.
  assert (Hs : startsWith (lit "data:image/" ++ sub ++ lit ";base64," ++ data)
                 (lit "data:image/") = true)
    by (apply startsWith_app; eexists; reflexivity).
  rewrite Hs.
  cbv zeta. unfold sliceFrom, sliceTo.
  change 11%nat with (List.length (lit "data:image/")).
  rewrite !skipn_prefix.
  assert (Hno : existsb isLineTerminator (sub ++ lit ";base64," ++ data) = false).
  { rewrite existsb_app in Hlt |- *. apply orb_false_iff in Hlt.
    destruct Hlt as [H1 H2]. rewrite H1. rewrite existsb_app, H2.
    reflexivity. }
  rewrite Hno.
  change (lit ";base64," ++ data) with (59%N :: lit "base64," ++ data).
  change (lit ";base64,") with (59%N :: lit "base64,").
  rewrite indexOf_after by exact Hsub.
  rewrite firstn_app, firstn_all, Nat.sub_diag. cbn [firstn].
  rewrite app_nil_r.
  rewrite skipn_app.
  rewrite skipn_all2 by lia.
  replace (List.length sub + 8 - List.length sub)%nat with 8%nat by lia.
  reflexivity.
Qed.

End Translation.

(** The body of a chat request with two system messages, a user message
    of a text and an image, and an answer of the assistant. *)
Lemma translation_example :
  let messages :=
    [{| oaRole := lit "system"; oaContent := OAString (lit "Be brief.") |};
     {| oaRole := lit "user";
        oaContent := OAParts [OAText (lit "What is this?");
                              OAImage (lit "data:image/png;base64,iVBORw0KGgo=")] |};
     {| oaRole := lit "system"; oaContent := OAString (lit "Answer in French.") |};
     {| oaRole := lit "assistant"; oaContent := OAString (lit "A cat.") |}] in
  let body := JObj [(lit "model", JStr (lit "gemini-pro"));
                    (lit "stream", JBool true);
                    (lit "messages", messagesJson messages);
                    (lit "temperature", JNum 1);
                    (lit "max_tokens", JNum 256)] in
  _translateOpenAIToGoogle sampleEngine body
  = Some {| contents :=
              [{| role := lit "user";
                  parts := [GText (Some (JStr (lit "What is this?")));
                            GInlineData (lit "image/png") (lit "iVBORw0KGgo=")] |};
               {| role := lit "model";
                  parts := [GText (Some (JStr (lit "A cat.")))] |}];
            systemInstruction :=
              Some [GText (Some (JStr (lit "Be brief." ++ [10%N]
                                         ++ lit "Answer in French.")))];
            generationConfig :=
              {| temperature := Some (JNum 1); topP := None; topK := None;
                 maxOutputTokens := Some (JNum 256); stopSequences := None |};
            safetySettings :=
              [(lit "HARM_CATEGORY_HARASSMENT", lit "BLOCK_NONE");
               (lit "HARM_CATEGORY_HATE_SPEECH", lit "BLOCK_NONE");
               (lit "HARM_CATEGORY_SEXUALLY_EXPLICIT", lit "BLOCK_NONE");
               (lit "HARM_CATEGORY_DANGEROUS_CONTENT", lit "BLOCK_NONE")] |}.
Proof.
  intros messages body.
  rewrite (translation_meets_specification sampleEngine body messages
             eq_refl eq_refl).
  vm_compute. reflexivity.
Qed.

(** C9: a system message whose content is an array of parts loses its
    text.  The body [{model, messages: [{role: "system", content: c},
    {role: "user", content: c}]}] with
    [c = [{type: "text", text: "Be brief."}]] is translated to a request
    whose system instruction is the text [[object Object]], the array as
    JavaScript prints it, while the same content gives the user message
    its text part. *)
Theorem system_array_content_lost :
  let content := JArr [JObj [(lit "type", JStr (lit "text"));
                             (lit "text", JStr (lit "Be brief."))]] in
  let message := fun role : string =>
    JObj [(lit "role", JStr (lit role)); (lit "content", content)] in
  let body := JObj [(lit "model", JStr (lit "gemini-pro"));
                    (lit "messages", JArr [message "system"%string;
                                           message "user"%string])] in
  _translateOpenAIToGoogle sampleEngine body
  = Some {| contents :=
              [{| role := lit "user";
                  parts := [GText (Some (JStr (lit "Be brief.")))] |}];
            systemInstruction :=
              Some [GText (Some (JStr (lit "[object Object]")))];
            generationConfig :=
              {| temperature := None; topP := None; topK := None;
                 maxOutputTokens := None; stopSequences := None |};
            safetySettings := blockNone |}.
Proof. vm_compute. reflexivity. Qed.

(* ===================================================================== *)
(** ** Further properties of account rotation *)
(* ===================================================================== *)

Section RotationOrder.

Lemma indexOfZ_NoDup (l : list Z) :
  forall (i : nat) (x : Z),
    NoDup l -> nth_error l i = Some x -> indexOfZ x l = Some i.
Proof.
  induction l as [|y l IH]; intros i x Hnd Hnth.
  - destruct i; discriminate.
  - cbn [indexOfZ]. inversion Hnd as [|? ? Hnot Hnd']; subst.
    destruct i as [|i]; cbn in Hnth.
    + inversion Hnth; subst. now rewrite Z.eqb_refl.
    + destruct (Z.eqb_spec y x) as [->|Hne].
      * exfalso. apply Hnot. eapply nth_error_In. exact Hnth.
      * rewrite (IH i x Hnd' Hnth). reflexivity.
Qed.

(** X1: The rotation target is the account that follows the current one in
    the list of usable accounts, the first one after the last; with two
    distinct accounts or more it is never the current account. *)
Theorem getNextAuthIndex_follows (w : World) (i : nat) :
  NoDup (availableIndices w) ->
  nth_error (availableIndices w) i = Some (currentAuthIndex w) ->
  _getNextAuthIndex w =
    nth_error (availableIndices w)
      (if Nat.eqb (S i) (List.length (availableIndices w)) then 0 else S i)%nat
  /\ (exists next, _getNextAuthIndex w = Some next
                   /\ In next (availableIndices w)
                   /\ ((2 <= List.length (availableIndices w))%nat ->
                       next <> currentAuthIndex w)).
Proof.
  intros Hnd Hnth.
  assert (Hlt : (i < List.length (availableIndices w))%nat).
  { apply nth_error_Some. congruence. }
  assert (Hidx : indexOfZ (currentAuthIndex w) (availableIndices w) = Some i)
    by now apply indexOfZ_NoDup.
  assert (Hmod : ((i + 1) mod List.length (availableIndices w) =
                  if Nat.eqb (S i) (List.length (availableIndices w))
                  then 0 else S i)%nat).
  { destruct (Nat.eqb_spec (S i) (List.length (availableIndices w))) as [E|E].
    - rewrite <- E, Nat.add_1_r. apply Nat.Div0.mod_same.
    - rewrite Nat.add_1_r. apply Nat.mod_small. lia. }
  assert (Hnext : _getNextAuthIndex w =
                  nth_error (availableIndices w)
                    (if Nat.eqb (S i) (List.length (availableIndices w))
                     then 0 else S i)%nat).
  { unfold _getNextAuthIndex. rewrite Hidx, Hmod.
    destruct (availableIndices w); [cbn in Hlt; lia | reflexivity]. }
  split; [exact Hnext|].
  set (j := (if Nat.eqb (S i) (List.length (availableIndices w))
             then 0 else S i)%nat) in *.
  assert (Hj : (j < List.length (availableIndices w))%nat).
  { subst j.
    destruct (Nat.eqb_spec (S i) (List.length (availableIndices w))); lia. }
  destruct (nth_error (availableIndices w) j) as [next|] eqn:Hn.
  2:{ apply nth_error_None in Hn. lia. }
  exists next. split; [exact Hnext|]. split; [eapply nth_error_In; exact Hn|].
  intros Hlen Heq. subst next.
  assert (Hij : i = j).
  { apply (proj1 (NoDup_nth_error (availableIndices w)) Hnd i j Hlt).
    congruence. }
  subst j.
  destruct (Nat.eqb_spec (S i) (List.length (availableIndices w))); lia.
Qed.

End RotationOrder.

Lemma getNextAuthIndex_follows_witness :
  let w := initialWorld 9 [2; 4; 9] (fun _ _ => None) [] in
  NoDup (availableIndices w)
  /\ nth_error (availableIndices w) 2 = Some (currentAuthIndex w)
  /\ _getNextAuthIndex w = Some 2.
Proof.
  cbv zeta.
  assert (Hnd : NoDup (availableIndices
                         (initialWorld 9 [2; 4; 9] (fun _ _ => None) []))).
  { cbn. repeat constructor; cbn; intuition discriminate. }
  split; [exact Hnd|]. split; [reflexivity|].
  exact (proj1 (getNextAuthIndex_follows
                  (initialWorld 9 [2; 4; 9] (fun _ _ => None) []) 2 Hnd eq_refl)).
Defined.

Section SwitchOutcomes.

(** X2: A rotation whose move to the next account succeeds returns
    [{success: true}] with the new index, is on that account, has both
    counters at 0 and both locks released, and launched the browser
    once. *)
Theorem switch_succeeds (w : World) (next : Z) :
  (2 <= List.length (availableIndices w))%nat ->
  isAuthSwitching (rh w) = false ->
  _getNextAuthIndex w = Some next ->
  launchOracle w (List.length (launchCalls w)) next = None ->
  exists w',
    _switchToNextAuth w = (Normal (SwitchSuccess next), w')
    /\ currentAuthIndex w' = next
    /\ failureCount (rh w') = 0
    /\ usageCount (rh w') = 0
    /\ isAuthSwitching (rh w') = false
    /\ isSystemBusy (rh w') = false
    /\ launchCalls w' = launchCalls w ++ [next].
Proof.
  intros Hlen Hsw Hnext Hok.
  destruct w as [h cur av orc lc sc con inb fw aw sl rs].
  destruct h as [fc uc sw busy needs].
  cbn [rh currentAuthIndex availableIndices launchOracle launchCalls
       isAuthSwitching] in *.
  subst sw.
  unfold _switchToNextAuth, resetCounters, switchAccount, launchOrSwitchContext.
  unfold_js. unfold_world. cbn.
  destruct (List.length av <=? 1)%nat eqn:E.
  { apply Nat.leb_le in E. lia. }
  unfold _getNextAuthIndex in *. cbn in *. rewrite Hnext. cbn.
  rewrite Hok. cbn.
  eexists. split; [reflexivity|]. cbn. repeat split; reflexivity.
Qed.

(** X3: While a switch is in progress another rotation is refused: nothing
    is launched and the handler, the current account and the response
    stay as they are. *)
Theorem switch_refused_while_switching (w : World) :
  (2 <= List.length (availableIndices w))%nat ->
  isAuthSwitching (rh w) = true ->
  exists w',
    _switchToNextAuth w = (Normal (SwitchRefused switchInProgress), w')
    /\ rh w' = rh w
    /\ currentAuthIndex w' = currentAuthIndex w
    /\ launchCalls w' = launchCalls w
    /\ res w' = res w.
Proof.
  intros Hlen Hsw.
  destruct w as [h cur av orc lc sc con inb fw aw sl rs].
  destruct h as [fc uc sw busy needs].
  cbn [rh availableIndices isAuthSwitching] in *. subst sw.
  unfold _switchToNextAuth. unfold_js. unfold_world. cbn.
  destruct (List.length av <=? 1)%nat eqn:E.
  { apply Nat.leb_le in E. lia. }
  eexists. split; [reflexivity|]. repeat split; reflexivity.
Qed.

(** X4: When the move to the next account and the move back both fail, the
    error of the move back is thrown; the counters and the current
    account index are as before, both locks are released, and the
    browser was launched twice. *)
Theorem switch_and_fallback_fail (w : World) (next : Z)
    (switchError fallbackError : jsstring) :
  (2 <= List.length (availableIndices w))%nat ->
  isAuthSwitching (rh w) = false ->
  _getNextAuthIndex w = Some next ->
  launchOracle w (List.length (launchCalls w)) next = Some switchError ->
  launchOracle w (S (List.length (launchCalls w))) (currentAuthIndex w)
    = Some fallbackError ->
  exists w',
    _switchToNextAuth w = (Throw fallbackError, w')
    /\ currentAuthIndex w' = currentAuthIndex w
    /\ failureCount (rh w') = failureCount (rh w)
    /\ usageCount (rh w') = usageCount (rh w)
    /\ isAuthSwitching (rh w') = false
    /\ isSystemBusy (rh w') = false
    /\ launchCalls w' = launchCalls w ++ [next; currentAuthIndex w].
Proof.
  intros Hlen Hsw Hnext Hfail Hback.
  destruct w as [h cur av orc lc sc con inb fw aw sl rs].
  destruct h as [fc uc sw busy needs].
  cbn [rh currentAuthIndex availableIndices launchOracle launchCalls
       isAuthSwitching failureCount usageCount] in *.
  subst sw.
  unfold _switchToNextAuth, resetCounters, switchAccount, launchOrSwitchContext.
  unfold_js. unfold_world. cbn.
  destruct (List.length av <=? 1)%nat eqn:E.
  { apply Nat.leb_le in E. lia. }
  unfold _getNextAuthIndex in *. cbn in *. rewrite Hnext. cbn.
  rewrite Hfail. cbn.
  rewrite length_app. cbn. rewrite Nat.add_1_r. rewrite Hback. cbn.
  eexists. split; [reflexivity|]. cbn.
  repeat split; auto. rewrite <- app_assoc. reflexivity.
Qed.

(** X5: A rotation that was started with the lock free and has come to
    its end, by returning or by throwing, has released the lock, and with
    two accounts or more the busy flag is down, whether its launches
    succeeded or threw; the list of usable accounts is as before.  (A
    launch that never settles is not represented: the rotation would
    stay pending, the locks held.) *)
Theorem switch_releases_locks
    (w : World) (c : Completion SwitchResult) (w' : World) :
  isAuthSwitching (rh w) = false ->
  _switchToNextAuth w = (c, w') ->
  isAuthSwitching (rh w') = false
  /\ ((2 <= List.length (availableIndices w))%nat -> isSystemBusy (rh w') = false)
  /\ availableIndices w' = availableIndices w.
Proof.
  intros Hsw.
  destruct w as [h cur av orc lc sc con inb fw aw sl rs].
  destruct h as [fc uc sw busy needs].
  cbn [rh isAuthSwitching availableIndices] in *. subst sw.
  unfold _switchToNextAuth, resetCounters, switchAccount, launchOrSwitchContext.
  run_js.
  destruct (List.length av <=? 1)%nat eqn:E.
  { apply Nat.leb_le in E. intros Hrun. inversion Hrun; subst. cbn.
    repeat split. intros; lia. }
  destruct (_getNextAuthIndex _) as [next|].
  - destruct (orc (List.length lc) next).
    + destruct (orc _ cur); intros Hrun; inversion Hrun; subst; cbn;
        repeat split.
    + intros Hrun; inversion Hrun; subst; cbn. repeat split.
  - destruct (orc _ cur); intros Hrun; inversion Hrun; subst; cbn;
      repeat split.
Qed.

End SwitchOutcomes.

Lemma switch_succeeds_witness :
  let w := set_rh (set_usageCount 40 (set_failureCount 2 newHandler))
             (initialWorld 1 [1; 2] (fun _ _ => None) []) in
  exists w',
    _switchToNextAuth w = (Normal (SwitchSuccess 2), w')
    /\ currentAuthIndex w' = 2
    /\ failureCount (rh w') = 0
    /\ usageCount (rh w') = 0.
Proof.
  cbv zeta.
  destruct (switch_succeeds
              (set_rh (set_usageCount 40 (set_failureCount 2 newHandler))
                 (initialWorld 1 [1; 2] (fun _ _ => None) [])) 2)
    as (w' & H1 & H2 & H3 & H4 & _).
  - simpl. lia.
  - reflexivity.
  - reflexivity.
  - reflexivity.
  - exists w'. repeat split; assumption.
Defined.

Lemma switch_refused_while_switching_witness :
  let w := set_rh (set_locks true true newHandler)
             (initialWorld 1 [1; 2] (fun _ _ => None) []) in
  exists w',
    _switchToNextAuth w = (Normal (SwitchRefused switchInProgress), w')
    /\ launchCalls w' = [].
Proof.
  cbv zeta.
  destruct (switch_refused_while_switching
              (set_rh (set_locks true true newHandler)
                 (initialWorld 1 [1; 2] (fun _ _ => None) [])))
    as (w' & H1 & _ & _ & H4 & _).
  - simpl. lia.
  - reflexivity.
  - exists w'. split; [exact H1 | exact H4].
Defined.

Lemma switch_and_fallback_fail_witness :
  let w := set_rh (set_failureCount 3 newHandler)
             (initialWorld 1 [1; 2] (fun _ _ => Some (lit "page crashed")) []) in
  exists w',
    _switchToNextAuth w = (Throw (lit "page crashed"), w')
    /\ currentAuthIndex w' = 1
    /\ failureCount (rh w') = 3
    /\ isAuthSwitching (rh w') = false.
Proof.
  cbv zeta.
  destruct (switch_and_fallback_fail
              (set_rh (set_failureCount 3 newHandler)
                 (initialWorld 1 [1; 2] (fun _ _ => Some (lit "page crashed")) []))
              2 (lit "page crashed") (lit "page crashed"))
    as (w' & H1 & H2 & H3 & _ & H5 & _).
  - simpl. lia.
  - reflexivity.
  - reflexivity.
  - reflexivity.
  - reflexivity.
  - exists w'. repeat split; assumption.
Defined.

Lemma switch_releases_locks_witness :
  let w := initialWorld 1 [1; 2] (fun _ _ => Some (lit "page crashed")) [] in
  isAuthSwitching (rh (snd (_switchToNextAuth w))) = false
  /\ isSystemBusy (rh (snd (_switchToNextAuth w))) = false.
Proof.
  cbv zeta.
  destruct (switch_releases_locks
              (initialWorld 1 [1; 2] (fun _ _ => Some (lit "page crashed")) [])
              (fst (_switchToNextAuth
                      (initialWorld 1 [1; 2]
                         (fun _ _ => Some (lit "page crashed")) [])))
              (snd (_switchToNextAuth
                      (initialWorld 1 [1; 2]
                         (fun _ _ => Some (lit "page crashed")) [])))
              eq_refl eq_refl) as (H1 & H2 & _).
  split; [exact H1 | apply H2; simpl; lia].
Defined.

(* ===================================================================== *)
(** ** Further properties of the failure counter *)
(* ===================================================================== *)

Section FailureCounter.

Variable cfg : Config.

Lemma handleFailure_below (e : Message) (withRes : bool) (w : World) :
  0 < failureThreshold cfg ->
  isImmediateSwitch cfg e = false ->
  failureCount (rh w) + 1 < failureThreshold cfg ->
  _handleRequestFailureAndSwitch cfg e withRes w =
    (Normal tt, set_rh (set_failureCount (failureCount (rh w) + 1) (rh w)) w).
Proof.
  intros Ht Himm Hlt.
  destruct w as [h cur av orc lc sc con inb fw aw sl rs].
  destruct h as [fc uc sw busy needs].
  cbn [rh failureCount] in *.
  unfold _handleRequestFailureAndSwitch.
  assert (E : (0 <? failureThreshold cfg) = true) by now apply Z.ltb_lt.
  rewrite E. run_js. rewrite Himm.
  unfold isThresholdReached. rewrite E.
  assert (E2 : (failureThreshold cfg <=? fc + 1) = false) by (apply Z.leb_gt; lia).
  rewrite E2. reflexivity.
Qed.

(** X6: Below the threshold a failure whose status does not switch at once
    is only counted: [k] such failures in a row add [k] to the failure
    counter and change nothing else, neither the account nor the
    response. *)
Theorem failures_below_threshold_only_count
    (e : Message) (withRes : bool) (k : nat) (w : World) :
  0 < failureThreshold cfg ->
  isImmediateSwitch cfg e = false ->
  failureCount (rh w) + Z.of_nat k < failureThreshold cfg ->
  failuresInARow cfg e withRes k w =
    (Normal tt,
     set_rh (set_failureCount (failureCount (rh w) + Z.of_nat k) (rh w)) w).
Proof.
  intros Ht Himm. revert w.
  induction k as [|k IH]; intros w Hlt.
  - cbn [failuresInARow]. unfold ret. f_equal.
    destruct w as [h cur av orc lc sc con inb fw aw sl rs].
    destruct h as [fc uc sw busy needs]. norm_world.
    rewrite Z.add_0_r. reflexivity.
  - cbn [failuresInARow]. unfold bind at 1.
    rewrite handleFailure_below by (try assumption; lia).
    rewrite IH.
    + f_equal.
      destruct w as [h cur av orc lc sc con inb fw aw sl rs].
      destruct h as [fc uc sw busy needs]. norm_world.
      do 2 f_equal. lia.
    + destruct w as [h cur av orc lc sc con inb fw aw sl rs].
      destruct h as [fc uc sw busy needs]. norm_world.
      cbn [rh failureCount] in Hlt. lia.
Qed.

(** X7: The failure that reaches the threshold moves the handler to the
    next account when that account launches: both counters are back at
    0, one launch was made, and a client that is still connected is
    sent one notice, which names the new account. *)
Theorem failure_at_threshold_rotates
    (e : Message) (withRes : bool) (w : World) (next : Z) :
  0 < failureThreshold cfg ->
  failureThreshold cfg <= failureCount (rh w) + 1 ->
  (2 <= List.length (availableIndices w))%nat ->
  isAuthSwitching (rh w) = false ->
  _getNextAuthIndex w = Some next ->
  launchOracle w (List.length (launchCalls w)) next = None ->
  exists w',
    _handleRequestFailureAndSwitch cfg e withRes w = (Normal tt, w')
    /\ currentAuthIndex w' = next
    /\ failureCount (rh w') = 0
    /\ usageCount (rh w') = 0
    /\ isAuthSwitching (rh w') = false
    /\ launchCalls w' = launchCalls w ++ [next]
    /\ written (res w') =
         written (res w) ++
         (if withRes && negb (writableEnded (res w))
          then [EvProxyError (TxtSwitchedBack next)] else []).
Proof.
  intros Ht Hge Hlen Hsw Hnext Hok.
  destruct w as [h cur av orc lc sc con inb fw aw sl rs].
  destruct h as [fc uc sw busy needs].
  destruct rs as [hs we stc pp wr].
  cbn [rh failureCount availableIndices isAuthSwitching launchOracle
       launchCalls] in *.
  subst sw.
  unfold _handleRequestFailureAndSwitch.
  assert (E : (0 <? failureThreshold cfg) = true) by now apply Z.ltb_lt.
  rewrite E.
  unfold _switchToNextAuth, resetCounters, switchAccount, launchOrSwitchContext.
  run_js.
  unfold isThresholdReached. rewrite E.
  assert (E2 : (failureThreshold cfg <=? fc + 1) = true) by (apply Z.leb_le; lia).
  rewrite E2, orb_true_r.
  destruct (List.length av <=? 1)%nat eqn:E3.
  { apply Nat.leb_le in E3. lia. }
  unfold _getNextAuthIndex in *. cbn [currentAuthIndex availableIndices] in *.
  rewrite Hnext, Hok.
  destruct withRes, we; cbn; eexists; (split; [reflexivity|]); cbn;
    repeat split; try reflexivity; now rewrite app_nil_r.
Qed.

(** X8: A failure that asks for a rotation while another switch is in
    progress launches nothing and leaves the account as it is; the
    failure stays counted, and a connected client is still sent the
    notice that names the current account. *)
Theorem failure_during_switch
    (e : Message) (withRes : bool) (w : World) :
  isImmediateSwitch cfg e
    || isThresholdReached cfg (countedFailures cfg w) = true ->
  (2 <= List.length (availableIndices w))%nat ->
  isAuthSwitching (rh w) = true ->
  exists w',
    _handleRequestFailureAndSwitch cfg e withRes w = (Normal tt, w')
    /\ currentAuthIndex w' = currentAuthIndex w
    /\ failureCount (rh w') = countedFailures cfg w
    /\ launchCalls w' = launchCalls w
    /\ written (res w') =
         written (res w) ++
         (if withRes && negb (writableEnded (res w))
          then [EvProxyError (TxtSwitchedBack (currentAuthIndex w))] else []).
Proof.
  intros Hentry Hlen Hsw.
  destruct w as [h cur av orc lc sc con inb fw aw sl rs].
  destruct h as [fc uc sw busy needs].
  destruct rs as [hs we stc pp wr].
  unfold countedFailures in *.
  cbn [rh failureCount availableIndices isAuthSwitching currentAuthIndex
       launchCalls res written writableEnded] in *.
  subst sw.
  unfold _handleRequestFailureAndSwitch, _switchToNextAuth.
  destruct (0 <? failureThreshold cfg) eqn:E; run_js.
  - rewrite Hentry.
    destruct (List.length av <=? 1)%nat eqn:E3.
    { apply Nat.leb_le in E3. lia. }
    destruct withRes, we; cbn; eexists; (split; [reflexivity|]); cbn;
      repeat split; try reflexivity; now rewrite app_nil_r.
  - rewrite Z.add_0_r in Hentry. rewrite Hentry.
    destruct (List.length av <=? 1)%nat eqn:E3.
    { apply Nat.leb_le in E3. lia. }
    destruct withRes, we; cbn; eexists; (split; [reflexivity|]); cbn;
      repeat split; try reflexivity; try lia; now rewrite app_nil_r.
Qed.

End FailureCounter.

Lemma failures_below_threshold_only_count_witness :
  failuresInARow (sampleConfig 1) (MsgError (Some 500) None) true 2
    (initialWorld 1 [1; 2] (fun _ _ => None) [])
  = (Normal tt,
     set_rh (set_failureCount 2 newHandler)
       (initialWorld 1 [1; 2] (fun _ _ => None) [])).
Proof.
  apply (failures_below_threshold_only_count (sampleConfig 1)
           (MsgError (Some 500) None) true 2
           (initialWorld 1 [1; 2] (fun _ _ => None) [])).
  - simpl. lia.
  - reflexivity.
  - simpl. lia.
Defined.

Lemma failure_at_threshold_rotates_witness :
  let w := set_rh (set_failureCount 2 newHandler)
             (initialWorld 1 [1; 2] (fun _ _ => None) []) in
  exists w',
    _handleRequestFailureAndSwitch (sampleConfig 1)
      (MsgError (Some 500) None) true w = (Normal tt, w')
    /\ currentAuthIndex w' = 2
    /\ failureCount (rh w') = 0
    /\ written (res w') = [EvProxyError (TxtSwitchedBack 2)].
Proof.
  cbv zeta.
  destruct (failure_at_threshold_rotates (sampleConfig 1)
              (MsgError (Some 500) None) true
              (set_rh (set_failureCount 2 newHandler)
                 (initialWorld 1 [1; 2] (fun _ _ => None) [])) 2)
    as (w' & H1 & H2 & H3 & _ & _ & _ & H7).
  - simpl. lia.
  - simpl. lia.
  - simpl. lia.
  - reflexivity.
  - reflexivity.
  - reflexivity.
  - exists w'. repeat split; assumption.
Defined.

Lemma failure_during_switch_witness :
  let w := set_rh (set_locks true true newHandler)
             (initialWorld 1 [1; 2] (fun _ _ => None) []) in
  exists w',
    _handleRequestFailureAndSwitch (sampleConfig 1)
      (MsgError (Some 429) None) true w = (Normal tt, w')
    /\ currentAuthIndex w' = 1
    /\ failureCount (rh w') = 1
    /\ launchCalls w' = []
    /\ written (res w') = [EvProxyError (TxtSwitchedBack 1)].
Proof.
  cbv zeta.
  destruct (failure_during_switch (sampleConfig 1)
              (MsgError (Some 429) None) true
              (set_rh (set_locks true true newHandler)
                 (initialWorld 1 [1; 2] (fun _ _ => None) [])))
    as (w' & H1 & H2 & H3 & H4 & H5).
  - reflexivity.
  - simpl. lia.
  - reflexivity.
  - exists w'. repeat split; assumption.
Defined.

(* ===================================================================== *)
(** ** Errors before the headers, and the accounting of successes *)
(* ===================================================================== *)

Section EarlyErrors.

Variable cfg : Config.

(** X9: An error that reaches [_handleRequestError] before the headers were
    sent is answered by one JSON error body and the response is ended:
    with status 504 when the message contains the word for a timeout,
    with status 500 otherwise.  The handler's counters and the account
    are not touched. *)
Theorem early_error_sends_json (error : jsstring) (w : World) :
  headersSent (res w) = false ->
  let status := if includes error timeoutWord then 504 else 500 in
  exists w',
    _handleRequestError cfg error w = (Normal tt, w')
    /\ statusCode (res w') = status
    /\ written (res w') =
         written (res w) ++ [EvErrorBody status (BodyProxyError error)]
    /\ writableEnded (res w') = true
    /\ headersSent (res w') = true
    /\ rh w' = rh w
    /\ launchCalls w' = launchCalls w.
Proof.
  intros Hsent. cbv zeta.
  destruct w as [h cur av orc lc sc con inb fw aw sl rs].
  destruct rs as [hs we st ps wr]. cbn in Hsent. subst hs.
  unfold _handleRequestError, _sendErrorResponse, res_send.
  run_js.
  destruct (includes error timeoutWord); cbn;
    eexists; (split; [reflexivity|]); cbn; repeat split; reflexivity.
Qed.

(** X10: A success that does not count (a request that is not generative)
    leaves the handler as it is.  One that counts puts a failure counter
    that is not negative back to 0 and, with rotation by use switched
    on, adds one use; the rotation after the request is flagged once the
    uses have reached [switchOnUses].  No account is switched by the
    accounting itself. *)
Theorem success_accounting (counts : bool) (w : World) :
  exists h,
    accountSuccess cfg counts w = (Normal tt, set_rh h w)
    /\ (counts = false -> h = rh w)
    /\ (counts = true ->
        (0 <= failureCount (rh w) -> failureCount h = 0)
        /\ usageCount h =
             (if 0 <? switchOnUses cfg then usageCount (rh w) + 1
              else usageCount (rh w))
        /\ needsSwitchingAfterRequest h =
             needsSwitchingAfterRequest (rh w)
             || ((0 <? switchOnUses cfg)
                 && (switchOnUses cfg <=? usageCount (rh w) + 1))
        /\ isAuthSwitching h = isAuthSwitching (rh w)
        /\ isSystemBusy h = isSystemBusy (rh w)).
Proof.
  destruct w as [h cur av orc lc sc con inb fw aw sl rs].
  destruct h as [fc uc sw busy needs].
  unfold accountSuccess.
  destruct counts.
  - destruct (0 <? fc) eqn:E1; destruct (0 <? switchOnUses cfg) eqn:E2;
      run_js; cbn [andb]; rewrite ?E1, ?E2; run_js; cbn [andb];
      rewrite ?E1, ?E2; run_js;
      try (destruct (switchOnUses cfg <=? uc + 1) eqn:E3);
      eexists; (split; [reflexivity|]); cbn;
      (split; [discriminate|]); intros _;
      rewrite ?orb_true_r, ?orb_false_r;
      repeat split; try reflexivity;
      try (apply Z.ltb_ge in E1; intros; lia).
  - run_js. cbn [andb]. rewrite ?andb_false_r. run_js.
    eexists. split; [reflexivity|]. split; [reflexivity|discriminate].
Qed.


(** Below [switchOnUses] the end of a request starts no rotation: the
    use is counted and the account stays. *)
Lemma use_below_threshold_keeps_account (w : World) :
  0 < switchOnUses cfg ->
  usageCount (rh w) + 1 < switchOnUses cfg ->
  needsSwitchingAfterRequest (rh w) = false ->
  exists w',
    (accountSuccess cfg true ;; rotateAfterRequest) w = (Normal tt, w')
    /\ currentAuthIndex w' = currentAuthIndex w
    /\ usageCount (rh w') = usageCount (rh w) + 1
    /\ launchCalls w' = launchCalls w
    /\ switchCalls w' = switchCalls w.
Proof.
  intros Hpos Hlt Hn.
  destruct w as [h cur av orc lc sc con inb fw aw sl rs].
  destruct h as [fc uc sw busy needs].
  cbn [rh usageCount needsSwitchingAfterRequest] in *. subst needs.
  unfold accountSuccess, rotateAfterRequest.
  assert (E2 : (0 <? switchOnUses cfg) = true) by now apply Z.ltb_lt.
  assert (E3 : (switchOnUses cfg <=? uc + 1) = false) by (apply Z.leb_gt; lia).
  destruct (0 <? fc) eqn:E1;
    run_js; cbn [andb]; rewrite ?E1, ?E2; run_js; cbn [andb];
    rewrite ?E1, ?E2; run_js; rewrite E3; run_js;
    eexists; (split; [reflexivity|]); cbn; repeat split; reflexivity.
Qed.

End EarlyErrors.

Lemma early_error_sends_json_witness :
  exists w',
    _handleRequestError (sampleConfig 1) queueTimeout
      (initialWorld 1 [1; 2] (fun _ _ => None) []) = (Normal tt, w')
    /\ statusCode (res w') = 500
    /\ written (res w') = [EvErrorBody 500 (BodyProxyError queueTimeout)]
    /\ writableEnded (res w') = true.
Proof.
  destruct (early_error_sends_json (sampleConfig 1) queueTimeout
              (initialWorld 1 [1; 2] (fun _ _ => None) []) eq_refl)
    as (w' & H1 & H2 & H3 & H4 & _).
  exists w'. repeat split; assumption.
Defined.


Lemma use_below_threshold_keeps_account_witness :
  exists w',
    (accountSuccess (sampleConfig 1) true ;; rotateAfterRequest)
      (initialWorld 1 [1; 2] (fun _ _ => None) []) = (Normal tt, w')
    /\ currentAuthIndex w' = 1
    /\ usageCount (rh w') = 1
    /\ launchCalls w' = [].
Proof.
  destruct (use_below_threshold_keeps_account (sampleConfig 1)
              (initialWorld 1 [1; 2] (fun _ _ => None) []))
    as (w' & H1 & H2 & H3 & H4 & _).
  - simpl. lia.
  - simpl. lia.
  - reflexivity.
  - exists w'. repeat split; assumption.
Defined.

(* ===================================================================== *)
(** ** The native real stream *)
(* ===================================================================== *)

Section NativeRealStream.

Variable cfg : Config.
Variable p : ProxyRequest.

Lemma accountSuccess_rh (counts : bool) (w w0 : World) :
  rh w0 = rh w ->
  exists h,
    accountSuccess cfg counts w = (Normal tt, set_rh h w)
    /\ accountSuccess cfg counts w0 = (Normal tt, set_rh h w0)
    /\ isAuthSwitching h = isAuthSwitching (rh w)
    /\ (failureCount h = failureCount (rh w) \/ failureCount h = 0).
Proof.
  intros Hrh.
  destruct w as [h cur av orc lc sc con inb fw aw sl rs].
  destruct w0 as [h0 cur0 av0 orc0 lc0 sc0 con0 inb0 fw0 aw0 sl0 rs0].
  cbn in Hrh. subst h0.
  destruct h as [fc uc sw busy needs].
  unfold accountSuccess.
  destruct counts.
  - destruct (0 <? fc) eqn:E1; destruct (0 <? switchOnUses cfg) eqn:E2;
      run_js; cbn [andb]; rewrite ?E1, ?E2; run_js; cbn [andb];
      rewrite ?E1, ?E2; run_js;
      try (destruct (switchOnUses cfg <=? uc + 1) eqn:E3);
      eexists; (split; [reflexivity|]); (split; [reflexivity|]);
      cbn; split; auto.
  - run_js. cbn [andb]. rewrite ?andb_false_r. run_js.
    eexists. split; [reflexivity|]. split; [reflexivity|]. cbn. auto.
Qed.

Lemma writeAll_facts (events : list ClientEvent) :
  forall r : Response,
    written (writeAll events r) = written r ++ events
    /\ writableEnded (writeAll events r) = writableEnded r
    /\ statusCode (writeAll events r) = statusCode r
    /\ proxyPseudoStream (writeAll events r) = proxyPseudoStream r.
Proof.
  unfold writeAll.
  induction events as [|ev events IH]; intros r; cbn [fold_left].
  - rewrite app_nil_r. repeat split.
  - destruct (IH (res_write ev r)) as (H1 & H2 & H3 & H4).
    rewrite H1, H2, H3, H4. cbn. rewrite <- app_assoc. repeat split.
Qed.



End NativeRealStream.

Section NativeRealStreamHandler.

Variable cfg : Config.
Variable p : ProxyRequest.



End NativeRealStreamHandler.

Section NativeRealStreamErrors.

Variable cfg : Config.
Variable p : ProxyRequest.

(** X13: When the first message of a native real stream is an error that is
    no user abort and whose status (500 when it has none) is a valid
    status code, the failure is handed to the failure handler (which
    may rotate, and writes nothing) and the client gets one JSON error
    body under that status; the response is ended. *)
Theorem real_stream_first_error_reported
    (w : World) (header : Message) (rest : list Arrival) :
  connected w = true ->
  headersSent (res w) = false ->
  isErrorEvent header = true ->
  isUserAbort header = false ->
  validStatusCode (statusOr 500 (msgStatus header)) = true ->
  inbox w = Arrives header :: rest ->
  let status := statusOr 500 (msgStatus header) in
  exists w',
    _handleRealStreamResponse cfg p w = (Normal tt, w')
    /\ written (res w') =
         written (res w) ++ [EvErrorBody status (BodyUpstream (msgMessage header))]
    /\ statusCode (res w') = status
    /\ writableEnded (res w') = true
    /\ forwarded w' = forwarded w ++ [p]
    /\ inbox w' = rest
    /\ switchCalls w' =
         (if isImmediateSwitch cfg header
             || isThresholdReached cfg (countedFailures cfg w)
          then S (switchCalls w) else switchCalls w).
Proof.
  intros Hcon Hsent Hhdr Habort Hvalid Hin. cbv zeta.
  destruct w as [h cur av orc lc sc con inb fw aw sl rs].
  destruct rs as [hs we st ps wr].
  cbn in Hcon, Hsent, Hin. subst con hs inb.
  unfold statusOr in *.
  unfold _handleRealStreamResponse.
  unfold bind at 1. unfold _forwardRequest at 1. run_js.
  rewrite Hhdr, Habort.
  match goal with
  | |- context [_handleRequestFailureAndSwitch cfg header false ?w0] =>
      destruct (handleFailure_null_res cfg header w0)
        as (w1 & Hrun & (Hf & Hi & Ha & Hsl & Hc) & Hres);
      pose proof (handleFailure_switchCalls cfg header false w0) as Hsw
  end.
  rewrite Hrun in Hsw. rewrite Hrun. cbv beta iota.
  unfold _sendErrorResponse, res_send. unfold_js. cbv beta iota.
  rewrite Hres. cbn [res headersSent negb]. rewrite Hvalid.
  eexists. split; [reflexivity|].
  cbn in Hf, Hi, Hsw |- *. unfold countedFailures in *. cbn in Hsw |- *.
  rewrite Hres, Hf, Hi, Hsw. cbn. repeat split; reflexivity.
Qed.

(** X14: When the first message of a native real stream reports a user
    abort, the response is ended with nothing written; the handler's
    counters are as before and no rotation starts. *)
Theorem real_stream_abort_not_counted
    (w : World) (header : Message) (rest : list Arrival) :
  connected w = true ->
  isErrorEvent header = true ->
  isUserAbort header = true ->
  inbox w = Arrives header :: rest ->
  exists w',
    _handleRealStreamResponse cfg p w = (Normal tt, w')
    /\ rh w' = rh w
    /\ written (res w') = written (res w)
    /\ writableEnded (res w') = true
    /\ forwarded w' = forwarded w ++ [p]
    /\ switchCalls w' = switchCalls w
    /\ launchCalls w' = launchCalls w.
Proof.
  intros Hcon Hhdr Habort Hin.
  destruct w as [h cur av orc lc sc con inb fw aw sl rs].
  destruct rs as [hs we st ps wr].
  cbn in Hcon, Hin. subst con inb.
  unfold _handleRealStreamResponse.
  unfold bind at 1. unfold _forwardRequest at 1. run_js.
  rewrite Hhdr, Habort. run_js.
  destruct we; cbn; eexists; (split; [reflexivity|]); cbn;
    repeat split; reflexivity.
Qed.

(** Without a browser connection the native real stream forwards
    nothing and waits for nothing: the error of the missing connection
    is thrown to the caller. *)
Lemma real_stream_without_connection (w : World) :
  connected w = false ->
  _handleRealStreamResponse cfg p w = (Throw noConnectionError, w).
Proof.
  intros Hcon.
  destruct w as [h cur av orc lc sc con inb fw aw sl rs].
  cbn in Hcon. subst con.
  unfold _handleRealStreamResponse. run_js. reflexivity.
Qed.

End NativeRealStreamErrors.


Lemma real_stream_first_error_reported_witness :
  let w := initialWorld 1 [1; 2] (fun _ _ => None)
             [Arrives (MsgError (Some 400) (Some (lit "Bad request")))] in
  exists w',
    _handleRealStreamResponse (sampleConfig 1) sampleRealRequest w
      = (Normal tt, w')
    /\ written (res w') =
         [EvErrorBody 400 (BodyUpstream (Some (lit "Bad request")))]
    /\ statusCode (res w') = 400
    /\ writableEnded (res w') = true.
Proof.
  cbv zeta.
  destruct (real_stream_first_error_reported (sampleConfig 1) sampleRealRequest
              (initialWorld 1 [1; 2] (fun _ _ => None)
                 [Arrives (MsgError (Some 400) (Some (lit "Bad request")))])
              (MsgError (Some 400) (Some (lit "Bad request"))) [])
    as (w' & H1 & H2 & H3 & H4 & _);
    try reflexivity.
  exists w'. repeat split; assumption.
Defined.

Lemma real_stream_abort_not_counted_witness :
  let w := initialWorld 1 [1; 2] (fun _ _ => None)
             [Arrives (MsgError (Some 500)
                         (Some (lit "The user aborted a request.")))] in
  exists w',
    _handleRealStreamResponse (sampleConfig 1) sampleRealRequest w
      = (Normal tt, w')
    /\ rh w' = newHandler
    /\ written (res w') = []
    /\ writableEnded (res w') = true.
Proof.
  cbv zeta.
  destruct (real_stream_abort_not_counted (sampleConfig 1) sampleRealRequest
              (initialWorld 1 [1; 2] (fun _ _ => None)
                 [Arrives (MsgError (Some 500)
                             (Some (lit "The user aborted a request.")))])
              (MsgError (Some 500) (Some (lit "The user aborted a request."))) [])
    as (w' & H1 & H2 & H3 & H4 & _);
    try reflexivity.
  exists w'. repeat split; assumption.
Defined.

(* ===================================================================== *)
(** ** The OpenAI real stream *)
(* ===================================================================== *)

Section OpenAIRealStream.

Variable js : Builtins.
Variable cfg : Config.
Variable p : ProxyRequest.

Lemma writeAll_app (e1 e2 : list ClientEvent) (r : Response) :
  writeAll (e1 ++ e2) r = writeAll e2 (writeAll e1 r).
Proof. unfold writeAll. apply fold_left_app. Qed.

Lemma translatedEvents_app (a b : list jsstring) :
  forall events,
    translatedEvents js (a ++ b) = Some events ->
    exists e1 e2,
      translatedEvents js a = Some e1
      /\ translatedEvents js b = Some e2
      /\ events = e1 ++ e2.
Proof.
  induction a as [|x a IH]; intros events H; cbn [app translatedEvents] in *.
  - exists [], events. auto.
  - destruct (_translateGoogleToOpenAIStream js x) as [[chunk|]|];
      try discriminate;
      destruct (translatedEvents js (a ++ b)) as [evs|] eqn:E;
      try discriminate; injection H as <-;
      destruct (IH evs eq_refl) as (e1 & e2 & -> & -> & ->);
      eexists; eexists; repeat split; reflexivity.
Qed.

Lemma emitPayloads_run (payloads : list jsstring) :
  forall (events : list ClientEvent) (w : World),
    translatedEvents js payloads = Some events ->
    writableEnded (res w) = false ->
    emitPayloads js payloads w
    = (Normal tt, set_res (writeAll events (res w)) w).
Proof.
  induction payloads as [|x payloads IH]; intros events w H Hopen;
    destruct w as [h cur av orc lc sc con inb fw aw sl rs];
    destruct rs as [hs we st ps wr]; cbn in Hopen; subst we;
    cbn [emitPayloads translatedEvents] in *.
  - inversion H; subst. reflexivity.
  - destruct (_translateGoogleToOpenAIStream js x) as [[chunk|]|];
      try discriminate;
      destruct (translatedEvents js payloads) as [evs|] eqn:E;
      try discriminate; injection H as <-;
      unfold orTypeError; run_js;
      (rewrite (IH evs); [| reflexivity | reflexivity]);
      norm_world; unfold writeAll; cbn [fold_left]; reflexivity.
Qed.

Lemma openAIStreamLoop_run (rest : list Arrival) (chunks : list jsstring) :
  forall (sseBuffer : jsstring) (rounds : nat) (w : World)
         (events : list ClientEvent),
    (List.length chunks < rounds)%nat ->
    inbox w = chunkArrivals chunks ++ Arrives MsgStreamEnd :: rest ->
    writableEnded (res w) = false ->
    translatedEvents js (reframeFrom sseBuffer chunks) = Some events ->
    openAIStreamLoop js cfg rounds sseBuffer w =
      (Normal tt,
       set_res (writeAll (events ++ [EvDone]) (res w))
         (set_queue rest
            (awaited w ++ repeat (Some 300000) (S (List.length chunks))) w)).
Proof.
  induction chunks as [|data chunks IH];
    intros sseBuffer rounds w events Hfuel Hin Hopen Hev;
    (destruct rounds as [|rounds]; [cbn in Hfuel; lia|]);
    destruct w as [h cur av orc lc sc con inb fw aw sl rs];
    destruct rs as [hs we st ps wr];
    cbn in Hin, Hopen; subst inb we.
  - cbn [chunkArrivals map app openAIStreamLoop reframeFrom List.length repeat]
      in *.
    run_js. cbn [isStreamEnd]. run_js.
    rewrite (emitPayloads_run _ events) by (try exact Hev; reflexivity).
    run_js.
    pose proof (writeAll_facts events
                  {| headersSent := hs; writableEnded := false;
                     statusCode := st; proxyPseudoStream := ps;
                     written := wr |}) as (_ & He & _ & _).
    rewrite writeAll_app.
    revert He.
    match goal with
    | |- context [writeAll events ?r0] =>
        destruct (writeAll events r0) as [hs' we' st' ps' wr']
    end.
    cbn [writableEnded]. intros ->. reflexivity.
  - cbn [chunkArrivals map app openAIStreamLoop reframeFrom List.length] in *.
    destruct (feedChunk sseBuffer data) as [payloads left] eqn:Hfeed.
    destruct (translatedEvents_app payloads (reframeFrom left chunks) events Hev)
      as (e1 & e2 & He1 & He2 & ->).
    run_js. cbn [isStreamEnd isErrorEvent msgData]. cbv iota.
    rewrite Hfeed. run_js.
    rewrite (emitPayloads_run _ e1) by (try exact He1; reflexivity).
    cbv beta iota.
    pose proof (writeAll_facts e1
                  {| headersSent := hs; writableEnded := false;
                     statusCode := st; proxyPseudoStream := ps;
                     written := wr |}) as (_ & He & _ & _).
    rewrite (IH left rounds _ e2);
      [ | lia | reflexivity | exact He | exact He2 ].
    norm_world. cbn [repeat]. rewrite <- !app_assoc, !writeAll_app.
    reflexivity.
Qed.

(** X15: An OpenAI real stream whose first message is no error answers with
    status 200 and writes, for the chunks that follow up to the end of
    the stream, what the translator makes of each event that the
    re-framing of these chunks hands on, in order, and then the
    sentinel; this when the translator throws on none of them.  The
    response is left open for the caller to end, and no rotation
    starts. *)
Theorem openai_real_stream_translates
    (w : World) (first : Message) (chunks : list jsstring)
    (rest : list Arrival) (events : list ClientEvent) :
  connected w = true ->
  writableEnded (res w) = false ->
  isErrorEvent first = false ->
  inbox w = Arrives first :: chunkArrivals chunks
              ++ Arrives MsgStreamEnd :: rest ->
  translatedEvents js (reframe chunks) = Some events ->
  exists w',
    _handleOpenAIRealStreamResponse js cfg p w = (Normal tt, w')
    /\ written (res w') = written (res w) ++ events ++ [EvDone]
    /\ statusCode (res w') = 200
    /\ writableEnded (res w') = false
    /\ forwarded w' = forwarded w ++ [p]
    /\ inbox w' = rest
    /\ switchCalls w' = switchCalls w
    /\ launchCalls w' = launchCalls w.
Proof.
  intros Hcon Hopen Hfirst Hin Hev.
  destruct w as [h cur av orc lc sc con inb fw aw sl rs].
  destruct rs as [hs we st ps wr].
  cbn in Hcon, Hopen, Hin. subst con we inb.
  unfold _handleOpenAIRealStreamResponse.
  unfold bind at 1. unfold _forwardRequest at 1. run_js.
  rewrite Hfirst.
  match goal with
  | |- context [accountSuccess cfg true ?w0] =>
      destruct (accountSuccess_rh cfg true w0 w0 eq_refl)
        as (h' & Hacc & _ & _ & _)
  end.
  rewrite Hacc. clear Hacc. run_js.
  rewrite (openAIStreamLoop_run rest chunks [] _ _ events);
    [ | rewrite length_app; unfold chunkArrivals; rewrite length_map;
        cbn [List.length]; lia
      | reflexivity | reflexivity | exact Hev ].
  norm_world.
  match goal with
  | |- context [writeAll (events ++ [EvDone]) ?r0] =>
      pose proof (writeAll_facts (events ++ [EvDone]) r0) as (Hw & He & Hs & _);
      revert Hw He Hs;
      destruct (writeAll (events ++ [EvDone]) r0) as [hs' we' st' ps' wr']
  end.
  cbn [written writableEnded statusCode]. intros -> -> ->.
  eexists. split; [reflexivity|]. cbn. repeat split; reflexivity.
Qed.

End OpenAIRealStream.

Lemma openai_real_stream_translates_witness :
  let chunks := [lit "data: " ++ sampleDocument; [LF; LF]] in
  let w := initialWorld 1 [1; 2] (fun _ _ => None)
             (Arrives (MsgHeaders (Some 200)) :: chunkArrivals chunks
                ++ [Arrives MsgStreamEnd]) in
  exists w',
    _handleOpenAIRealStreamResponse sampleEngine (sampleConfig 1)
      sampleRealRequest w = (Normal tt, w')
    /\ written (res w') =
         [EvOpenAIChunk (Some (lit "Hi")) (Some (JStr (lit "STOP"))); EvDone]
    /\ statusCode (res w') = 200
    /\ writableEnded (res w') = false.
Proof.
  cbv zeta.
  destruct (openai_real_stream_translates sampleEngine (sampleConfig 1)
              sampleRealRequest
              (initialWorld 1 [1; 2] (fun _ _ => None)
                 (Arrives (MsgHeaders (Some 200))
                    :: chunkArrivals [lit "data: " ++ sampleDocument; [LF; LF]]
                    ++ [Arrives MsgStreamEnd]))
              (MsgHeaders (Some 200))
              [lit "data: " ++ sampleDocument; [LF; LF]] []
              [EvOpenAIChunk (Some (lit "Hi")) (Some (JStr (lit "STOP")))])
    as (w' & H1 & H2 & H3 & H4 & _);
    try reflexivity.
  exists w'. repeat split; assumption.
Defined.

Lemma reframe_fragmentation_independent_witness :
  reframe [lit "data: one" ++ [LF]; [LF]; lit "data: two" ++ [LF; LF]]
  = reframe [lit "data: one" ++ [LF] ++ [LF] ++ lit "data: two" ++ [LF; LF]].
Proof.
  apply (reframe_fragmentation_independent
           [lit "data: one" ++ [LF]; [LF]; lit "data: two" ++ [LF; LF]]).
  repeat constructor.
Defined.

(* ===================================================================== *)
(** ** Switching by hand *)
(* ===================================================================== *)

Section ManualSwitch.

Variable js : Builtins.

Lemma existsb_eqb_In (x : Z) (l : list Z) :
  existsb (Z.eqb x) l = true <-> In x l.
Proof.
  rewrite existsb_exists. split.
  - intros (y & Hin & Heq). apply Z.eqb_eq in Heq. now subst.
  - intros Hin. exists x. split; [assumption | apply Z.eqb_refl].
Qed.

(** X18: A switch to a given account is refused, and nothing at all is
    changed or launched, while another switch is in progress and when
    the account is not among the usable ones. *)
Theorem specific_switch_refused (target : Z) (w : World) :
  isAuthSwitching (rh w) = true \/ ~ In target (availableIndices w) ->
  exists reason,
    _switchToSpecificAuth js target w = (Normal (SwitchRefused reason), w).
Proof.
  intros Hwhy.
  destruct w as [h cur av orc lc sc con inb fw aw sl rs].
  destruct h as [fc uc sw busy needs].
  cbn [rh isAuthSwitching availableIndices] in Hwhy.
  unfold _switchToSpecificAuth. run_js.
  destruct sw.
  - eexists. reflexivity.
  - destruct Hwhy as [Hsw|Hnot]; [discriminate|].
    destruct (existsb (Z.eqb target) av) eqn:E.
    + apply existsb_eqb_In in E. contradiction.
    + eexists. reflexivity.
Qed.

(** X19: A switch to a usable account launches that account once.  When the
    launch succeeds the account is current and both counters are 0;
    when it throws, the error is thrown on and the current account and
    the counters stay: no other account is tried.  The locks are
    released either way. *)
Theorem specific_switch_launches_once (target : Z) (w : World) :
  isAuthSwitching (rh w) = false ->
  In target (availableIndices w) ->
  exists c w',
    _switchToSpecificAuth js target w = (c, w')
    /\ launchCalls w' = launchCalls w ++ [target]
    /\ isAuthSwitching (rh w') = false
    /\ isSystemBusy (rh w') = false
    /\ match launchOracle w (List.length (launchCalls w)) target with
       | None =>
           c = Normal (SwitchSuccess target)
           /\ currentAuthIndex w' = target
           /\ failureCount (rh w') = 0
           /\ usageCount (rh w') = 0
       | Some error =>
           c = Throw error
           /\ currentAuthIndex w' = currentAuthIndex w
           /\ failureCount (rh w') = failureCount (rh w)
           /\ usageCount (rh w') = usageCount (rh w)
       end.
Proof.
  intros Hsw Hin.
  destruct w as [h cur av orc lc sc con inb fw aw sl rs].
  destruct h as [fc uc sw busy needs].
  cbn [rh isAuthSwitching availableIndices launchOracle launchCalls
       currentAuthIndex failureCount usageCount] in *.
  subst sw. apply existsb_eqb_In in Hin.
  unfold _switchToSpecificAuth, resetCounters, switchAccount,
    launchOrSwitchContext.
  run_js. rewrite Hin. run_js.
  destruct (orc (List.length lc) target) as [error|]; cbn;
    eexists; eexists; (split; [reflexivity|]); cbn; repeat split; reflexivity.
Qed.

Lemma switch_handler_answers (targetIndex : option Z) (w : World) :
  exists status reply w',
    switchAccountHandler js targetIndex w = (Normal (status, reply), w')
    /\ In status [200; 400; 409; 500]
    /\ (targetIndex = None ->
        (List.length (availableIndices w) <= 1)%nat ->
        status = 400 /\ reply = ReplyOnlyOneAccount /\ w' = w)
    /\ (status = 200 ->
        (reply = ReplyActivated (currentAuthIndex w')
         \/ reply = ReplySwitched (currentAuthIndex w')
         \/ reply = ReplyFellBack (currentAuthIndex w'))
        /\ failureCount (rh w') = 0
        /\ usageCount (rh w') = 0).
Proof.
  destruct w as [h cur av orc lc sc con inb fw aw sl rs].
  destruct h as [fc uc sw busy needs].
  unfold switchAccountHandler, _switchToSpecificAuth, _switchToNextAuth,
    resetCounters, switchAccount, launchOrSwitchContext.
  destruct targetIndex as [target|]; run_js.
  - destruct sw; run_js.
    { do 3 eexists. split; [reflexivity|]. cbn.
      split; [auto|]. split; [discriminate|]. intros H; discriminate. }
    destruct (existsb (Z.eqb target) av); run_js.
    2:{ do 3 eexists. split; [reflexivity|]. cbn.
        split; [auto|]. split; [discriminate|]. intros H; discriminate. }
    destruct (orc (List.length lc) target) as [error|]; run_js;
      do 3 eexists; (split; [reflexivity|]); cbn;
      (split; [auto 6|]); (split; [discriminate|]);
      intros H; try discriminate; auto.
  - destruct (List.length av <=? 1)%nat eqn:E; run_js.
    { do 3 eexists. split; [reflexivity|]. cbn.
      split; [auto|]. split; [auto|]. intros H; discriminate. }
    rewrite E. apply Nat.leb_gt in E. run_js.
    destruct sw; run_js.
    { do 3 eexists. split; [reflexivity|]. cbn.
      split; [auto 6|]. split; [intros _ Hle; lia|]. intros H; discriminate. }
    destruct (_getNextAuthIndex _) as [next|]; run_js.
    + destruct (orc (List.length lc) next) as [error|]; run_js.
      * rewrite length_app. cbn [List.length]. rewrite Nat.add_1_r.
        destruct (orc (S (List.length lc)) cur) as [error2|]; run_js;
          do 3 eexists; (split; [reflexivity|]); cbn;
          (split; [auto 6|]); (split; [intros _ Hle; lia|]);
          intros H; try discriminate; auto.
      * do 3 eexists. split; [reflexivity|]. cbn.
        split; [auto 6|]. split; [intros _ Hle; lia|]. auto.
    + destruct (orc (List.length lc) cur) as [error2|]; run_js;
        do 3 eexists; (split; [reflexivity|]); cbn;
        (split; [auto 6|]); (split; [intros _ Hle; lia|]);
        intros H; try discriminate; auto.
Qed.

(** X20: The route for switching by hand always answers.  A request
    whose session is not authenticated is redirected to the login page
    (302) and nothing is changed.  For an authenticated session: with
    one usable account and no target the answer is 400 and nothing is
    called; an answer of 200 names the account that is current
    afterwards, the counters being 0; every other answer is 400, 409 or
    500. *)
Theorem switch_route_answers
    (sessionAuthenticated : bool) (targetIndex : option Z) (w : World) :
  exists status reply w',
    switchAccountRoute js sessionAuthenticated targetIndex w
    = (Normal (status, reply), w')
    /\ In status [200; 302; 400; 409; 500]
    /\ (status = 302 <-> sessionAuthenticated = false)
    /\ (sessionAuthenticated = false ->
        reply = ReplyRedirect (lit "/login") /\ w' = w)
    /\ (sessionAuthenticated = true ->
        targetIndex = None ->
        (List.length (availableIndices w) <= 1)%nat ->
        status = 400 /\ reply = ReplyOnlyOneAccount /\ w' = w)
    /\ (status = 200 ->
        (reply = ReplyActivated (currentAuthIndex w')
         \/ reply = ReplySwitched (currentAuthIndex w')
         \/ reply = ReplyFellBack (currentAuthIndex w'))
        /\ failureCount (rh w') = 0
        /\ usageCount (rh w') = 0).
Proof.
  destruct sessionAuthenticated.
  - destruct (switch_handler_answers targetIndex w)
      as (status & reply & w' & Hrun & Hst & Hone & Hok).
    exists status, reply, w'. split; [exact Hrun|].
    split; [cbn in Hst |- *; intuition|].
    split; [split; [intros ->; cbn in Hst; intuition discriminate
                   | discriminate]|].
    split; [discriminate|]. split; [intros _; exact Hone | exact Hok].
  - exists 302, (ReplyRedirect (lit "/login")), w.
    split; [reflexivity|]. cbn. split; [auto|].
    split; [split; auto|]. split; [auto|].
    split; [discriminate|]. intros H; discriminate.
Qed.

End ManualSwitch.

Lemma specific_switch_refused_witness :
  exists reason,
    _switchToSpecificAuth sampleEngine 7
      (initialWorld 1 [1; 2] (fun _ _ => None) [])
    = (Normal (SwitchRefused reason),
       initialWorld 1 [1; 2] (fun _ _ => None) []).
Proof.
  apply (specific_switch_refused sampleEngine 7
           (initialWorld 1 [1; 2] (fun _ _ => None) [])).
  right. simpl. intros [H|[H|H]]; [discriminate | discriminate | exact H].
Defined.

Lemma specific_switch_launches_once_witness :
  let w := set_rh (set_failureCount 2 newHandler)
             (initialWorld 1 [1; 2] (fun _ _ => Some (lit "page crashed")) []) in
  exists c w',
    _switchToSpecificAuth sampleEngine 2 w = (c, w')
    /\ launchCalls w' = [2]
    /\ c = Throw (lit "page crashed")
    /\ currentAuthIndex w' = 1
    /\ failureCount (rh w') = 2.
Proof.
  cbv zeta.
  destruct (specific_switch_launches_once sampleEngine 2
              (set_rh (set_failureCount 2 newHandler)
                 (initialWorld 1 [1; 2]
                    (fun _ _ => Some (lit "page crashed")) [])))
    as (c & w' & H1 & H2 & _ & _ & H5).
  - reflexivity.
  - simpl. auto.
  - cbn in H5. destruct H5 as (H5 & H6 & H7 & _).
    exists c, w'. repeat split; assumption.
Defined.

(* ===================================================================== *)
(** ** Start of the server system *)
(* ===================================================================== *)

Section Startup.

Lemma filter_other_Permutation (x : Z) (l : list Z) :
  NoDup l -> In x l ->
  Permutation (x :: filter (fun i => negb (Z.eqb i x)) l) l.
Proof.
  induction l as [|y l IH]; intros Hnd Hin; [contradiction|].
  inversion Hnd as [|? ? Hnot Hnd']; subst.
  cbn [filter]. destruct (Z.eqb_spec y x) as [->|Hne]; cbn [negb].
  - constructor.
    assert (Hall : forall i, In i l -> negb (Z.eqb i x) = true).
    { intros i Hi. destruct (Z.eqb_spec i x) as [->|]; [contradiction|reflexivity]. }
    clear -Hall. induction l as [|z l IH]; [constructor|].
    cbn [filter]. rewrite (Hall z) by now left.
    constructor. apply IH. intros i Hi. apply Hall. now right.
  - destruct Hin as [Heq|Hin]; [congruence|].
    etransitivity; [apply perm_swap|]. constructor. now apply IH.
Qed.

(** X21: The startup order tries every usable account once: it is a
    rearrangement of the usable accounts.  A requested account that is
    usable and not 0 comes first, the others keeping their order;
    without such a request the order is that of the usable accounts. *)
Theorem startupOrder_rearranges (all : list Z) (initial : option Z) :
  NoDup all ->
  Permutation (startupOrder all initial) all
  /\ (forall i, initial = Some i -> i <> 0 -> In i all ->
      startupOrder all initial
      = i :: filter (fun j => negb (Z.eqb j i)) all)
  /\ (forall i, initial = Some i -> i = 0 \/ ~ In i all ->
      startupOrder all initial = all)
  /\ (initial = None -> startupOrder all initial = all).
Proof.
  intros Hnd. unfold startupOrder.
  destruct initial as [i|]; [|repeat split; try reflexivity; discriminate].
  destruct (Z.eqb_spec i 0) as [->|Hne]; cbn [negb andb].
  - repeat split; try reflexivity; try discriminate.
    intros j Hj Hne. inversion Hj; subst. congruence.
  - destruct (existsb (Z.eqb i) all) eqn:E.
    + apply existsb_eqb_In in E. repeat split; try discriminate.
      * now apply filter_other_Permutation.
      * intros j Hj _ _. inversion Hj; subst. reflexivity.
      * intros j Hj [H0|Hnot]; inversion Hj; subst;
          [congruence | contradiction].
    + repeat split; try reflexivity; try discriminate.
      intros j Hj _ Hin. inversion Hj; subst.
      apply existsb_eqb_In in Hin. congruence.
Qed.

Lemma tryAccounts_all_fail (order : list Z) :
  forall w : World,
    allLaunchesFail (launchOracle w) (List.length (launchCalls w)) order = true ->
    tryAccounts order w
    = (Normal false,
       set_launched (launchCalls w ++ order) (currentAuthIndex w) w).
Proof.
  induction order as [|index rest IH]; intros w Hall;
    destruct w as [h cur av orc lc sc con inb fw aw sl rs];
    cbn [launchOracle launchCalls allLaunchesFail tryAccounts] in *;
    unfold set_launched.
  - run_js. rewrite app_nil_r. reflexivity.
  - destruct (orc (List.length lc) index) as [e|] eqn:E; [|discriminate].
    unfold launchOrSwitchContext. run_js. rewrite E. run_js.
    rewrite IH.
    + unfold set_launched. run_js. rewrite <- app_assoc. reflexivity.
    + cbn [launchOracle launchCalls]. rewrite length_app. cbn [List.length].
      rewrite Nat.add_1_r. exact Hall.
Qed.

Lemma tryAccounts_first_success (failed : list Z) (index : Z) (rest : list Z) :
  forall w : World,
    allLaunchesFail (launchOracle w) (List.length (launchCalls w)) failed = true ->
    launchOracle w (List.length (launchCalls w) + List.length failed) index
      = None ->
    tryAccounts (failed ++ index :: rest) w
    = (Normal true,
       set_launched (launchCalls w ++ failed ++ [index]) index w).
Proof.
  induction failed as [|x failed IH]; intros w Hall Hok;
    destruct w as [h cur av orc lc sc con inb fw aw sl rs];
    cbn [launchOracle launchCalls allLaunchesFail tryAccounts app
         List.length] in *;
    unfold set_launched.
  - rewrite Nat.add_0_r in Hok.
    unfold launchOrSwitchContext. run_js. rewrite Hok. run_js. reflexivity.
  - destruct (orc (List.length lc) x) as [e|] eqn:E; [|discriminate].
    unfold launchOrSwitchContext. run_js. rewrite E. run_js.
    rewrite IH.
    + unfold set_launched. run_js. rewrite <- app_assoc. reflexivity.
    + cbn [launchOracle launchCalls]. rewrite length_app. cbn [List.length].
      rewrite Nat.add_1_r. exact Hall.
    + cbn [launchOracle launchCalls]. rewrite length_app. cbn [List.length].
      rewrite Nat.add_1_r. cbn [Nat.add]. rewrite <- plus_n_Sm in Hok.
      exact Hok.
Qed.

(** X22: The server system starts on the first account of the startup order
    that launches: the accounts before it were launched once each, in
    order, and the ones after it are not touched. *)
Theorem start_uses_first_account_that_launches
    (initial : option Z) (w : World)
    (failed : list Z) (index : Z) (rest : list Z) :
  startupOrder (availableIndices w) initial = failed ++ index :: rest ->
  allLaunchesFail (launchOracle w) (List.length (launchCalls w)) failed = true ->
  launchOracle w (List.length (launchCalls w) + List.length failed) index
    = None ->
  exists w',
    start initial w = (Normal tt, w')
    /\ currentAuthIndex w' = index
    /\ launchCalls w' = launchCalls w ++ failed ++ [index].
Proof.
  intros Horder Hall Hok.
  assert (Hne : Nat.eqb (List.length (availableIndices w)) 0 = false).
  { apply Nat.eqb_neq. intros Hz. apply length_zero_iff_nil in Hz.
    rewrite Hz in Horder. unfold startupOrder in Horder.
    destruct initial as [i|]; [rewrite andb_false_r in Horder|];
      now destruct failed. }
  unfold start. unfold bind at 1. unfold gets at 1. rewrite Hne.
  unfold bind at 1. rewrite Horder.
  rewrite (tryAccounts_first_success failed index rest w Hall Hok).
  eexists. split; [reflexivity|]. split; reflexivity.
Qed.

(** X23: When every account of the startup order fails to launch, the start
    throws after one launch of each account, in that order; with no
    usable account it throws at once. *)
Theorem start_fails_when_no_account_launches
    (initial : option Z) (w : World) :
  allLaunchesFail (launchOracle w) (List.length (launchCalls w))
    (startupOrder (availableIndices w) initial) = true ->
  exists w',
    start initial w
    = (Throw (if Nat.eqb (List.length (availableIndices w)) 0
              then noAuthSourceError else allSourcesFailedError), w')
    /\ launchCalls w' =
         launchCalls w ++ startupOrder (availableIndices w) initial
    /\ currentAuthIndex w' = currentAuthIndex w.
Proof.
  intros Hall.
  unfold start. unfold bind at 1. unfold gets at 1.
  destruct (Nat.eqb (List.length (availableIndices w)) 0) eqn:Hz.
  - apply Nat.eqb_eq in Hz. apply length_zero_iff_nil in Hz.
    exists w. split; [reflexivity|]. rewrite Hz. unfold startupOrder.
    destruct initial as [i|]; [rewrite andb_false_r|];
      rewrite app_nil_r; split; reflexivity.
  - unfold bind at 1.
    rewrite (tryAccounts_all_fail _ w Hall).
    eexists. split; [reflexivity|]. split; reflexivity.
Qed.

End Startup.

(* ===================================================================== *)
(** ** The model identifier in the path of a native request *)
(* ===================================================================== *)

Section ModelPath.

Variable uri : UriCodec.
Variable cfg : Config.

Lemma jsstring_eqb_eq (s t : jsstring) : JS.eqb s t = true <-> s = t.
Proof.
  revert t. induction s as [|c s IH]; intros [|d t]; cbn;
    try (split; [discriminate | intros H; discriminate]);
    try (split; reflexivity).
  rewrite andb_true_iff, N.eqb_eq, IH. split.
  - intros [-> ->]. reflexivity.
  - intros H. inversion H. auto.
Qed.

Lemma find_prefix (path base : jsstring) :
  find (fun prefix => startsWith path prefix) modelPathPrefixes = Some base ->
  In base modelPathPrefixes /\ exists remainder, path = base ++ remainder.
Proof.
  intros H. apply find_some in H. destruct H as [Hin Hst].
  split; [exact Hin|]. now apply startsWith_app.
Qed.

(** X24: What [_extractModelPathInfo] returns takes the path apart: the path
    is the base path, the encoded model segment and the suffix, one after
    the other; the base path is one of the two model prefixes, the
    segment is not empty and holds no colon, and the decoded identifier
    is the decoding of the segment, or the segment itself when it cannot
    be decoded. *)
Theorem extractModelPathInfo_decomposes (path : jsstring) (info : ModelPathInfo) :
  _extractModelPathInfo uri cfg path = Some info ->
  path = basePath info ++ encodedModelSegment info ++ suffix info
  /\ In (basePath info) modelPathPrefixes
  /\ encodedModelSegment info <> []
  /\ ~ In 58%N (encodedModelSegment info)
  /\ decodedModelId info =
       match decodeURIComponent uri (encodedModelSegment info) with
       | Some decoded => decoded
       | None => encodedModelSegment info
       end.
Proof.
  unfold _extractModelPathInfo.
  destruct (find _ modelPathPrefixes) as [base|] eqn:Hfind; [|discriminate].
  destruct (find_prefix path base Hfind) as [Hin [remainder ->]].
  assert (Hskip : sliceFrom (List.length base) (base ++ remainder) = remainder)
    by apply skipn_prefix.
  cbv zeta. rewrite !Hskip.
  destruct (nonEmpty remainder) eqn:Hrem; [|discriminate]. cbn [negb].
  match goal with
  | |- context [sliceTo ?n remainder] => set (splitIndex := n)
  end.
  destruct (nonEmpty (sliceTo splitIndex remainder)) eqn:Hseg; [|discriminate].
  cbn [negb]. intros H. inversion H; subst; clear H.
  cbn [basePath encodedModelSegment suffix decodedModelId].
  unfold sliceTo, sliceFrom in *. rewrite firstn_skipn.
  split; [reflexivity|]. split; [exact Hin|].
  split; [now destruct (firstn splitIndex remainder)|].
  split; [|reflexivity].
  intros Hcolon.
  assert (Hno : forall (s : jsstring) (n : nat),
             In 58%N (firstn n s) ->
             exists i, indexOf s (lit ":") = Some i /\ (i < n)%nat).
  { clear.
    assert (Hst : forall (c : N) (s : jsstring),
               startsWith (c :: s) (lit ":") = N.eqb c 58).
    { intros c s. cbn. apply andb_true_r. }
    induction s as [|c s IH]; intros n Hin.
    - destruct n; contradiction.
    - destruct n as [|n]; [contradiction|]. cbn [firstn] in Hin.
      rewrite indexOf_cons, Hst.
      destruct (N.eqb_spec c 58) as [->|Hne].
      + exists 0%nat. split; [reflexivity | lia].
      + destruct Hin as [Heq|Hin]; [now subst|].
        destruct (IH n Hin) as (i & -> & Hi). exists (S i).
        split; [reflexivity | lia]. }
  destruct (Hno remainder splitIndex Hcolon) as (i & Hi & Hlt).
  subst splitIndex. rewrite Hi in Hlt. lia.
Qed.

End ModelPath.

Section NativeMixMode.

Variable uri : UriCodec.
Variable cfg : Config.

Lemma find_base (base rest : jsstring) :
  In base modelPathPrefixes ->
  find (fun prefix => startsWith (base ++ rest) prefix) modelPathPrefixes
  = Some base.
Proof.
  intros [<-|[<-|[]]]; reflexivity.
Qed.

Lemma extract_model_segment (base seg action : jsstring) :
  In base modelPathPrefixes ->
  seg <> [] ->
  ~ In 58%N seg ->
  _extractModelPathInfo uri cfg (base ++ seg ++ lit ":" ++ action)
  = Some {| basePath := base;
            encodedModelSegment := seg;
            suffix := lit ":" ++ action;
            decodedModelId := match decodeURIComponent uri seg with
                              | Some decoded => decoded
                              | None => seg
                              end |}.
Proof.
  intros Hbase Hseg Hcolon.
  unfold _extractModelPathInfo. rewrite (find_base _ _ Hbase).
  assert (Hskip : sliceFrom (List.length base)
                    (base ++ seg ++ lit ":" ++ action)
                  = seg ++ lit ":" ++ action) by apply skipn_prefix.
  cbv zeta. rewrite !Hskip.
  assert (Hne : nonEmpty (seg ++ lit ":" ++ action) = true)
    by (destruct seg; [contradiction | reflexivity]).
  rewrite Hne. cbn [negb].
  assert (Hidx : indexOf (seg ++ lit ":" ++ action) (lit ":")
                 = Some (List.length seg)).
  { apply (indexOf_after seg action [] 58%N).
    intros d Hd ->. contradiction. }
  rewrite Hidx.
  assert (Hto : sliceTo (List.length seg) (seg ++ lit ":" ++ action) = seg).
  { unfold sliceTo. rewrite firstn_app, Nat.sub_diag, firstn_all.
    cbn [firstn]. apply app_nil_r. }
  assert (Hfrom : sliceFrom (List.length seg) (seg ++ lit ":" ++ action)
                  = lit ":" ++ action) by apply skipn_prefix.
  rewrite Hto, Hfrom.
  destruct seg; [contradiction | reflexivity].
Qed.

(** X25: Under [mix], a native request that names a model whose decoded
    identifier starts with the reserved prefix is sent on with the
    prefix taken out of its path, and is served as a pseudo-stream; a
    request whose identifier does not start with it keeps its path and
    is served as a real stream. *)
Theorem native_path_mix_mode (base seg action decoded : jsstring) :
  streamingMode cfg = ModeMix ->
  In base modelPathPrefixes ->
  seg <> [] ->
  ~ In 58%N seg ->
  decodeURIComponent uri seg = Some decoded ->
  let path := base ++ seg ++ lit ":" ++ action in
  (forall model encoded,
      decoded = fakeStreamPrefix ++ model ->
      model <> [] ->
      encodeURIComponent uri model = Some encoded ->
      exists context,
        _normalizeModelIdentifierInPath uri cfg path
        = Some (Some context, base ++ encoded ++ lit ":" ++ action)
        /\ requestedModel context = decoded
        /\ normalizedModel context = model
        /\ _resolveStreamingModeForRequest cfg (Some context) = ModeFake)
  /\ (startsWith decoded fakeStreamPrefix = false ->
      exists context,
        _normalizeModelIdentifierInPath uri cfg path
        = Some (Some context, path)
        /\ requestedModel context = decoded
        /\ normalizedModel context = decoded
        /\ _resolveStreamingModeForRequest cfg (Some context) = ModeReal).
Proof.
  intros Hmix Hbase Hseg Hcolon Hdec. cbv zeta.
  unfold _normalizeModelIdentifierInPath, _isMixStreamingEnabled,
    _resolveStreamingModeForRequest.
  rewrite Hmix. cbn [negb].
  rewrite (extract_model_segment base seg action Hbase Hseg Hcolon), Hdec.
  cbn [decodedModelId basePath suffix].
  unfold _stripFakeStreamPrefix, _isFakeStreamModelId. split.
  - intros model encoded -> Hmodel Henc.
    assert (Hst : startsWith (fakeStreamPrefix ++ model) fakeStreamPrefix = true)
      by (apply startsWith_app; now exists model).
    rewrite Hst. cbn [negb]. unfold sliceFrom. rewrite skipn_prefix.
    destruct model as [|c model]; [contradiction|]. cbn [nonEmpty].
    rewrite Henc. eexists. split; [reflexivity|]. cbn. auto.
  - intros Hst. rewrite Hst. eexists. split; [reflexivity|]. cbn. auto.
Qed.

(** Outside [mix] the path of a native request is never rewritten. *)
Lemma native_path_kept_outside_mix (path : jsstring) :
  streamingMode cfg <> ModeMix ->
  _normalizeModelIdentifierInPath uri cfg path = Some (None, path)
  /\ _resolveStreamingModeForRequest cfg None = streamingMode cfg.
Proof.
  intros Hmode.
  unfold _normalizeModelIdentifierInPath, _isMixStreamingEnabled,
    _resolveStreamingModeForRequest.
  destruct (streamingMode cfg); try contradiction; split; reflexivity.
Qed.

Lemma withoutTrailingSlash_cases (path : jsstring) :
  (path = withoutTrailingSlash path
   /\ forall s, path <> s ++ [47%N])
  \/ path = withoutTrailingSlash path ++ [47%N].
Proof.
  unfold withoutTrailingSlash.
  destruct (rev path) as [|c r] eqn:Hrev.
  - left. split; [reflexivity|]. intros s ->.
    rewrite rev_app_distr in Hrev. discriminate.
  - assert (Hpath : path = rev r ++ [c]).
    { rewrite <- (rev_involutive path), Hrev. reflexivity. }
    destruct (N.eqb_spec c 47) as [->|Hne].
    + right. rewrite Hpath at 1. rewrite Hpath, removelast_last. reflexivity.
    + left. split; [reflexivity|]. intros s Hs. rewrite Hs in Hpath.
      apply app_inj_tail in Hpath. destruct Hpath as [_ Hc]. congruence.
Qed.

(** X26: The paths that list the models are the two listing paths, each with
    or without one slash at its end, and no other; none of them names a
    model. *)
Theorem isModelListingPath_exactly (path : jsstring) :
  (_isModelListingPath path = true <->
   In path [lit "/v1/models"; lit "/v1/models/";
            lit "/v1beta/models"; lit "/v1beta/models/"])
  /\ (_isModelListingPath path = true ->
      _extractModelPathInfo uri cfg path = None).
Proof.
  assert (Hiff : _isModelListingPath path = true <->
                 In path [lit "/v1/models"; lit "/v1/models/";
                          lit "/v1beta/models"; lit "/v1beta/models/"]).
  { split.
    - unfold _isModelListingPath. cbv zeta.
      rewrite orb_true_iff, !jsstring_eqb_eq.
      destruct (withoutTrailingSlash_cases path) as [[Hsame _]|Hslash].
      + rewrite <- Hsame. intros [-> | ->]; cbn; auto.
      + intros [H|H]; rewrite H in Hslash; subst path; cbn; auto.
    - intros [<-|[<-|[<-|[<-|[ ] ] ] ] ]; reflexivity. }
  split; [exact Hiff|].
  intros H. apply Hiff in H.
  destruct H as [<-|[<-|[<-|[<-|[ ] ] ] ] ]; reflexivity.
Qed.

End NativeMixMode.

(* ===================================================================== *)
(** ** Translation of native response chunks *)
(* ===================================================================== *)

Section ChunkTranslation.

Variable js : Builtins.

Lemma join_empty_separator (parts : list jsstring) :
  join [] parts = List.concat parts.
Proof.
  induction parts as [|p parts IH]; [reflexivity|].
  cbn [join List.concat]. destruct parts as [|q parts].
  - cbn. now rewrite app_nil_r.
  - rewrite IH. reflexivity.
Qed.

Lemma findInlineData_skips (before more : list json) (found : option json) :
  Forall hasNoImage before ->
  findInlineData more = Some found ->
  findInlineData (before ++ more) = Some found.
Proof.
  intros Hbefore H. induction Hbefore as [|part before [Hnull Hno] _ IH];
    [exact H|].
  cbn [app findInlineData]. rewrite Hno.
  destruct part; try exact IH. contradiction.
Qed.

Lemma textPart_hasNoImage (part : json) (text : jsstring) :
  isTextPart part text -> hasNoImage part.
Proof.
  intros [Htext Hno]. split; [|exact Hno].
  intros ->. discriminate.
Qed.

Lemma joinValues_texts (parts : list json) (texts : list jsstring) :
  Forall2 isTextPart parts texts ->
  joinValues js [] (map (prop "text") parts) = Some (List.concat texts).
Proof.
  intros H. unfold joinValues.
  assert (Hs : sequence (map (joinElement js) (map (prop "text") parts))
               = Some texts).
  { induction H as [|part text parts texts [Htext _] _ IH]; [reflexivity|].
    cbn [map sequence]. rewrite Htext, IH. reflexivity. }
  rewrite Hs. cbn [option_map]. now rewrite join_empty_separator.
Qed.

Lemma translate_first_candidate
    (googleChunk : jsstring) (googleResponse candidate : json)
    (parts : list json) :
  nonEmpty (trim googleChunk) = true ->
  JSON_parse js googleChunk = Some googleResponse ->
  firstCandidateParts googleResponse candidate parts ->
  _translateGoogleToOpenAIStream js googleChunk
  = match (match findInlineData parts with
           | None => None
           | Some (Some imagePart) => markdownImage js imagePart
           | Some None => joinValues js [] (map (prop "text") parts)
           end) with
    | Some content =>
        Some (Some (EvOpenAIChunk (Some content)
                      (if truthy (prop "finishReason" candidate)
                       then prop "finishReason" candidate else None)))
    | None => None
    end.
Proof.
  intros Hblank Hparse (others & content & Hcands & Hcontent & Hparts).
  unfold _translateGoogleToOpenAIStream.
  assert (Hne : nonEmpty googleChunk = true).
  { destruct googleChunk; [discriminate|reflexivity]. }
  rewrite Hne, Hblank, Hparse. cbn [negb orb].
  assert (Hget : getProp "candidates" (Some googleResponse)
                 = Some (Some (JArr (candidate :: others)))).
  { destruct googleResponse; try discriminate. cbn [getProp].
    now rewrite Hcands. }
  rewrite Hget. cbv zeta. cbn [index0Opt nth_error].
  assert (Hobj : exists fields, candidate = JObj fields).
  { destruct candidate; try discriminate. eexists; reflexivity. }
  destruct Hobj as [fields ->].
  assert (Hobj : exists fields', content = JObj fields').
  { destruct content; try discriminate. eexists; reflexivity. }
  destruct Hobj as [fields' ->].
  cbn [truthy negb]. unfold candidateContent.
  cbn [truthy getPropOpt andb]. rewrite Hcontent. cbn [truthy getPropOpt].
  rewrite Hparts. cbn [isArray].
  reflexivity.
Qed.

(** X27: A chunk whose first candidate holds text parts only is translated
    to one OpenAI chunk: its content is the texts put one after the
    other with nothing in between, and its finish reason is that of the
    candidate, [null] when the candidate has none.  The response, the
    candidate, its content and the parts may hold any further field. *)
Theorem text_chunk_translation
    (googleChunk : jsstring) (googleResponse candidate : json)
    (parts : list json) (texts : list jsstring) :
  nonEmpty (trim googleChunk) = true ->
  JSON_parse js googleChunk = Some googleResponse ->
  firstCandidateParts googleResponse candidate parts ->
  Forall2 isTextPart parts texts ->
  _translateGoogleToOpenAIStream js googleChunk
  = Some (Some (EvOpenAIChunk (Some (List.concat texts))
                  (if truthy (prop "finishReason" candidate)
                   then prop "finishReason" candidate else None))).
Proof.
  intros Hblank Hparse Hfirst Htexts.
  rewrite (translate_first_candidate _ _ _ _ Hblank Hparse Hfirst).
  assert (Hfind : findInlineData parts = Some None).
  { rewrite <- (app_nil_r parts). apply findInlineData_skips; [|reflexivity].
    clear -Htexts. induction Htexts as [|part text parts texts H _ IH];
      constructor; [eapply textPart_hasNoImage; exact H | exact IH]. }
  rewrite Hfind, (joinValues_texts parts texts Htexts). reflexivity.
Qed.

(** X28: When a part of the first candidate carries an inline image, the
    chunk is translated to the markdown of the first such image alone:
    the texts of the other parts are not in the content.  The response,
    the candidate, its content and the parts may hold any further
    field. *)
Theorem image_chunk_translation
    (googleChunk : jsstring) (googleResponse candidate : json)
    (before : list json) (imagePart : json) (after : list json)
    (mimeType data : jsstring) :
  nonEmpty (trim googleChunk) = true ->
  JSON_parse js googleChunk = Some googleResponse ->
  firstCandidateParts googleResponse candidate (before ++ imagePart :: after) ->
  Forall hasNoImage before ->
  isImagePart imagePart mimeType data ->
  _translateGoogleToOpenAIStream js googleChunk
  = Some (Some (EvOpenAIChunk
                  (Some (lit "![Generated Image](data:" ++ mimeType
                         ++ lit ";base64," ++ data ++ lit ")"))
                  (if truthy (prop "finishReason" candidate)
                   then prop "finishReason" candidate else None))).
Proof.
  intros Hblank Hparse Hfirst Hbefore (image & Hinline & Htruthy & Hmime & Hdata).
  rewrite (translate_first_candidate _ _ _ _ Hblank Hparse Hfirst).
  assert (Hfind : findInlineData (before ++ imagePart :: after)
                  = Some (Some imagePart)).
  { apply findInlineData_skips; [exact Hbefore|].
    cbn [findInlineData]. rewrite Hinline, Htruthy.
    destruct imagePart; try reflexivity. discriminate. }
  rewrite Hfind. unfold markdownImage. cbv zeta.
  rewrite Hinline, Hmime, Hdata. reflexivity.
Qed.

End ChunkTranslation.

(* ===================================================================== *)
(** ** The API-key middleware *)
(* ===================================================================== *)

Section ApiKeys.

Variable serverApiKeys : list jsstring.
Hypothesis keysConfigured : serverApiKeys <> [].

Lemma keys_length : Nat.eqb (List.length serverApiKeys) 0 = false.
Proof. destruct serverApiKeys; [contradiction | reflexivity]. Qed.

Lemma existsb_key_In (key : jsstring) :
  existsb (JS.eqb key) serverApiKeys = true <-> In key serverApiKeys.
Proof.
  rewrite existsb_exists. split.
  - intros (k & Hin & Heq). apply jsstring_eqb_eq in Heq. now subst.
  - intros Hin. exists key. split; [assumption | now apply jsstring_eqb_eq].
Qed.

(** X29: With keys configured, a request is passed on exactly when the one
    credential the middleware settles on is a configured key that is not
    empty; it is then passed on without its query key, the headers being
    as they came.  Every other request is answered 401. *)
Theorem authMiddleware_admits (req : KeyedRequest) :
  (forall req',
      authMiddleware serverApiKeys req = PassedOn req' ->
      (exists key, clientKey req = Some key /\ key <> []
                   /\ In key serverApiKeys)
      /\ present (queryKey req') = false
      /\ xGoogApiKey req' = xGoogApiKey req
      /\ authorization req' = authorization req
      /\ xApiKey req' = xApiKey req)
  /\ ((exists key, clientKey req = Some key /\ key <> []
                   /\ In key serverApiKeys) ->
      exists req', authMiddleware serverApiKeys req = PassedOn req')
  /\ (forall status,
         authMiddleware serverApiKeys req = Denied status -> status = 401).
Proof.
  unfold authMiddleware. rewrite keys_length.
  destruct (clientKey req) as [key|] eqn:Hkey; cbn [present].
  - destruct (nonEmpty key) eqn:Hne; cbn [andb].
    + destruct (existsb (JS.eqb key) serverApiKeys) eqn:Hin.
      * apply existsb_key_In in Hin. split; [|split].
        -- intros req' H. inversion H; subst; clear H. cbn.
           split; [exists key; repeat split; auto; now destruct key|].
           destruct (queryKey req) as [[|c q]|]; repeat split; reflexivity.
        -- intros _. eexists. reflexivity.
        -- intros status H. discriminate.
      * split; [|split].
        -- intros req' H. discriminate.
        -- intros (k & Hk & _ & Hk'). inversion Hk; subst.
           apply existsb_key_In in Hk'. congruence.
        -- intros status H. now inversion H.
    + split; [|split].
      * intros req' H. discriminate.
      * intros (k & Hk & Hk' & _). inversion Hk; subst.
        destruct k; [contradiction | discriminate].
      * intros status H. now inversion H.
  - split; [|split].
    + intros req' H. discriminate.
    + intros (k & Hk & _). discriminate.
    + intros status H. now inversion H.
Qed.

(** X30: Only the first credential present counts: a request whose
    [x-goog-api-key] header is present and is no configured key is
    denied whatever its other headers and its query hold, and so is one
    without that header whose [Authorization] header is a bearer token
    that is no configured key. *)
Theorem authMiddleware_first_credential_only (req : KeyedRequest) :
  (forall key, xGoogApiKey req = Some key -> key <> [] ->
               ~ In key serverApiKeys ->
               authMiddleware serverApiKeys req = Denied 401)
  /\ (forall token, present (xGoogApiKey req) = false ->
                    authorization req = Some (lit "Bearer " ++ token) ->
                    ~ In token serverApiKeys ->
                    authMiddleware serverApiKeys req = Denied 401).
Proof.
  unfold authMiddleware. rewrite keys_length. split.
  - intros key Hkey Hne Hnot. unfold clientKey. rewrite Hkey.
    destruct key as [|c key]; [contradiction|]. cbn [present nonEmpty andb].
    destruct (existsb (JS.eqb (c :: key)) serverApiKeys) eqn:E;
      [|reflexivity].
    apply existsb_key_In in E. contradiction.
  - intros token Hgoog Hauth Hnot. unfold clientKey. rewrite Hgoog, Hauth.
    assert (Hst : startsWith (lit "Bearer " ++ token) (lit "Bearer ") = true)
      by (apply startsWith_app; now exists token).
    rewrite Hst. cbn [present option_map].
    change (nonEmpty (lit "Bearer " ++ token)) with true. cbn [andb].
    change (sliceFrom 7 (lit "Bearer " ++ token)) with token.
    cbn [present].
    destruct (nonEmpty token); cbn [andb]; [|reflexivity].
    destruct (existsb (JS.eqb token) serverApiKeys) eqn:E; [|reflexivity].
    apply existsb_key_In in E. contradiction.
Qed.

End ApiKeys.

Section OpenAIRealStreamErrors.

Variable js : Builtins.
Variable cfg : Config.
Variable p : ProxyRequest.

(** X16: When the first message of an OpenAI real stream is an error, the
    failure is handed to the failure handler and the response is closed
    by the sentinel: the client is sent the notices of a rotation, if one
    was started, and the sentinel, under the status the response had;
    the message of the error itself is not sent.  A failure that starts
    no rotation leaves the client with the sentinel alone. *)
Theorem openai_real_stream_first_error
    (w : World) (first : Message) (rest : list Arrival) :
  connected w = true ->
  writableEnded (res w) = false ->
  isErrorEvent first = true ->
  inbox w = Arrives first :: rest ->
  (exists w' notices,
      _handleOpenAIRealStreamResponse js cfg p w = (Normal tt, w')
      /\ written (res w') = written (res w) ++ notices ++ [EvDone]
      /\ Forall isNotice notices
      /\ writableEnded (res w') = true
      /\ forwarded w' = forwarded w ++ [p]
      /\ inbox w' = rest)
  /\ (0 < failureThreshold cfg ->
      isImmediateSwitch cfg first = false ->
      failureCount (rh w) + 1 < failureThreshold cfg ->
      exists w',
        _handleOpenAIRealStreamResponse js cfg p w = (Normal tt, w')
        /\ written (res w') = written (res w) ++ [EvDone]
        /\ statusCode (res w') = statusCode (res w)
        /\ failureCount (rh w') = failureCount (rh w) + 1).
Proof.
  intros Hcon Hopen Hfirst Hin.
  destruct w as [h cur av orc lc sc con inb fw aw sl rs].
  destruct rs as [hs we st ps wr].
  cbn in Hcon, Hopen, Hin. subst con we inb.
  unfold _handleOpenAIRealStreamResponse.
  unfold bind at 1. unfold _forwardRequest at 1. run_js.
  rewrite Hfirst. split.
  - match goal with
    | |- context [_handleRequestFailureAndSwitch cfg first true ?w0] =>
        destruct (handleFailure_frame cfg first true w0)
          as (w1 & Hrun & (Hf & Hi & _) & (He & _ & _ & notices & Hw & Hn) & _)
    end.
    rewrite Hrun. clear Hrun.
    destruct w1 as [h1 cur1 av1 orc1 lc1 sc1 con1 inb1 fw1 aw1 sl1 rs1].
    destruct rs1 as [hs1 we1 st1 ps1 wr1].
    cbn in Hf, Hi, He, Hw. subst fw1 inb1 we1 wr1.
    run_js.
    eexists. exists notices. split; [reflexivity|]. cbn.
    rewrite <- app_assoc. repeat split; auto.
  - intros Hpos Himm Hlt.
    rewrite (handleFailure_below cfg first true) by assumption.
    run_js. eexists. split; [reflexivity|]. cbn. repeat split; reflexivity.
Qed.

End OpenAIRealStreamErrors.

Lemma startupOrder_rearranges_witness :
  Permutation (startupOrder [1; 2; 3] (Some 3)) [1; 2; 3]
  /\ startupOrder [1; 2; 3] (Some 3) = [3; 1; 2].
Proof.
  assert (Hnd : NoDup [1; 2; 3]).
  { repeat constructor; cbn; intuition discriminate. }
  destruct (startupOrder_rearranges [1; 2; 3] (Some 3) Hnd) as (H1 & _).
  split; [exact H1 | reflexivity].
Defined.

Lemma start_uses_first_account_that_launches_witness :
  let w := initialWorld 0 [1; 2; 3]
             (fun n _ => if Nat.eqb n 0 then Some (lit "no session") else None)
             [] in
  exists w',
    start (Some 2) w = (Normal tt, w')
    /\ currentAuthIndex w' = 1
    /\ launchCalls w' = [2; 1].
Proof.
  cbv zeta.
  apply (start_uses_first_account_that_launches (Some 2)
           (initialWorld 0 [1; 2; 3]
              (fun n _ => if Nat.eqb n 0 then Some (lit "no session") else None)
              [])
           [2] 1 [3]); reflexivity.
Defined.

Lemma start_fails_when_no_account_launches_witness :
  let w := initialWorld 0 [1; 2] (fun _ _ => Some (lit "no session")) [] in
  exists w',
    start None w = (Throw allSourcesFailedError, w')
    /\ launchCalls w' = [1; 2]
    /\ currentAuthIndex w' = 0.
Proof.
  cbv zeta.
  apply (start_fails_when_no_account_launches None
           (initialWorld 0 [1; 2] (fun _ _ => Some (lit "no session")) [])).
  reflexivity.
Defined.

Lemma extractModelPathInfo_decomposes_witness :
  let path := lit "/v1beta/models/gemini-pro:generateContent" in
  let info := {| basePath := lit "/v1beta/models/";
                 encodedModelSegment := lit "gemini-pro";
                 suffix := lit ":generateContent";
                 decodedModelId := lit "gemini-pro" |} in
  _extractModelPathInfo sampleCodec (sampleConfig 1) path = Some info
  /\ path = basePath info ++ encodedModelSegment info ++ suffix info.
Proof.
  cbv zeta.
  assert (H : _extractModelPathInfo sampleCodec (sampleConfig 1)
                (lit "/v1beta/models/gemini-pro:generateContent")
              = Some {| basePath := lit "/v1beta/models/";
                        encodedModelSegment := lit "gemini-pro";
                        suffix := lit ":generateContent";
                        decodedModelId := lit "gemini-pro" |})
    by reflexivity.
  split; [exact H|].
  exact (proj1 (extractModelPathInfo_decomposes sampleCodec (sampleConfig 1)
                  _ _ H)).
Defined.

Lemma native_path_mix_mode_witness :
  exists context,
    _normalizeModelIdentifierInPath sampleCodec (sampleConfig 1)
      (lit "/v1beta/models/" ++ (fakeStreamPrefix ++ lit "gemini-pro")
         ++ lit ":" ++ lit "streamGenerateContent")
    = Some (Some context,
            lit "/v1beta/models/" ++ lit "gemini-pro"
              ++ lit ":" ++ lit "streamGenerateContent")
    /\ requestedModel context = fakeStreamPrefix ++ lit "gemini-pro"
    /\ normalizedModel context = lit "gemini-pro"
    /\ _resolveStreamingModeForRequest (sampleConfig 1) (Some context)
       = ModeFake.
Proof.
  assert (Hseg : ~ In 58%N (fakeStreamPrefix ++ lit "gemini-pro")).
  { cbn. intuition discriminate. }
  apply (proj1 (native_path_mix_mode sampleCodec (sampleConfig 1)
                  (lit "/v1beta/models/")
                  (fakeStreamPrefix ++ lit "gemini-pro")
                  (lit "streamGenerateContent")
                  (fakeStreamPrefix ++ lit "gemini-pro")
                  eq_refl (or_introl eq_refl)
                  ltac:(discriminate) Hseg eq_refl)
           (lit "gemini-pro") (lit "gemini-pro") eq_refl
           ltac:(discriminate) eq_refl).
Defined.

Lemma text_chunk_translation_witness :
  _translateGoogleToOpenAIStream (engineFor richDocument richValue) richDocument
  = Some (Some (EvOpenAIChunk (Some (lit "Hello")) (Some (JStr (lit "STOP"))))).
Proof.
  apply (text_chunk_translation (engineFor richDocument richValue)
           richDocument richValue richCandidate
           [JObj [(lit "text", JStr (lit "Hel"))];
            JObj [(lit "text", JStr (lit "lo"))]]
           [lit "Hel"; lit "lo"]).
  - reflexivity.
  - reflexivity.
  - exists [], (JObj [(lit "parts",
                       JArr [JObj [(lit "text", JStr (lit "Hel"))];
                             JObj [(lit "text", JStr (lit "lo"))]]);
                      (lit "role", JStr (lit "model"))]).
    repeat split; reflexivity.
  - repeat constructor.
Defined.

Lemma image_chunk_translation_witness :
  _translateGoogleToOpenAIStream (engineFor imageDocument imageValue)
    imageDocument
  = Some (Some (EvOpenAIChunk
                  (Some (lit "![Generated Image](data:image/png;base64,iVBORw0KGgo=)"))
                  None)).
Proof.
  apply (image_chunk_translation (engineFor imageDocument imageValue)
           imageDocument imageValue imageCandidate
           [JObj [(lit "text", JStr (lit "Here it is"))]]
           (JObj [(lit "inlineData",
                   JObj [(lit "mimeType", JStr (lit "image/png"));
                         (lit "data", JStr (lit "iVBORw0KGgo="))])])
           [] (lit "image/png") (lit "iVBORw0KGgo=")).
  - reflexivity.
  - reflexivity.
  - eexists [], _. repeat split; reflexivity.
  - repeat constructor. discriminate.
  - eexists. repeat split; reflexivity.
Defined.

Lemma authMiddleware_admits_witness :
  let req := {| xGoogApiKey := None;
                authorization := Some (lit "Bearer secret");
                xApiKey := None;
                queryKey := Some (lit "secret") |} in
  exists req',
    authMiddleware [lit "secret"] req = PassedOn req'.
Proof.
  cbv zeta.
  apply (proj1 (proj2 (authMiddleware_admits [lit "secret"]
                         ltac:(discriminate)
                         {| xGoogApiKey := None;
                            authorization := Some (lit "Bearer secret");
                            xApiKey := None;
                            queryKey := Some (lit "secret") |}))).
  exists (lit "secret"). split; [reflexivity|].
  split; [discriminate | left; reflexivity].
Defined.

Lemma authMiddleware_first_credential_only_witness :
  authMiddleware [lit "secret"]
    {| xGoogApiKey := Some (lit "guess");
       authorization := Some (lit "Bearer secret");
       xApiKey := Some (lit "secret");
       queryKey := Some (lit "secret") |}
  = Denied 401.
Proof.
  apply (proj1 (authMiddleware_first_credential_only [lit "secret"]
                  ltac:(discriminate)
                  {| xGoogApiKey := Some (lit "guess");
                     authorization := Some (lit "Bearer secret");
                     xApiKey := Some (lit "secret");
                     queryKey := Some (lit "secret") |})
           (lit "guess") eq_refl).
  - discriminate.
  - cbn. intros [H|[]]. discriminate.
Defined.

Lemma openai_real_stream_first_error_witness :
  let w := initialWorld 1 [1; 2] (fun _ _ => None)
             [Arrives (MsgError (Some 500) (Some (lit "Internal error")))] in
  exists w',
    _handleOpenAIRealStreamResponse sampleEngine (sampleConfig 1)
      sampleRealRequest w = (Normal tt, w')
    /\ written (res w') = [EvDone]
    /\ statusCode (res w') = 200
    /\ failureCount (rh w') = 1.
Proof.
  cbv zeta.
  apply (proj2 (openai_real_stream_first_error sampleEngine (sampleConfig 1)
                  sampleRealRequest
                  (initialWorld 1 [1; 2] (fun _ _ => None)
                     [Arrives (MsgError (Some 500) (Some (lit "Internal error")))])
                  (MsgError (Some 500) (Some (lit "Internal error"))) []
                  eq_refl eq_refl eq_refl eq_refl)).
  - simpl. lia.
  - reflexivity.
  - simpl. lia.
Defined.

(* ===================================================================== *)
(** ** Errors after the headers *)
(* ===================================================================== *)

Section LateErrorPaths.

Variable js : Builtins.
Variable cfg : Config.
Variable p : ProxyRequest.




End LateErrorPaths.

